(** * claude-merge: the priority comparator, the merge engine and the
      placeholder substitution, embedded from the Go sources

    The development follows the packages of the repository:
    - [gostrings]: the functions of Go's [strings] package that the code calls
      ([Index], [Contains], [HasPrefix], [HasSuffix], [Split], [SplitN],
      [Join], [Trim]);
    - [config]: the canonical model ([Config], [Metadata], [Section], ...), the
      priority comparator, [ParseConfig], [LoadConfig], [ValidateConfig] and
      [sanitizeName];
    - [merger]: [ApplyStrategy], [PriorityMerger.MergeAll] and its helpers;
    - [main]: [validateArgs], [parseFileOrder] and [formatName].

    Go strings are byte sequences and are modelled by [string]; Go's [int] is
    modelled by [Z] (only comparisons are made on it); a Go map is a possibly
    nil reference to a finite map, modelled by [option (gmap string V)]. *)

From Stdlib Require Import ZArith Ascii String.
From stdpp Require Import base option list gmap strings fin_maps pretty.

Local Open Scope Z_scope.

(** ** Results of Go calls

    A call returns normally, returns a non-nil [error] (kept as its message),
    or panics at run time (the only panic the modelled code can raise is an
    assignment to an entry of a nil map). *)

Inductive outcome (A : Type) : Type :=
| Returns (a : A)
| Fails (err : string)
| Panics.
Arguments Returns {A} a.
Arguments Fails {A} err.
Arguments Panics {A}.

#[global] Instance outcome_ret : MRet outcome := fun A a => Returns a.
#[global] Instance outcome_bind : MBind outcome := fun A B f m =>
  match m with
  | Returns a => f a
  | Fails err => Fails err
  | Panics => Panics
  end.

(** A [for _, x := range l] loop whose body may stop the function. *)
Fixpoint foldM {A B : Type} (body : B -> A -> outcome B) (b : B) (l : list A)
  : outcome B :=
  match l with
  | [] => Returns b
  | a :: l' => b' ← body b a; foldM body b' l'
  end.

(** ** Go maps with string keys *)

Module gomap.

(** [None] is the nil map; [make] allocates an empty one. *)
Definition t (V : Type) : Type := option (gmap string V).

Definition make {V : Type} : t V := Some ∅.

(** What a read or a [range] sees: the nil map has no entry. *)
Definition entries {V : Type} (m : t V) : gmap string V := default ∅ m.

(** [v, ok := m[k]] *)
Definition get {V : Type} (m : t V) (k : string) : option V := entries m !! k.

(** [m[k] = v]: panics on the nil map. *)
Definition set {V : Type} (m : t V) (k : string) (v : V) : outcome (t V) :=
  match m with
  | None => Panics
  | Some g => Returns (Some (<[k:=v]> g))
  end.

Definition is_nil {V : Type} (m : t V) : bool :=
  match m with None => true | Some _ => false end.

End gomap.

(** ** Go's [strings] package *)

Module gostrings.

(** The one-byte string holding a line feed (Go's ["\n"]). *)
Definition nl : string := String (Ascii.ascii_of_nat 10) EmptyString.

(** [s[:n]] and [s[n:]]. *)
Fixpoint take (n : nat) (s : string) : string :=
  match n, s with
  | S n', String c s' => String c (take n' s')
  | _, _ => EmptyString
  end.

Fixpoint drop (n : nat) (s : string) : string :=
  match n, s with
  | S n', String _ s' => drop n' s'
  | _, _ => s
  end.

(** Offset of the first occurrence of [substr] in [s]. *)
Fixpoint index_nat (s substr : string) : option nat :=
  if String.prefix substr s then Some 0%nat
  else match s with
       | EmptyString => None
       | String _ s' => S <$> index_nat s' substr
       end.

(** [strings.Index]: [-1] when [substr] does not occur in [s]. *)
Definition Index (s substr : string) : Z :=
  match index_nat s substr with
  | Some i => Z.of_nat i
  | None => -1
  end.

(** [strings.Contains] is [Index(s, substr) >= 0]. *)
Definition Contains (s substr : string) : bool := 0 <=? Index s substr.

Definition HasPrefix (s pre : string) : bool := String.prefix pre s.

(** The loop of [strings.genSplit] for a non-empty separator: at most
    [cuts] cuts, each at the first occurrence of [sep] in what remains. *)
Fixpoint genSplit (s sep : string) (cuts : nat) : list string :=
  match cuts with
  | O => [s]
  | S k =>
      match index_nat s sep with
      | None => [s]
      | Some m => take m s :: genSplit (drop (m + String.length sep) s) sep k
      end
  end.

(** [strings.Split] with a non-empty separator: it cuts at every occurrence,
    and there are at most [len(s)] of them. *)
Definition Split (s sep : string) : list string :=
  genSplit s sep (String.length s).

(** [strings.SplitN] with a non-empty separator: at most [n] pieces. *)
Definition SplitN (s sep : string) (n : nat) : list string :=
  match n with
  | O => []
  | S k => genSplit s sep k
  end.

Fixpoint Join (elems : list string) (sep : string) : string :=
  match elems with
  | [] => EmptyString
  | [e] => e
  | e :: rest => e +:+ sep +:+ Join rest sep
  end.

(** [strings.HasSuffix]:
    [len(s) >= len(suffix) && s[len(s)-len(suffix):] == suffix]. *)
Definition HasSuffix (s suffix : string) : bool :=
  (String.length suffix <=? String.length s)%nat
  && bool_decide (drop (String.length s - String.length suffix) s = suffix).

(** [c] is one of the bytes of [cutset]. *)
Fixpoint in_cutset (c : ascii) (cutset : string) : bool :=
  match cutset with
  | EmptyString => false
  | String x cutset' => bool_decide (x = c) || in_cutset c cutset'
  end.

Fixpoint TrimLeft (s cutset : string) : string :=
  match s with
  | String c s' => if in_cutset c cutset then TrimLeft s' cutset else s
  | EmptyString => s
  end.

Fixpoint TrimRight (s cutset : string) : string :=
  match s with
  | String c s' =>
      match TrimRight s' cutset with
      | EmptyString => if in_cutset c cutset then EmptyString else String c EmptyString
      | t => String c t
      end
  | EmptyString => s
  end.

(** [strings.Trim] with a cutset of ASCII bytes: the leading and the trailing
    bytes that belong to the cutset are removed. *)
Definition Trim (s cutset : string) : string := TrimRight (TrimLeft s cutset) cutset.

End gostrings.

(** ** Package [config]: the canonical model and the comparator *)

Module config.

Inductive PriorityType := PriorityNone | PriorityRelative | PriorityExplicit.

#[global] Instance PriorityType_eq_dec : EqDecision PriorityType.
Proof. solve_decision. Defined.

(** [Priority] struct; the field [Type] is spelled [Type_]. *)
Record Priority := mkPriority { Type_ : PriorityType; Value : Z }.

#[global] Instance Priority_eq_dec : EqDecision Priority.
Proof. solve_decision. Defined.

Definition NewExplicitPriority (value : Z) : Priority :=
  {| Type_ := PriorityExplicit; Value := value |}.

Definition NewRelativePriority (value : Z) : Priority :=
  {| Type_ := PriorityRelative; Value := value |}.

(** The zero value of the struct. *)
Definition zeroPriority : Priority := {| Type_ := PriorityNone; Value := 0 |}.

(** [func (p Priority) TakesPrecedenceOver(other Priority) bool] *)
Definition TakesPrecedenceOver (p other : Priority) : bool :=
  if bool_decide (Type_ p = PriorityExplicit)
     && negb (bool_decide (Type_ other = PriorityExplicit)) then true
  else if bool_decide (Type_ other = PriorityExplicit)
          && negb (bool_decide (Type_ p = PriorityExplicit)) then false
  else if bool_decide (Type_ p = Type_ other) then Value p >? Value other
  else bool_decide (Type_ p = PriorityRelative)
       && bool_decide (Type_ other = PriorityNone).

(** [func (p Priority) TakesPrecedenceOverOrEqual(other Priority) bool] *)
Definition TakesPrecedenceOverOrEqual (p other : Priority) : bool :=
  if bool_decide (Type_ p = PriorityExplicit)
     && negb (bool_decide (Type_ other = PriorityExplicit)) then true
  else if bool_decide (Type_ other = PriorityExplicit)
          && negb (bool_decide (Type_ p = PriorityExplicit)) then false
  else if bool_decide (Type_ p = Type_ other) then Value p >=? Value other
  else if bool_decide (Type_ p = PriorityRelative)
          && bool_decide (Type_ other = PriorityNone) then true
  else if bool_decide (Type_ p = PriorityNone)
          && bool_decide (Type_ other = PriorityNone) then true
  else false.

(** [FileFormat] is an [int]; the three constants come from [iota]. *)
Definition FileFormat : Type := Z.
Definition FormatTOML : FileFormat := 0.
Definition FormatYAML : FileFormat := 1.
Definition FormatMarkdown : FileFormat := 2.

Module Metadata.
Record t := mk {
  Title : string;
  Description : string;
  Version : string;
  Language : string;
  Extends : string;
  Priority : config.Priority
}.
Definition zero : t := mk "" "" "" "" "" zeroPriority.
Definition set_Title (v : string) (m : t) : t :=
  mk v (Description m) (Version m) (Language m) (Extends m) (Priority m).
Definition set_Description (v : string) (m : t) : t :=
  mk (Title m) v (Version m) (Language m) (Extends m) (Priority m).
Definition set_Version (v : string) (m : t) : t :=
  mk (Title m) (Description m) v (Language m) (Extends m) (Priority m).
Definition set_Language (v : string) (m : t) : t :=
  mk (Title m) (Description m) (Version m) v (Extends m) (Priority m).
Definition set_Extends (v : string) (m : t) : t :=
  mk (Title m) (Description m) (Version m) (Language m) v (Priority m).
Definition set_Priority (v : config.Priority) (m : t) : t :=
  mk (Title m) (Description m) (Version m) (Language m) (Extends m) v.
End Metadata.

Module Section.
Record t := mk {
  Order : Z;
  Parent : string;
  MergeID : string;
  Content : string;
  MergePoints : list string;
  Priority : config.Priority
}.
Definition zero : t := mk 0 "" "" "" [] zeroPriority.
Definition set_Content (v : string) (s : t) : t :=
  mk (Order s) (Parent s) (MergeID s) v (MergePoints s) (Priority s).
End Section.

Module MergePoint.
Record t := mk {
  Placeholder : string;
  Default : string;
  Priority : config.Priority
}.
End MergePoint.

Module MergeTarget.
Record t := mk {
  Strategy : string;
  Content : string;
  Priority : config.Priority
}.
End MergeTarget.

Module Config.
Record t := mk {
  Metadata : Metadata.t;
  Sections : gomap.t Section.t;
  MergePoints : gomap.t MergePoint.t;
  MergeTargets : gomap.t MergeTarget.t;
  SourceFile : string;
  SourceFormat : FileFormat
}.
(** [var config Config]: every field at its zero value, the maps nil. *)
Definition zero : t := mk Metadata.zero None None None "" 0.
Definition set_Metadata (v : Metadata.t) (c : t) : t :=
  mk v (Sections c) (MergePoints c) (MergeTargets c) (SourceFile c) (SourceFormat c).
Definition set_Sections (v : gomap.t Section.t) (c : t) : t :=
  mk (Metadata c) v (MergePoints c) (MergeTargets c) (SourceFile c) (SourceFormat c).
Definition set_MergePoints (v : gomap.t MergePoint.t) (c : t) : t :=
  mk (Metadata c) (Sections c) v (MergeTargets c) (SourceFile c) (SourceFormat c).
Definition set_MergeTargets (v : gomap.t MergeTarget.t) (c : t) : t :=
  mk (Metadata c) (Sections c) (MergePoints c) v (SourceFile c) (SourceFormat c).
Definition set_SourceFormat (v : FileFormat) (c : t) : t :=
  mk (Metadata c) (Sections c) (MergePoints c) (MergeTargets c) (SourceFile c) v.
End Config.

(** What [yaml.Unmarshal] stores in an [interface{}]: a string, an int, a
    nested mapping, or something else. *)
#[warnings="-register-all"]
Inductive any : Type :=
| AString (s : string)
| AInt (n : Z)
| AMap (m : list (string * any))
| AOther.

(** [m[k]] on a [map[string]interface{}] held as its list of entries. *)
Fixpoint any_get (m : list (string * any)) (k : string) : option any :=
  match m with
  | [] => None
  | (k', v) :: m' => if bool_decide (k' = k) then Some v else any_get m' k
  end.

Section Parsers.

(** The decoders of the two structured syntaxes, [toml.Unmarshal] and
    [yaml.Unmarshal] into a [*Config], belong to external libraries; so do
    [yaml.Unmarshal] into a [map[string]interface{}] and the Unicode-aware
    [strings.TrimSpace] and [strings.ToLower]. *)
Variable toml_Unmarshal : string -> Config.t -> outcome Config.t.
Variable yaml_Unmarshal : string -> Config.t -> outcome Config.t.
Variable yaml_Unmarshal_map : string -> outcome (list (string * any)).
Variable TrimSpace : string -> string.
Variable ToLower : string -> string.

(** The single section of a Markdown document. *)
Definition contentSection (content : string) : Section.t :=
  Section.mk 1 "" "" content [] zeroPriority.

(** [config.Sections["content"] = ...] preceded by the nil check. *)
Definition setContentSection (content : string) (cfg : Config.t)
  : outcome Config.t :=
  let cfg :=
    if gomap.is_nil (Config.Sections cfg)
    then Config.set_Sections gomap.make cfg else cfg in
  m ← gomap.set (Config.Sections cfg) "content" (contentSection content);
  Returns (Config.set_Sections m cfg).

(** The [priority] block of the front matter. *)
Definition frontmatterPriority (metadata : list (string * any))
    (p : Priority) : Priority :=
  match any_get metadata "priority" with
  | Some (AMap priorityMap) =>
      match any_get priorityMap "type" with
      | Some (AString priorityType) =>
          match any_get priorityMap "value" with
          | Some (AInt priorityValue) =>
              let p := mkPriority (Type_ p) priorityValue in
              if bool_decide (ToLower priorityType = "explicit")
              then mkPriority PriorityExplicit (Value p)
              else if bool_decide (ToLower priorityType = "relative")
              then mkPriority PriorityRelative (Value p)
              else p
          | _ => p
          end
      | _ => p
      end
  | _ => p
  end.

(** [func parseMarkdown(data []byte) (Config, error)] *)
Definition parseMarkdown (data : string) : outcome Config.t :=
  let cfg := Config.zero in
  let content := data in
  if gostrings.HasPrefix content "---" then
    let parts := gostrings.SplitN content "---" 3 in
    if (3 <=? length parts)%nat then
      let frontmatter := TrimSpace (default "" (parts !! 1%nat)) in
      match yaml_Unmarshal_map frontmatter with
      | Fails err => Fails ("failed to parse frontmatter: " +:+ err)
      | Panics => Panics
      | Returns metadata =>
          let md := Config.Metadata cfg in
          let md := match any_get metadata "title" with
                    | Some (AString title) => Metadata.set_Title title md
                    | _ => md end in
          let md := match any_get metadata "description" with
                    | Some (AString description) =>
                        Metadata.set_Description description md
                    | _ => md end in
          let md := match any_get metadata "version" with
                    | Some (AString version) => Metadata.set_Version version md
                    | _ => md end in
          let md := match any_get metadata "language" with
                    | Some (AString language) => Metadata.set_Language language md
                    | _ => md end in
          let md := Metadata.set_Priority
                      (frontmatterPriority metadata (Metadata.Priority md)) md in
          let cfg := Config.set_Metadata md cfg in
          let markdownContent := TrimSpace (default "" (parts !! 2%nat)) in
          if bool_decide (markdownContent = "") then Returns cfg
          else setContentSection markdownContent cfg
      end
    else Returns cfg
  else
    cfg ← setContentSection (TrimSpace content) cfg;
    if bool_decide (Metadata.Title (Config.Metadata cfg) = "")
    then Returns (Config.set_Metadata
                    (Metadata.set_Title "Untitled Document" (Config.Metadata cfg)) cfg)
    else Returns cfg.

(** The wrapped error of a failed decoder. *)
Definition wrap (prefix : string) {A : Type} (r : outcome A) : outcome A :=
  match r with
  | Fails err => Fails (prefix +:+ err)
  | _ => r
  end.

(** [func ParseConfig(data []byte, format FileFormat)], returning a
    [Config] pointer and an [error]. *)
Definition ParseConfig (data : string) (format : FileFormat)
  : outcome Config.t :=
  let cfg := Config.zero in
  cfg ←
    (if bool_decide (format = FormatTOML) then
       wrap "TOML parse error: " (toml_Unmarshal data cfg)
     else if bool_decide (format = FormatYAML) then
       wrap "YAML parse error: " (yaml_Unmarshal data cfg)
     else if bool_decide (format = FormatMarkdown) then
       wrap "Markdown parse error: " (parseMarkdown data)
     else Fails ("unsupported format: " +:+ pretty format));
  (* Initialize maps if nil *)
  let cfg := if gomap.is_nil (Config.Sections cfg)
             then Config.set_Sections gomap.make cfg else cfg in
  let cfg := if gomap.is_nil (Config.MergePoints cfg)
             then Config.set_MergePoints gomap.make cfg else cfg in
  let cfg := if gomap.is_nil (Config.MergeTargets cfg)
             then Config.set_MergeTargets gomap.make cfg else cfg in
  Returns (Config.set_SourceFormat format cfg).

End Parsers.

(** [func (pt PriorityType) MarshalText() ([]byte, error)]; the error is
    always nil. *)
Definition MarshalText (pt : PriorityType) : string :=
  match pt with
  | PriorityExplicit => "explicit"
  | PriorityRelative => "relative"
  | PriorityNone => "none"
  end.

(** [func (p Priority) String() string]; [%d] prints the decimal numeral. *)
Definition String_ (p : Priority) : string :=
  match Type_ p with
  | PriorityExplicit => "explicit(" +:+ pretty (Value p) +:+ ")"
  | PriorityRelative => "relative(" +:+ pretty (Value p) +:+ ")"
  | PriorityNone => "none"
  end.

(** A byte of the class [a-z0-9]. *)
Definition alnum_lower (c : ascii) : bool :=
  let n := Ascii.nat_of_ascii c in
  ((97 <=? n) && (n <=? 122) || (48 <=? n) && (n <=? 57))%nat.

(** [regexp.MustCompile(`[^a-z0-9]+`).ReplaceAllString(name, "_")]: every
    maximal run of bytes outside [a-z0-9] becomes one underscore. A rune
    outside the class is made of bytes outside the class, so the runs of
    bytes are the runs of runes. [skipping] tells that the previous byte
    belonged to a run. *)
Fixpoint replaceRuns (name : string) (skipping : bool) : string :=
  match name with
  | EmptyString => EmptyString
  | String c name' =>
      if alnum_lower c then String c (replaceRuns name' false)
      else if skipping then replaceRuns name' true
      else String "_"%char (replaceRuns name' true)
  end.

Section Loader.

(** The file system ([os.ReadFile]), the external decoders and the
    Unicode-aware functions of Go's library; [range] is the order in which a
    [for ... range] loop visits a map. *)
Variable ReadFile : string -> outcome string.
Variable toml_Unmarshal : string -> Config.t -> outcome Config.t.
Variable yaml_Unmarshal : string -> Config.t -> outcome Config.t.
Variable yaml_Unmarshal_map : string -> outcome (list (string * any)).
Variable TrimSpace : string -> string.
Variable ToLower : string -> string.
Variable range : forall V : Type, gmap string V -> list (string * V).

(** [func (pt *PriorityType) UnmarshalText(text []byte) error]: the value
    stored through [pt], or the error. *)
Definition UnmarshalText (text : string) : outcome PriorityType :=
  let lowered := ToLower text in
  if bool_decide (lowered = "explicit") then Returns PriorityExplicit
  else if bool_decide (lowered = "relative") then Returns PriorityRelative
  else if bool_decide (lowered = "none") || bool_decide (lowered = "")
  then Returns PriorityNone
  else Fails ("unknown priority type: " +:+ text).

(** [func DetectFormat(filename string) (FileFormat, error)] *)
Definition DetectFormat (filename : string) : outcome FileFormat :=
  let lower := ToLower filename in
  if gostrings.HasSuffix lower ".toml" then Returns FormatTOML
  else if gostrings.HasSuffix lower ".yaml" || gostrings.HasSuffix lower ".yml"
  then Returns FormatYAML
  else if gostrings.HasSuffix lower ".md" || gostrings.HasSuffix lower ".markdown"
  then Returns FormatMarkdown
  else Fails ("unsupported file format for " +:+ filename).

(** [func LoadConfig(filename string)], returning a [Config] pointer and an
    [error]. *)
Definition LoadConfig (filename : string) : outcome Config.t :=
  match ReadFile filename with
  | Fails err => Fails ("failed to read file " +:+ filename +:+ ": " +:+ err)
  | Panics => Panics
  | Returns data =>
      format ← DetectFormat filename;
      match ParseConfig toml_Unmarshal yaml_Unmarshal yaml_Unmarshal_map
              TrimSpace ToLower data format with
      | Fails err => Fails ("failed to parse " +:+ filename +:+ ": " +:+ err)
      | Panics => Panics
      | Returns cfg =>
          let cfg :=
            Config.mk (Config.Metadata cfg) (Config.Sections cfg)
              (Config.MergePoints cfg) (Config.MergeTargets cfg)
              filename (Config.SourceFormat cfg) in
          Returns (Config.set_SourceFormat format cfg)
      end
  end.

(** The body of the loop of [ValidateConfig]. *)
Definition validSection (name : string) (section : Section.t) : outcome unit :=
  if negb (bool_decide (Type_ (Section.Priority section) = PriorityNone))
     && (Value (Section.Priority section) <? 0)
  then Fails ("section " +:+ name +:+ " has invalid priority value: "
              +:+ pretty (Value (Section.Priority section)))
  else Returns tt.

(** [func ValidateConfig(config *Config) error]: [Returns tt] is the nil
    error. *)
Definition ValidateConfig (cfg : Config.t) : outcome unit :=
  if bool_decide (Metadata.Title (Config.Metadata cfg) = "")
  then Fails "config missing title in metadata"
  else if (size (gomap.entries (Config.Sections cfg)) =? 0)%nat
  then Fails "config has no sections"
  else
    foldM (fun _ '(name, section) => validSection name section) tt
          (range _ (gomap.entries (Config.Sections cfg))).

(** [func sanitizeName(title string) string] *)
Definition sanitizeName (title : string) : string :=
  let name := ToLower title in
  let name := replaceRuns name false in
  gostrings.Trim name "_".

End Loader.

End config.

(** ** Package [merger] *)

Module merger.
Import config.

(** *** strategies.go *)

Definition StrategyReplace : string := "replace".
Definition StrategyAppend : string := "append".
Definition StrategyPrepend : string := "prepend".

(** [func (s MergeStrategy) IsValid() bool] *)
Definition IsValid (s : string) : bool :=
  bool_decide (s = StrategyReplace) || bool_decide (s = StrategyAppend)
  || bool_decide (s = StrategyPrepend).

(** [func ApplyStrategy(strategy MergeStrategy, old, new string) string] *)
Definition ApplyStrategy (strategy old new : string) : string :=
  if bool_decide (strategy = StrategyReplace) then new
  else if bool_decide (strategy = StrategyAppend) then
    if bool_decide (old = "") then new else old +:+ gostrings.nl +:+ new
  else if bool_decide (strategy = StrategyPrepend) then
    if bool_decide (old = "") then new else new +:+ gostrings.nl +:+ old
  else new.

(** *** The priority merger

    The receiver [m *PriorityMerger] only carries the [debug] flag, which
    selects whether progress lines are printed; the printed lines are not
    part of the model. *)

(** A non-nil [*config.Config]: the address compared by [cfg != baseConfig]
    and the document it points to. The merger never writes through these
    pointers, and its callers pass the pointers that [LoadConfig] returned. *)
Record ConfigPtr := mkPtr { addr : nat; deref : Config.t }.

(** [func (m *PriorityMerger) mergeMetadata(result, incoming *config.Config)],
    one definition for each of its five field blocks. *)
Definition mergeTitle (incoming result : Metadata.t) : Metadata.t :=
  if bool_decide (Metadata.Title result = "")
     || TakesPrecedenceOverOrEqual (Metadata.Priority incoming) (Metadata.Priority result)
  then
    if negb (bool_decide (Metadata.Title incoming = "")) then
      Metadata.set_Priority (Metadata.Priority incoming)
        (Metadata.set_Title (Metadata.Title incoming) result)
    else result
  else result.

Definition mergeDescription (incoming result : Metadata.t) : Metadata.t :=
  if bool_decide (Metadata.Description result = "")
     || TakesPrecedenceOverOrEqual (Metadata.Priority incoming) (Metadata.Priority result)
  then
    if negb (bool_decide (Metadata.Description incoming = "")) then
      Metadata.set_Description (Metadata.Description incoming) result
    else result
  else result.

Definition mergeVersion (incoming result : Metadata.t) : Metadata.t :=
  if bool_decide (Metadata.Version result = "")
     || TakesPrecedenceOverOrEqual (Metadata.Priority incoming) (Metadata.Priority result)
  then
    if negb (bool_decide (Metadata.Version incoming = "")) then
      Metadata.set_Version (Metadata.Version incoming) result
    else result
  else result.

Definition mergeLanguage (incoming result : Metadata.t) : Metadata.t :=
  if bool_decide (Metadata.Language result = "")
     || TakesPrecedenceOverOrEqual (Metadata.Priority incoming) (Metadata.Priority result)
  then
    if negb (bool_decide (Metadata.Language incoming = "")) then
      Metadata.set_Language (Metadata.Language incoming) result
    else result
  else result.

Definition mergeExtends (incoming result : Metadata.t) : Metadata.t :=
  if bool_decide (Metadata.Extends result = "")
     || TakesPrecedenceOverOrEqual (Metadata.Priority incoming) (Metadata.Priority result)
  then
    if negb (bool_decide (Metadata.Extends incoming = "")) then
      Metadata.set_Extends (Metadata.Extends incoming) result
    else result
  else result.

Definition mergeMetadata (result incoming : Config.t) : Config.t :=
  let inc := Config.Metadata incoming in
  let md := Config.Metadata result in
  let md := mergeTitle inc md in
  let md := mergeDescription inc md in
  let md := mergeVersion inc md in
  let md := mergeLanguage inc md in
  let md := mergeExtends inc md in
  Config.set_Metadata md result.

(** [func containsTestCommands(content string) bool] *)
Definition containsTestCommands (content : string) : bool :=
  gostrings.Contains content "Testing commands"
  || gostrings.Contains content "### Testing commands"
  || gostrings.Contains content "test ./...".

(** The loop of [extractTestCommands]; returning [result] is its [break]. *)
Fixpoint extractTestCommands_loop (lines : list string) (inTestSection : bool)
    (result : list string) : list string :=
  match lines with
  | [] => result
  | line :: lines' =>
      if gostrings.Contains line "Testing commands"
         || gostrings.Contains line "### Testing commands"
      then extractTestCommands_loop lines' true result
      else if inTestSection then
        if gostrings.HasPrefix line "#" && negb (gostrings.Contains line "Testing")
        then result
        else if bool_decide (line = "") && (4 <? length result)%nat
        then result
        else if negb (bool_decide (line = ""))
        then extractTestCommands_loop lines' inTestSection (result ++ [line])
        else extractTestCommands_loop lines' inTestSection result
      else extractTestCommands_loop lines' inTestSection result
  end.

(** [func extractTestCommands(content string) string] *)
Definition extractTestCommands (content : string) : string :=
  let lines := gostrings.Split content gostrings.nl in
  gostrings.Join (extractTestCommands_loop lines false []) gostrings.nl.

(** [func containsDocumentationStandards(content string) bool] *)
Definition containsDocumentationStandards (content : string) : bool :=
  gostrings.Contains content "Documentation Standards"
  || gostrings.Contains content "### Documentation Standards".

(** The loop of [extractDocumentationStandards]. *)
Fixpoint extractDocumentationStandards_loop (lines : list string)
    (inDocSection : bool) (codeBlockCount : Z) (result : list string)
  : list string :=
  match lines with
  | [] => result
  | line :: lines' =>
      if gostrings.Contains line "Documentation Standards"
         || gostrings.Contains line "### Documentation Standards"
      then extractDocumentationStandards_loop lines' true codeBlockCount (result ++ [""])
      else if inDocSection then
        let codeBlockCount :=
          if gostrings.HasPrefix line "```" then codeBlockCount + 1
          else codeBlockCount in
        if (codeBlockCount >=? 2) && gostrings.HasPrefix line "```"
        then result ++ [line]
        else if gostrings.HasPrefix line "##"
                && negb (gostrings.Contains line "Documentation")
        then result
        else extractDocumentationStandards_loop lines' inDocSection codeBlockCount
               (result ++ [line])
      else extractDocumentationStandards_loop lines' inDocSection codeBlockCount result
  end.

(** [func containsPlaceholders(content string) bool] *)
Definition containsPlaceholders (content : string) : bool :=
  gostrings.Contains content "<language-specific-"
  && gostrings.Contains content "</language-specific-".

(** [func replacePlaceholderBlock(content, openTag, closeTag, replacement string) string] *)
Definition replacePlaceholderBlock (content openTag closeTag replacement : string)
  : string :=
  let startIdx := gostrings.Index content openTag in
  if startIdx =? -1 then content
  else
    let endIdx := gostrings.Index content closeTag in
    if endIdx =? -1 then content
    else
      let before := gostrings.take (Z.to_nat startIdx) content in
      let after :=
        gostrings.drop (Z.to_nat (endIdx + Z.of_nat (String.length closeTag))) content in
      before +:+ replacement +:+ after.

(** [replacements[k]] on a [map[string]string]: the empty string when absent. *)
Definition at_key (replacements : gmap string string) (k : string) : string :=
  default "" (replacements !! k).

(** [result.Sections[name] = section] and its two siblings. *)
Definition putSection (name : string) (section : Section.t) (result : Config.t)
  : outcome Config.t :=
  m ← gomap.set (Config.Sections result) name section;
  Returns (Config.set_Sections m result).

Definition putMergePoint (name : string) (point : MergePoint.t) (result : Config.t)
  : outcome Config.t :=
  m ← gomap.set (Config.MergePoints result) name point;
  Returns (Config.set_MergePoints m result).

Definition putMergeTarget (name : string) (target : MergeTarget.t) (result : Config.t)
  : outcome Config.t :=
  m ← gomap.set (Config.MergeTargets result) name target;
  Returns (Config.set_MergeTargets m result).

Section engine.

(** [strings.TrimSpace] trims Unicode white space and is left to Go's
    library. [range] is the order in which a [for ... range m] loop visits the
    entries of the map [m]: Go leaves it unspecified. *)
Variable TrimSpace : string -> string.
Variable range : forall V : Type, gmap string V -> list (string * V).

(** [func extractDocumentationStandards(content string) string] *)
Definition extractDocumentationStandards (content : string) : string :=
  let lines := gostrings.Split content gostrings.nl in
  TrimSpace
    (gostrings.Join (extractDocumentationStandards_loop lines false 0 []) gostrings.nl).

(** [func (m *PriorityMerger) mergeSections(result, incoming *config.Config)] *)
Definition mergeSections (result incoming : Config.t) : outcome Config.t :=
  foldM (fun result '(name, section) =>
           match gomap.get (Config.Sections result) name with
           | Some existing =>
               if TakesPrecedenceOverOrEqual
                    (Section.Priority section) (Section.Priority existing)
               then putSection name section result
               else Returns result
           | None => putSection name section result
           end)
        result (range _ (gomap.entries (Config.Sections incoming))).

(** [func (m *PriorityMerger) mergeMergePoints(result, incoming *config.Config)] *)
Definition mergeMergePoints (result incoming : Config.t) : outcome Config.t :=
  foldM (fun result '(name, point) =>
           match gomap.get (Config.MergePoints result) name with
           | Some existing =>
               if TakesPrecedenceOverOrEqual
                    (MergePoint.Priority point) (MergePoint.Priority existing)
               then putMergePoint name point result
               else Returns result
           | None => putMergePoint name point result
           end)
        result (range _ (gomap.entries (Config.MergePoints incoming))).

(** [func (m *PriorityMerger) mergeMergeTargets(result, incoming *config.Config)] *)
Definition mergeMergeTargets (result incoming : Config.t) : outcome Config.t :=
  foldM (fun result '(name, target) =>
           match gomap.get (Config.MergeTargets result) name with
           | Some existing =>
               if TakesPrecedenceOverOrEqual
                    (MergeTarget.Priority target) (MergeTarget.Priority existing)
               then putMergeTarget name target result
               else Returns result
           | None => putMergeTarget name target result
           end)
        result (range _ (gomap.entries (Config.MergeTargets incoming))).

(** The body of the collecting loop of [applyPlaceholderReplacements], for
    one section. *)
Definition collectFrom (replacements : gmap string string) (section : Section.t)
  : gmap string string :=
  let content := Section.Content section in
  let replacements :=
    if containsTestCommands content
    then <["test-commands" := extractTestCommands content]> replacements
    else replacements in
  if containsDocumentationStandards content
  then <["documentation-standards" := extractDocumentationStandards content]> replacements
  else replacements.

(** The first loop of [applyPlaceholderReplacements]. *)
Definition collectReplacements (configs : list ConfigPtr) : gmap string string :=
  foldl (fun replacements cfg =>
           foldl (fun replacements '(_, section) => collectFrom replacements section)
                 replacements
                 (range _ (gomap.entries (Config.Sections (deref cfg)))))
        ∅ configs.

(** The content a section gets in the second loop. *)
Definition fillPlaceholders (replacements : gmap string string) (content : string)
  : string :=
  let content :=
    if negb (bool_decide (at_key replacements "test-commands" = "")) then
      replacePlaceholderBlock content
        "<language-specific-test-commands-here>"
        "</language-specific-test-commands-here>"
        (at_key replacements "test-commands")
    else
      replacePlaceholderBlock content
        "<language-specific-test-commands-here>"
        "</language-specific-test-commands-here>"
        "" in
  if negb (bool_decide (at_key replacements "documentation-standards" = "")) then
    replacePlaceholderBlock content
      "<language-specific-documentation-standards>"
      "</language-specific-documentation-standards>"
      (at_key replacements "documentation-standards")
  else
    replacePlaceholderBlock content
      "<language-specific-documentation-standards>"
      "</language-specific-documentation-standards>"
      "".

(** [func (m *PriorityMerger) applyPlaceholderReplacements(result, configs)] *)
Definition applyPlaceholderReplacements (result : Config.t)
    (configs : list ConfigPtr) : outcome Config.t :=
  let replacements := collectReplacements configs in
  foldM (fun result '(name, section) =>
           let content := fillPlaceholders replacements (Section.Content section) in
           putSection name (Section.set_Content content section) result)
        result (range _ (gomap.entries (Config.Sections result))).

(** [func (m *PriorityMerger) findBaseTemplate(configs) *config.Config]:
    [None] is the nil pointer. *)
Fixpoint findBaseTemplate (configs : list ConfigPtr) : option ConfigPtr :=
  match configs with
  | [] => None
  | cfg :: configs' =>
      if existsb (fun '(_, section) => containsPlaceholders (Section.Content section))
                 (range _ (gomap.entries (Config.Sections (deref cfg))))
      then Some cfg
      else findBaseTemplate configs'
  end.

(** The last loop of [mergeWithTemplate], for one [cfg]. *)
Definition overrideTitle (baseConfig : ConfigPtr) (result : Config.t)
    (cfg : ConfigPtr) : Config.t :=
  let md := Config.Metadata (deref cfg) in
  if negb (addr cfg =? addr baseConfig)%nat then
    if TakesPrecedenceOverOrEqual
         (Metadata.Priority md) (Metadata.Priority (Config.Metadata result))
    then
      if negb (bool_decide (Metadata.Title md = ""))
         && negb (bool_decide
                    (Metadata.Title md = Metadata.Title (Config.Metadata result)))
      then
        if TakesPrecedenceOver
             (Metadata.Priority md) (Metadata.Priority (Config.Metadata result))
        then Config.set_Metadata
               (Metadata.set_Title (Metadata.Title md) (Config.Metadata result)) result
        else result
      else result
    else result
  else result.

(** [func (m *PriorityMerger) mergeWithTemplate(result, baseConfig, configs)] *)
Definition mergeWithTemplate (result : Config.t) (baseConfig : ConfigPtr)
    (configs : list ConfigPtr) : outcome Config.t :=
  let base := deref baseConfig in
  let result := Config.set_Metadata (Config.Metadata base) result in
  result ← foldM (fun result '(name, section) => putSection name section result)
                 result (range _ (gomap.entries (Config.Sections base)));
  result ← foldM (fun result '(name, mp) => putMergePoint name mp result)
                 result (range _ (gomap.entries (Config.MergePoints base)));
  result ← foldM (fun result '(name, mt) => putMergeTarget name mt result)
                 result (range _ (gomap.entries (Config.MergeTargets base)));
  result ← applyPlaceholderReplacements result configs;
  Returns (foldl (overrideTitle baseConfig) result configs).

(** The accumulator [MergeAll] starts from: three empty, allocated maps and
    zero values elsewhere. *)
Definition newResult : Config.t :=
  Config.mk Metadata.zero gomap.make gomap.make gomap.make "" 0.

(** The body of the standard loop of [MergeAll]. *)
Definition mergeOne (result : Config.t) (cfg : ConfigPtr) : outcome Config.t :=
  let result := mergeMetadata result (deref cfg) in
  result ← mergeSections result (deref cfg);
  result ← mergeMergePoints result (deref cfg);
  mergeMergeTargets result (deref cfg).

(** [func (m *PriorityMerger) MergeAll(configs)], returning a [Config]
    pointer and an [error]. *)
Definition MergeAll (configs : list ConfigPtr) : outcome Config.t :=
  if (length configs =? 0)%nat then Fails "no configurations to merge"
  else
    let result := newResult in
    match findBaseTemplate configs with
    | Some baseConfig => mergeWithTemplate result baseConfig configs
    | None => foldM mergeOne result configs
    end.

End engine.

End merger.

(** ** Package [main]: the command line *)

Module main.
Import config.

(** [func formatName(format config.FileFormat) string] *)
Definition formatName (format : FileFormat) : string :=
  if bool_decide (format = FormatTOML) then "TOML"
  else if bool_decide (format = FormatYAML) then "YAML"
  else if bool_decide (format = FormatMarkdown) then "Markdown"
  else "Unknown".

Section cli.

(** [notExist file] tells that [os.Stat(file)] fails with an error for which
    [os.IsNotExist] holds. *)
Variable notExist : string -> bool.
Variable TrimSpace : string -> string.

(** [func validateArgs(files []string, output string) error] *)
Definition validateArgs (files : list string) (output : string) : outcome unit :=
  if (length files =? 0)%nat
     || ((length files =? 1)%nat && bool_decide (default "" (files !! 0%nat) = ""))
  then Fails "no input files specified"
  else if bool_decide (output = "") then Fails "output filename cannot be empty"
  else
    foldM (fun _ file =>
             if bool_decide (file = "") then Returns tt
             else if notExist file then Fails ("file not found: " +:+ file)
             else Returns tt)
          tt files.

(** The first loop of [parseFileOrder]: the files of the custom order that
    are input files, each once. [fileSet] and [used] are [map[string]bool]
    holding [true] only, that is sets. *)
Definition takeOrdered (fileSet : gset string)
    (state : list string * gset string) (file : string)
  : list string * gset string :=
  let '(result, used) := state in
  if bool_decide (file ∈ fileSet) && negb (bool_decide (file ∈ used))
  then (result ++ [file], {[file]} ∪ used)
  else (result, used).

(** [func parseFileOrder(files []string, orderSpec string) []string] *)
Definition parseFileOrder (files : list string) (orderSpec : string) : list string :=
  if bool_decide (orderSpec = "") then files
  else
    let customOrder := TrimSpace <$> gostrings.Split orderSpec "," in
    let fileSet : gset string := list_to_set files in
    let '(result, used) := foldl (takeOrdered fileSet) ([], ∅) customOrder in
    foldl (fun result file =>
             if negb (bool_decide (file ∈ used)) then result ++ [file] else result)
          result files.

End cli.

End main.

Import config merger.

(** * Concrete choices used to run the model

    [range] visits the entries in the order of [map_to_list]; [TrimSpace] is
    the ASCII path of Go's [strings.TrimSpace] (it trims the six ASCII space
    bytes and agrees with Go on text without non-ASCII white space). *)

Module run.

Definition range (V : Type) (m : gmap string V) : list (string * V) :=
  map_to_list m.

Definition space (c : ascii) : bool :=
  let n := Ascii.nat_of_ascii c in
  ((9 <=? n) && (n <=? 13) || (n =? 32))%nat.

Fixpoint TrimLeft (s : string) : string :=
  match s with
  | String c s' => if space c then TrimLeft s' else s
  | EmptyString => s
  end.

Fixpoint TrimRight (s : string) : string :=
  match s with
  | String c s' =>
      match TrimRight s' with
      | EmptyString => if space c then EmptyString else String c EmptyString
      | t => String c t
      end
  | EmptyString => s
  end.

Definition TrimSpace (s : string) : string := TrimRight (TrimLeft s).

Definition MergeAll := merger.MergeAll TrimSpace range.

Definition section (content : string) (p : Priority) : Section.t :=
  Section.mk 0 "" "" content [] p.

Definition document (a : nat) (title : string) (p : Priority)
    (sections : list (string * Section.t)) : ConfigPtr :=
  mkPtr a (Config.mk (Metadata.mk title "" "" "" "" p)
             (Some (list_to_map sections)) None None "" 0).

(** Documents of the repository's tests. *)
Definition baseTitled : ConfigPtr :=
  mkPtr 1 (Config.mk
             (Metadata.mk "Base Title" "Base Description" "1.0.0" "" ""
                (NewRelativePriority 5))
             None None None "" 0).

Definition overrideTitled : ConfigPtr :=
  mkPtr 2 (Config.mk
             (Metadata.mk "Override Title" "" "" "golang" ""
                (NewExplicitPriority 10))
             None None None "" 0).

Definition firstUntitled : ConfigPtr :=
  document 3 "" zeroPriority [("section1", section "First content" zeroPriority)].

(** The two documents of the explicit-against-relative scenario, and a
    variant of the second that is a template. *)
Definition explicitDoc : ConfigPtr :=
  document 4 "X" zeroPriority [("s", section "X content" (NewExplicitPriority 5))].

Definition relativeDoc : ConfigPtr :=
  document 5 "Y" zeroPriority [("s", section "Y content" (NewRelativePriority 1000))].

Definition relativeTemplate : ConfigPtr :=
  document 6 "Y" zeroPriority
    [("s", section ("Run: <language-specific-test-commands-here>"
                    +:+ "</language-specific-test-commands-here>")
             (NewRelativePriority 1000))].

(** An untitled document with a priority, and a template with the same
    placeholder twice. *)
Definition untitledExplicit : ConfigPtr :=
  document 7 "" (NewExplicitPriority 5)
    [("section1", section "Single content" zeroPriority)].

Definition twoBlocks : ConfigPtr :=
  document 8 "Base" zeroPriority
    [("content",
      section ("<language-specific-test-commands-here>"
               +:+ "</language-specific-test-commands-here>"
               +:+ " and "
               +:+ "<language-specific-test-commands-here>"
               +:+ "</language-specific-test-commands-here>")
        zeroPriority)].

(** The base and the language document of the end-to-end test with a nested
    placeholder. *)
Definition nestedBase : ConfigPtr :=
  document 9 "Untitled Document" zeroPriority
    [("content",
      section ("# Base" +:+ gostrings.nl +:+ "## Section" +:+ gostrings.nl
               +:+ "<language-specific-test-commands-here>" +:+ gostrings.nl
               +:+ "Nested content" +:+ gostrings.nl
               +:+ "</language-specific-test-commands-here>")
        zeroPriority)].

Definition nestedLang : ConfigPtr :=
  document 10 "Untitled Document" zeroPriority
    [("content",
      section ("# Lang" +:+ gostrings.nl +:+ "### Testing commands"
               +:+ gostrings.nl +:+ "- nested test")
        zeroPriority)].

(** Two templates outside what the substitution provides for: an opening
    tag without its closing tag (the closing tag of the other placeholder
    makes the document a template), and the closing tag before the opening
    one. *)
Definition loneTag : ConfigPtr :=
  document 11 "Base" zeroPriority
    [("content",
      section ("<language-specific-test-commands-here>" +:+ " kept "
               +:+ "</language-specific-documentation-standards>")
        zeroPriority)].

Definition invertedTags : ConfigPtr :=
  document 12 "Base" zeroPriority
    [("content",
      section ("</language-specific-test-commands-here>" +:+ " mid "
               +:+ "<language-specific-test-commands-here>")
        zeroPriority)].

(** Documents with several sections, merge points and merge targets, under
    keys they share and keys of their own. *)
Definition wired (a : nat) (md : Metadata.t)
    (sections : list (string * Section.t))
    (points : list (string * MergePoint.t))
    (targets : list (string * MergeTarget.t)) : ConfigPtr :=
  mkPtr a (Config.mk md (Some (list_to_map sections)) (Some (list_to_map points))
             (Some (list_to_map targets)) "" 0).

Definition wiredLow : ConfigPtr :=
  wired 13 (Metadata.mk "Low" "" "" "" "" (NewRelativePriority 1))
    [("intro", section "Low intro" (NewRelativePriority 1));
     ("usage", section "Low usage" (NewExplicitPriority 3))]
    [("test", MergePoint.mk "<!-- MERGE:test -->" "low default"
                (NewRelativePriority 1));
     ("lint", MergePoint.mk "<!-- MERGE:lint -->" "low lint" zeroPriority)]
    [("test", MergeTarget.mk "append" "low content" (NewRelativePriority 1))].

Definition wiredHigh : ConfigPtr :=
  wired 14 (Metadata.mk "High" "" "" "" "" (NewExplicitPriority 2))
    [("intro", section "High intro" (NewExplicitPriority 2));
     ("usage", section "High usage" (NewRelativePriority 9));
     ("extra", section "High extra" zeroPriority)]
    [("test", MergePoint.mk "<!-- MERGE:test -->" "high default"
                (NewExplicitPriority 2))]
    [("test", MergeTarget.mk "append" "high content" (NewExplicitPriority 2));
     ("deploy", MergeTarget.mk "prepend" "high deploy" zeroPriority)].

(** A template with metadata, merge points and merge targets of its own, and
    a document of higher priority that differs from it in each of them. *)
Definition richTemplate : ConfigPtr :=
  wired 15
    (Metadata.mk "Template" "Base description" "1.2.0" "go" "parent.md"
       (NewRelativePriority 2))
    [("content",
      section ("Run: <language-specific-test-commands-here>"
               +:+ "</language-specific-test-commands-here>")
        zeroPriority)]
    [("test", MergePoint.mk "<!-- MERGE:test -->" "base default"
                (NewRelativePriority 2))]
    [("test", MergeTarget.mk "replace" "base content" (NewRelativePriority 2))].

Definition richOther : ConfigPtr :=
  wired 16
    (Metadata.mk "Other" "Other description" "9.9.9" "python" "other.md"
       (NewExplicitPriority 7))
    [("content", section "Other content" (NewExplicitPriority 7))]
    [("test", MergePoint.mk "<!-- MERGE:test -->" "other default"
                (NewExplicitPriority 7));
     ("lint", MergePoint.mk "<!-- MERGE:lint -->" "other lint"
                (NewExplicitPriority 7))]
    [("test", MergeTarget.mk "append" "other content" (NewExplicitPriority 7));
     ("deploy", MergeTarget.mk "append" "other deploy" (NewExplicitPriority 7))].

(** [strings.ToLower] on ASCII text. *)
Definition lower (c : ascii) : ascii :=
  let n := Ascii.nat_of_ascii c in
  if ((65 <=? n) && (n <=? 90))%nat then Ascii.ascii_of_nat (n + 32) else c.

Fixpoint ToLower (s : string) : string :=
  match s with
  | String c s' => String (lower c) (ToLower s')
  | EmptyString => s
  end.

(** Stand-ins for the external decoders, for inputs that do not reach them. *)
Definition no_decoder (data : string) (cfg : Config.t) : outcome Config.t :=
  Fails "decoder not available".

Definition no_yaml_map (data : string) : outcome (list (string * any)) :=
  Fails "decoder not available".

Definition ParseConfig :=
  config.ParseConfig no_decoder no_decoder no_yaml_map TrimSpace (fun s => s).

End run.

(** * Vocabulary of the statements *)

(** [t] occurs in [s] at byte offset [i]; it occurs somewhere; its first
    occurrence is at [i]. *)
Definition occurs_at (t s : string) (i : nat) : Prop :=
  exists pre post, s = pre +:+ t +:+ post /\ String.length pre = i.

Definition occurs (t s : string) : Prop := exists i, occurs_at t s i.

Definition first_at (t s : string) (i : nat) : Prop :=
  occurs_at t s i /\ forall j, (j < i)%nat -> ~ occurs_at t s j.

(** [t] occurs in [s] at the offset [i] and nowhere else. *)
Definition only_at (t s : string) (i : nat) : Prop :=
  occurs_at t s i /\ forall k, occurs_at t s k -> k = i.

(** One placeholder substitution, on the contents the code provides for: a
    content that lacks one of the two tags stays as it is; a content that
    holds each tag once, the opening tag before the closing one, has the
    block from the opening tag through the closing tag give way to [text].
    Nothing is said of a content that holds a tag twice, or the closing tag
    before the opening one. *)
Definition block_replaced (openTag closeTag text content result : string) : Prop :=
  (~ occurs openTag content \/ ~ occurs closeTag content -> result = content)
  /\ forall pre mid post : string,
       content = pre +:+ openTag +:+ mid +:+ closeTag +:+ post ->
       only_at openTag content (String.length pre) ->
       only_at closeTag content (String.length (pre +:+ openTag +:+ mid)) ->
       result = pre +:+ text +:+ post.

(** The offsets at which [t] occurs in [s], in increasing order. *)
Fixpoint offsets (t s : string) : list nat :=
  (if String.prefix t s then [0%nat] else [])
  ++ match s with
     | EmptyString => []
     | String _ s' => S <$> offsets t s'
     end.

(** The title block of [mergeMetadata] assigns [result.Metadata.Title]. *)
Definition titleReplaced (incoming result : Metadata.t) : bool :=
  (bool_decide (Metadata.Title result = "")
   || TakesPrecedenceOverOrEqual (Metadata.Priority incoming) (Metadata.Priority result))
  && negb (bool_decide (Metadata.Title incoming = "")).

(** The per-key rule of the standard merge: what a key holds after an
    incoming map has been merged into the accumulated one. *)
Definition mergeEntry {V : Type} (prio : V -> Priority) (old new : option V)
  : option V :=
  match new, old with
  | None, _ => old
  | Some n, None => Some n
  | Some n, Some o =>
      if TakesPrecedenceOverOrEqual (prio n) (prio o) then Some n else Some o
  end.

(** The accumulated map after the standard merge of an incoming map. *)
Definition mergeMap {V : Type} (prio : V -> Priority) (acc inc : gmap string V)
  : gmap string V :=
  merge (mergeEntry prio) acc inc.

(** Some section of the document holds both placeholder marker prefixes:
    the document triggers template mode. *)
Definition hasPlaceholders (c : Config.t) : bool :=
  existsb (fun '(_, section) => containsPlaceholders (Section.Content section))
          (map_to_list (gomap.entries (Config.Sections c))).

(** All three maps of a document are allocated (non-nil). *)
Definition maps_non_nil (c : Config.t) : Prop :=
  gomap.is_nil (Config.Sections c) = false
  /\ gomap.is_nil (Config.MergePoints c) = false
  /\ gomap.is_nil (Config.MergeTargets c) = false.

(** One of the three map fields of [Config], read and written. *)
Record field (V : Type) := mkField {
  view : Config.t -> gomap.t V;
  update : gomap.t V -> Config.t -> Config.t
}.
Arguments view {V} _ _.
Arguments update {V} _ _ _.

Class field_ok {V : Type} (F : field V) : Prop := {
  view_update : forall m c, view F (update F m c) = m;
  update_update : forall m m' c, update F m' (update F m c) = update F m' c;
  update_view : forall c, update F (view F c) c = c
}.

Definition sectionsField : field Section.t :=
  mkField _ Config.Sections Config.set_Sections.
Definition mergePointsField : field MergePoint.t :=
  mkField _ Config.MergePoints Config.set_MergePoints.
Definition mergeTargetsField : field MergeTarget.t :=
  mkField _ Config.MergeTargets Config.set_MergeTargets.

(** The loop bodies of the merges, on the finite map itself. *)
Definition merge_into {V : Type} (prio : V -> Priority) (g : gmap string V)
    (kv : string * V) : gmap string V :=
  match g !! kv.1 with
  | Some existing =>
      if TakesPrecedenceOverOrEqual (prio kv.2) (prio existing)
      then <[kv.1 := kv.2]> g else g
  | None => <[kv.1 := kv.2]> g
  end.

Definition put_into {V W : Type} (f : V -> W) (g : gmap string W)
    (kv : string * V) : gmap string W :=
  <[kv.1 := f kv.2]> g.

(** The section a result section becomes in template mode. *)
Definition filled (replacements : gmap string string) (section : Section.t)
  : Section.t :=
  Section.set_Content
    (fillPlaceholders replacements (Section.Content section)) section.


(** The rank of a kind: explicit above relative above none. *)
Definition kindRank (t : PriorityType) : Z :=
  match t with
  | PriorityNone => 0
  | PriorityRelative => 1
  | PriorityExplicit => 2
  end.

(** The five field blocks of [mergeMetadata], on the metadata alone. *)
Definition mergeFields (inc md : Metadata.t) : Metadata.t :=
  mergeExtends inc (mergeLanguage inc (mergeVersion inc
    (mergeDescription inc (mergeTitle inc md)))).

(** The value a metadata field takes in its block of [mergeMetadata]:
    [outranks] is the comparison of the incoming priority with the
    accumulator's priority at that point. *)
Definition pick (outranks : bool) (acc inc : string) : string :=
  if (bool_decide (acc = "") || outranks) && negb (bool_decide (inc = ""))
  then inc else acc.

(** What a key holds after a sequence of incoming values were merged, one
    after the other, into [old]. *)
Definition mergeEntries {V : Type} (prio : V -> Priority) (old : option V)
    (news : list (option V)) : option V :=
  foldl (mergeEntry prio) old news.

(** The sections of a document, as a finite map. *)
Definition sectionsOf (cfg : ConfigPtr) : gmap string Section.t :=
  gomap.entries (Config.Sections (deref cfg)).

(** The merge points and the merge targets of a document. *)
Definition pointsOf (cfg : ConfigPtr) : gmap string MergePoint.t :=
  gomap.entries (Config.MergePoints (deref cfg)).

Definition targetsOf (cfg : ConfigPtr) : gmap string MergeTarget.t :=
  gomap.entries (Config.MergeTargets (deref cfg)).

(** In template mode, the document [cfg] takes the title over from a base of
    priority [p]: it is another document than the base, it has a title, and
    its priority strictly outranks [p]. *)
Definition overridesTitle (p : Priority) (baseConfig cfg : ConfigPtr) : bool :=
  negb (addr cfg =? addr baseConfig)%nat
  && negb (bool_decide (Metadata.Title (Config.Metadata (deref cfg)) = ""))
  && TakesPrecedenceOver (Metadata.Priority (Config.Metadata (deref cfg))) p.

(** The title of a document. *)
Definition titleOf (cfg : ConfigPtr) : string :=
  Metadata.Title (Config.Metadata (deref cfg)).

(** No document of the sequence triggers template mode. *)
Definition standardMode (configs : list ConfigPtr) : Prop :=
  configs <> [] /\ Forall (fun cfg => hasPlaceholders (deref cfg) = false) configs.

(** The sections the collecting loop of [applyPlaceholderReplacements]
    visits, in the order it visits them: document after document, each
    document's sections in the order of [range]. *)
Definition visited (range : forall V : Type, gmap string V -> list (string * V))
    (configs : list ConfigPtr) : list Section.t :=
  concat ((fun cfg => snd <$> range _ (sectionsOf cfg)) <$> configs).

(** Another order of visit than [run.range]: the reverse one. *)
Definition rangeReversed (V : Type) (m : gmap string V) : list (string * V) :=
  reverse (map_to_list m).

(** * The priority comparator *)

(** C1. [TakesPrecedenceOver A B] is true exactly when A is explicit and B is
    not, or A and B have the same kind and A's magnitude is strictly greater,
    or A is relative and B is none; in particular it is false at [A = B]. *)
Theorem TakesPrecedenceOver_iff (A B : Priority) :
  (TakesPrecedenceOver A B = true <->
     (Type_ A = PriorityExplicit /\ Type_ B <> PriorityExplicit)
     \/ (Type_ A = Type_ B /\ Value A > Value B)
     \/ (Type_ A = PriorityRelative /\ Type_ B = PriorityNone))
  /\ TakesPrecedenceOver A A = false.
Proof.
  split.
  - destruct A as [[] a], B as [[] b]; unfold TakesPrecedenceOver; cbn [Type_ Value];
      repeat (case_bool_decide; try congruence); cbn [andb negb];
      rewrite ?Z.gtb_ltb, ?Z.ltb_lt; (split; [intros Hb | intros [[? ?] | [[? ?] | [? ?]]]]);
      try discriminate; try congruence; try lia; auto.
    all: try (right; left; split; [reflexivity | lia]).
    all: try (left; split; [reflexivity | discriminate]).
    all: try (right; right; split; reflexivity).
  - destruct A as [[] a]; unfold TakesPrecedenceOver; cbn [Type_ Value];
      repeat (case_bool_decide; try congruence); cbn [andb negb];
      rewrite Z.gtb_ltb; apply Z.ltb_irrefl.
Qed.

(** [TakesPrecedenceOverOrEqual] is [TakesPrecedenceOver] or a tie of kind
    and magnitude. *)
Lemma TakesPrecedenceOverOrEqual_alt (A B : Priority) :
  TakesPrecedenceOverOrEqual A B
  = TakesPrecedenceOver A B
    || (bool_decide (Type_ A = Type_ B) && (Value A =? Value B)).
Proof.
  destruct A as [[] a], B as [[] b];
    unfold TakesPrecedenceOverOrEqual, TakesPrecedenceOver; cbn [Type_ Value];
    repeat (case_bool_decide; try congruence); cbn [andb negb orb];
    try reflexivity;
    rewrite Z.geb_leb, Z.gtb_ltb;
    destruct (Z.leb_spec b a), (Z.ltb_spec b a), (Z.eqb_spec a b);
    cbn; try reflexivity; lia.
Qed.

Lemma TakesPrecedenceOverOrEqual_refl (A : Priority) :
  TakesPrecedenceOverOrEqual A A = true.
Proof.
  rewrite TakesPrecedenceOverOrEqual_alt, Z.eqb_refl, bool_decide_eq_true_2
    by reflexivity.
  apply orb_true_r.
Qed.

(** C3. Two priorities of kind none with magnitudes 0 and 5: the tie-inclusive
    comparison answers false, because the same-kind branch compares the
    magnitudes before the none-against-none branch is reached. *)
Theorem TakesPrecedenceOverOrEqual_none_none_lower :
  TakesPrecedenceOverOrEqual (mkPriority PriorityNone 0) (mkPriority PriorityNone 5)
  = false.
Proof. reflexivity. Qed.

(** * Merge strategies *)

(** C8. [ApplyStrategy]: [replace] gives [new]; [append] gives [new] for an
    empty [old] and [old], a line feed, [new] otherwise; [prepend] gives [new]
    for an empty [old] and [new], a line feed, [old] otherwise; any other tag
    gives what [replace] gives. *)
Theorem ApplyStrategy_cases (strategy old new : string) :
  ApplyStrategy "replace" old new = new
  /\ (old = "" -> ApplyStrategy "append" old new = new)
  /\ (old <> "" -> ApplyStrategy "append" old new = old +:+ gostrings.nl +:+ new)
  /\ (old = "" -> ApplyStrategy "prepend" old new = new)
  /\ (old <> "" -> ApplyStrategy "prepend" old new = new +:+ gostrings.nl +:+ old)
  /\ (strategy <> "replace" -> strategy <> "append" -> strategy <> "prepend" ->
      ApplyStrategy strategy old new = ApplyStrategy "replace" old new).
Proof.
  unfold ApplyStrategy, StrategyReplace, StrategyAppend, StrategyPrepend.
  repeat split.
  - intros ->. reflexivity.
  - intros Hold. rewrite (bool_decide_eq_false_2 (old = "")) by exact Hold.
    reflexivity.
  - intros ->. reflexivity.
  - intros Hold. rewrite (bool_decide_eq_false_2 (old = "")) by exact Hold.
    reflexivity.
  - intros H1 H2 H3. rewrite !bool_decide_eq_false_2 by assumption. reflexivity.
Qed.

Lemma ApplyStrategy_cases_witness :
  ApplyStrategy "replace" "old" "new" = "new"
  /\ ApplyStrategy "append" "" "new" = "new"
  /\ ApplyStrategy "append" "old" "new" = "old" +:+ gostrings.nl +:+ "new"
  /\ ApplyStrategy "prepend" "" "new" = "new"
  /\ ApplyStrategy "prepend" "old" "new" = "new" +:+ gostrings.nl +:+ "old"
  /\ ApplyStrategy "invalid" "old" "new" = ApplyStrategy "replace" "old" "new".
Proof.
  destruct (ApplyStrategy_cases "invalid" "old" "new") as (H1 & _ & H3 & _ & H5 & H6).
  destruct (ApplyStrategy_cases "invalid" "" "new") as (_ & H2 & _ & H4 & _).
  split; [exact H1 |].
  split; [apply H2; reflexivity |].
  split; [apply H3; discriminate |].
  split; [apply H4; reflexivity |].
  split; [apply H5; discriminate |].
  apply H6; discriminate.
Defined.

(** * Facts about the string functions *)

Lemma app_nil_l (s : string) : "" +:+ s = s.
Proof. reflexivity. Qed.

Lemma app_cons (c : ascii) (s t : string) : String c s +:+ t = String c (s +:+ t).
Proof. reflexivity. Qed.

Lemma app_assoc (a b c : string) : (a +:+ b) +:+ c = a +:+ b +:+ c.
Proof.
  induction a as [|x a IH]; [reflexivity |].
  rewrite !app_cons, IH. reflexivity.
Qed.

Lemma length_app (a b : string) :
  String.length (a +:+ b) = (String.length a + String.length b)%nat.
Proof.
  induction a as [|x a IH]; [reflexivity |].
  rewrite app_cons. cbn. rewrite IH. reflexivity.
Qed.

Lemma take_app (pre rest : string) :
  gostrings.take (String.length pre) (pre +:+ rest) = pre.
Proof.
  induction pre as [|x pre IH]; [destruct rest; reflexivity |].
  rewrite app_cons. cbn. rewrite IH. reflexivity.
Qed.

Lemma drop_app (pre rest : string) :
  gostrings.drop (String.length pre) (pre +:+ rest) = rest.
Proof.
  induction pre as [|x pre IH]; [destruct rest; reflexivity |].
  rewrite app_cons. cbn. exact IH.
Qed.

Lemma prefix_app (t s : string) :
  String.prefix t s = true <-> exists post, s = t +:+ post.
Proof.
  revert s. induction t as [|a t IH]; intros s.
  - split; [intros _; exists s; reflexivity | intros _; destruct s; reflexivity].
  - destruct s as [|b s]; cbn.
    + split; [discriminate | intros [post Hpost]; discriminate].
    + destruct (ascii_dec a b) as [->|Hab].
      * rewrite IH. split; intros [post Hpost]; exists post.
        -- rewrite app_cons, Hpost. reflexivity.
        -- rewrite app_cons in Hpost. congruence.
      * split; [discriminate |].
        intros [post Hpost]. rewrite app_cons in Hpost. congruence.
Qed.

Lemma occurs_at_0 (t s : string) : occurs_at t s 0 <-> String.prefix t s = true.
Proof.
  rewrite prefix_app. split.
  - intros ([|? ?] & post & -> & Hlen); [| discriminate]. exists post. reflexivity.
  - intros [post ->]. exists "", post. split; reflexivity.
Qed.

Lemma occurs_at_nil (t : string) (i : nat) : occurs_at t "" (S i) -> False.
Proof. intros ([|? ?] & post & Heq & Hlen); discriminate. Qed.

Lemma occurs_at_S (t : string) (c : ascii) (s : string) (i : nat) :
  occurs_at t (String c s) (S i) <-> occurs_at t s i.
Proof.
  split.
  - intros ([|x pre] & post & Heq & Hlen); [discriminate |].
    rewrite app_cons in Heq. exists pre, post. split; [congruence |].
    cbn in Hlen. congruence.
  - intros (pre & post & -> & <-). exists (String c pre), post.
    split; reflexivity.
Qed.

(** [index_nat] finds the first occurrence, and fails only when there is none. *)
Lemma index_nat_Some (s t : string) (i : nat) :
  gostrings.index_nat s t = Some i <-> first_at t s i.
Proof.
  revert i. induction s as [|c s IH]; intros i; cbn [gostrings.index_nat].
  - destruct (String.prefix t "") eqn:Hp.
    + split.
      * intros [= <-]. split; [apply occurs_at_0; exact Hp | intros j Hj; lia].
      * intros [Hocc Hfirst]. destruct i as [|i]; [reflexivity |].
        exfalso. exact (occurs_at_nil _ _ Hocc).
    + split; [discriminate |]. intros [Hocc _]. destruct i as [|i].
      * apply occurs_at_0 in Hocc. congruence.
      * exfalso. exact (occurs_at_nil _ _ Hocc).
  - destruct (String.prefix t (String c s)) eqn:Hp.
    + split.
      * intros [= <-]. split; [apply occurs_at_0; exact Hp | intros j Hj; lia].
      * intros [Hocc Hfirst]. destruct i as [|i]; [reflexivity |].
        exfalso. apply (Hfirst 0%nat); [lia | apply occurs_at_0; exact Hp].
    + destruct i as [|i].
      * split.
        -- destruct (gostrings.index_nat s t); discriminate.
        -- intros [Hocc _]. apply occurs_at_0 in Hocc. congruence.
      * specialize (IH i). split.
        -- intros Hidx.
           destruct (gostrings.index_nat s t) as [k|] eqn:Hk; [| discriminate].
           injection Hidx as [= ->].
           destruct (proj1 IH eq_refl) as [Hocc Hfirst]. split.
           ++ apply occurs_at_S. exact Hocc.
           ++ intros [|j] Hj Hoccj.
              ** apply occurs_at_0 in Hoccj. congruence.
              ** apply occurs_at_S in Hoccj. apply (Hfirst j); [lia | exact Hoccj].
        -- intros [Hocc Hfirst].
           rewrite (proj2 IH); [reflexivity |]. split.
           ++ apply occurs_at_S in Hocc. exact Hocc.
           ++ intros j Hj Hoccj. apply (Hfirst (S j)); [lia |].
              apply occurs_at_S. exact Hoccj.
Qed.

Lemma index_nat_None (s t : string) :
  gostrings.index_nat s t = None <-> ~ occurs t s.
Proof.
  induction s as [|c s IH]; cbn [gostrings.index_nat].
  - destruct (String.prefix t "") eqn:Hp.
    + split; [discriminate |]. intros Hno. exfalso. apply Hno.
      exists 0%nat. apply occurs_at_0. exact Hp.
    + split; [| reflexivity]. intros _ [[|i] Hocc].
      * apply occurs_at_0 in Hocc. congruence.
      * exact (occurs_at_nil _ _ Hocc).
  - destruct (String.prefix t (String c s)) eqn:Hp.
    + split; [discriminate |]. intros Hno. exfalso. apply Hno.
      exists 0%nat. apply occurs_at_0. exact Hp.
    + split.
      * intros Hidx [[|i] Hocc].
        -- apply occurs_at_0 in Hocc. congruence.
        -- destruct (gostrings.index_nat s t); [discriminate |].
           apply IH; [reflexivity |]. exists i. apply occurs_at_S in Hocc. exact Hocc.
      * intros Hno. rewrite (proj2 IH); [reflexivity |].
        intros [i Hocc]. apply Hno. exists (S i). apply occurs_at_S. exact Hocc.
Qed.

Lemma Index_absent (s t : string) : ~ occurs t s -> gostrings.Index s t = -1.
Proof.
  intros Hno. apply index_nat_None in Hno. unfold gostrings.Index.
  rewrite Hno. reflexivity.
Qed.

Lemma Index_first (s t : string) (i : nat) :
  first_at t s i -> gostrings.Index s t = Z.of_nat i.
Proof.
  intros Hi. apply index_nat_Some in Hi. unfold gostrings.Index.
  rewrite Hi. reflexivity.
Qed.

(** [Index] answers either [-1] for an absent substring or the offset of its
    first occurrence. *)
Lemma Index_cases (s t : string) :
  (~ occurs t s /\ gostrings.Index s t = -1)
  \/ (exists i, first_at t s i /\ gostrings.Index s t = Z.of_nat i).
Proof.
  destruct (gostrings.index_nat s t) as [i|] eqn:Hi.
  - right. exists i. apply index_nat_Some in Hi. split; [exact Hi |].
    apply Index_first. exact Hi.
  - left. apply index_nat_None in Hi. split; [exact Hi |].
    apply Index_absent. exact Hi.
Qed.

(** * Placeholder substitution *)

(** A content with one block, both tags at their first occurrence: the block
    and what it encloses give way to the replacement. *)
Lemma replacePlaceholderBlock_cut
    (pre mid post openTag closeTag replacement : string) :
  let content := pre +:+ openTag +:+ mid +:+ closeTag +:+ post in
  first_at openTag content (String.length pre) ->
  first_at closeTag content (String.length (pre +:+ openTag +:+ mid)) ->
  replacePlaceholderBlock content openTag closeTag replacement
  = pre +:+ replacement +:+ post.
Proof.
  intros content Hopen Hclose. unfold replacePlaceholderBlock.
  rewrite (Index_first _ _ _ Hopen), (Index_first _ _ _ Hclose).
  destruct (Z.eqb_spec (Z.of_nat (String.length pre)) (-1)) as [Hneg | _]; [lia |].
  destruct (Z.eqb_spec (Z.of_nat (String.length (pre +:+ openTag +:+ mid))) (-1))
    as [Hneg | _]; [lia |].
  rewrite Nat2Z.id, <- Nat2Z.inj_add, Nat2Z.id, <- length_app.
  unfold content at 1. rewrite take_app.
  replace content with (((pre +:+ openTag +:+ mid) +:+ closeTag) +:+ post)
    by (unfold content; rewrite !app_assoc; reflexivity).
  rewrite drop_app. reflexivity.
Qed.

Lemma only_at_first (t s : string) (i : nat) : only_at t s i -> first_at t s i.
Proof.
  intros [Hat Honly]. split; [exact Hat |].
  intros j Hj Hocc. apply Honly in Hocc. lia.
Qed.

Lemma occurs_at_offsets (t s : string) (k : nat) :
  occurs_at t s k <-> k ∈ offsets t s.
Proof.
  revert k. induction s as [|c s IH]; intros k; cbn [offsets].
  - rewrite List.app_nil_r. destruct k as [|k].
    + rewrite occurs_at_0. destruct (String.prefix t "").
      * rewrite list_elem_of_singleton. tauto.
      * rewrite elem_of_nil. split; [discriminate | tauto].
    + split; [intros Hocc; destruct (occurs_at_nil _ _ Hocc) |].
      destruct (String.prefix t "").
      * intros [=]%list_elem_of_singleton.
      * intros []%elem_of_nil.
  - rewrite elem_of_app, list_elem_of_fmap. destruct k as [|k].
    + rewrite occurs_at_0. split.
      * intros ->. left. apply list_elem_of_singleton. reflexivity.
      * intros [Hin | (k' & [=] & _)].
        destruct (String.prefix t (String c s)); [reflexivity |].
        apply elem_of_nil in Hin. destruct Hin.
    + rewrite occurs_at_S, IH. split.
      * intros Hin. right. exists k. auto.
      * intros [Hin | (k' & [= ->] & Hin)]; [| exact Hin].
        destruct (String.prefix t (String c s));
          [apply list_elem_of_singleton in Hin; discriminate
          | apply elem_of_nil in Hin; destruct Hin].
Qed.

(** A tag whose offsets compute to the single offset [i] occurs there only. *)
Lemma offsets_only_at (t s : string) (i : nat) :
  offsets t s = [i] -> only_at t s i.
Proof.
  intros Hoffsets. split.
  - apply occurs_at_offsets. rewrite Hoffsets. apply list_elem_of_singleton.
    reflexivity.
  - intros k Hk%occurs_at_offsets. rewrite Hoffsets in Hk.
    apply list_elem_of_singleton in Hk. exact Hk.
Qed.

(** [replacePlaceholderBlock] on the contents it provides for. *)
Lemma replacePlaceholderBlock_spec (content openTag closeTag replacement : string) :
  block_replaced openTag closeTag replacement content
    (replacePlaceholderBlock content openTag closeTag replacement).
Proof.
  split.
  - unfold replacePlaceholderBlock.
    destruct (Index_cases content openTag) as [[_ ->] | (i & Hi & ->)];
      [reflexivity |].
    destruct (Z.eqb_spec (Z.of_nat i) (-1)) as [Hneg | _]; [lia |].
    destruct (Index_cases content closeTag) as [[_ ->] | (j & Hj & ->)];
      [reflexivity |].
    intros [Hno | Hno]; exfalso; apply Hno;
      [exists i; apply Hi | exists j; apply Hj].
  - intros pre mid post -> Hopen Hclose.
    apply replacePlaceholderBlock_cut; apply only_at_first; assumption.
Qed.

(** C10. When the opening tag or the closing tag does not occur in the
    content, [replacePlaceholderBlock] returns the content as it is; it
    returns something else only for a content in which both tags occur. *)
Theorem replacePlaceholderBlock_unchanged
    (content openTag closeTag replacement : string) :
  (~ occurs openTag content \/ ~ occurs closeTag content ->
   replacePlaceholderBlock content openTag closeTag replacement = content)
  /\ (replacePlaceholderBlock content openTag closeTag replacement <> content ->
      occurs openTag content /\ occurs closeTag content).
Proof.
  unfold replacePlaceholderBlock.
  destruct (Index_cases content openTag) as [[_ ->] | (i & Hi & ->)].
  { split; [reflexivity | intros Hchanged; contradiction]. }
  destruct (Z.eqb_spec (Z.of_nat i) (-1)) as [Hneg | _]; [lia |].
  destruct (Index_cases content closeTag) as [[_ ->] | (j & Hj & ->)].
  { split; [reflexivity | intros Hchanged; contradiction]. }
  destruct (Z.eqb_spec (Z.of_nat j) (-1)) as [Hneg | _]; [lia |].
  split.
  - intros [Hno | Hno]; exfalso; apply Hno.
    + exists i. apply Hi.
    + exists j. apply Hj.
  - intros _. split; [exists i; apply Hi | exists j; apply Hj].
Qed.

Lemma replacePlaceholderBlock_unchanged_witness :
  (~ occurs "<a>" "keep </a> me" \/ ~ occurs "</a>" "keep </a> me")
  /\ replacePlaceholderBlock "keep </a> me" "<a>" "</a>" "text" = "keep </a> me".
Proof.
  assert (Habsent : ~ occurs "<a>" "keep </a> me" \/ ~ occurs "</a>" "keep </a> me").
  { left. apply index_nat_None. reflexivity. }
  split; [exact Habsent |].
  apply (proj1 (replacePlaceholderBlock_unchanged
                  "keep </a> me" "<a>" "</a>" "text") Habsent).
Defined.

(** * Loops over Go maps *)

Lemma bind_Returns {A B : Type} (a : A) (f : A -> outcome B) :
  Returns a ≫= f = f a.
Proof. reflexivity. Qed.

Lemma gomap_get_Some {V : Type} (g : gmap string V) (k : string) :
  gomap.get (Some g) k = g !! k.
Proof. reflexivity. Qed.

Lemma foldM_cons {A B : Type} (body : B -> A -> outcome B) (b : B) (a : A)
    (l : list A) :
  foldM body b (a :: l) = body b a ≫= fun b' => foldM body b' l.
Proof. reflexivity. Qed.

#[global] Instance sectionsField_ok : field_ok sectionsField.
Proof. split; [reflexivity | reflexivity | intros []; reflexivity]. Qed.

#[global] Instance mergePointsField_ok : field_ok mergePointsField.
Proof. split; [reflexivity | reflexivity | intros []; reflexivity]. Qed.

#[global] Instance mergeTargetsField_ok : field_ok mergeTargetsField.
Proof. split; [reflexivity | reflexivity | intros []; reflexivity]. Qed.

Lemma mergeMap_lookup {V : Type} (prio : V -> Priority) (acc inc : gmap string V)
    (k : string) :
  mergeMap prio acc inc !! k = mergeEntry prio (acc !! k) (inc !! k).
Proof.
  unfold mergeMap. rewrite lookup_merge.
  destruct (acc !! k), (inc !! k); reflexivity.
Qed.

Lemma mergeMap_empty_l {V : Type} (prio : V -> Priority) (inc : gmap string V) :
  mergeMap prio ∅ inc = inc.
Proof.
  apply map_eq. intros k. rewrite mergeMap_lookup, lookup_empty.
  destruct (inc !! k); reflexivity.
Qed.

Section loops.

Context {V : Type} (F : field V) `{!field_ok F}.

(** A merging loop run on a document whose map is allocated does not panic,
    and leaves the map that the same loop builds on the finite map. *)
Lemma foldM_merge (prio : V -> Priority) (l : list (string * V))
    (result : Config.t) (g : gmap string V) :
  view F result = Some g ->
  foldM (fun result '(name, v) =>
           match gomap.get (view F result) name with
           | Some existing =>
               if TakesPrecedenceOverOrEqual (prio v) (prio existing)
               then m ← gomap.set (view F result) name v;
                    Returns (update F m result)
               else Returns result
           | None =>
               m ← gomap.set (view F result) name v;
               Returns (update F m result)
           end) result l
  = Returns (update F (Some (foldl (merge_into prio) g l)) result).
Proof.
  revert result g. induction l as [|[name v] l IH]; intros result g Hview.
  - cbn. rewrite <- Hview, update_view. reflexivity.
  - rewrite foldM_cons. cbv beta iota. cbn [foldl].
    unfold merge_into at 2. cbn [fst snd].
    rewrite Hview, gomap_get_Some. cbn [gomap.set].
    destruct (g !! name) as [existing|] eqn:Hg;
      [destruct (TakesPrecedenceOverOrEqual (prio v) (prio existing)) |];
      rewrite ?bind_Returns; cbv beta.
    + etrans; [apply (IH _ (<[name:=v]> g)), view_update |].
      rewrite update_update. reflexivity.
    + apply IH. exact Hview.
    + etrans; [apply (IH _ (<[name:=v]> g)), view_update |].
      rewrite update_update. reflexivity.
Qed.

(** The same for a loop that stores [f v] under every visited key. *)
Lemma foldM_put {W : Type} (f : W -> V) (l : list (string * W))
    (result : Config.t) (g : gmap string V) :
  view F result = Some g ->
  foldM (fun result '(name, v) =>
           m ← gomap.set (view F result) name (f v);
           Returns (update F m result)) result l
  = Returns (update F (Some (foldl (put_into f) g l)) result).
Proof.
  revert result g. induction l as [|[name v] l IH]; intros result g Hview.
  - cbn. rewrite <- Hview, update_view. reflexivity.
  - rewrite foldM_cons. cbv beta iota. cbn [foldl].
    unfold put_into at 2. cbn [fst snd].
    rewrite Hview. cbn [gomap.set]. rewrite !bind_Returns. cbv beta.
    etrans; [apply (IH _ (<[name:=f v]> g)), view_update |].
    rewrite update_update. reflexivity.
Qed.

End loops.

Lemma lookup_foldl_merge_into {V : Type} (prio : V -> Priority)
    (l : list (string * V)) (g : gmap string V) (k : string) :
  NoDup l.*1 ->
  foldl (merge_into prio) g l !! k
  = mergeEntry prio (g !! k) ((list_to_map l : gmap string V) !! k).
Proof.
  revert g. induction l as [|[name v] l IH]; intros g Hnd.
  - cbn. rewrite lookup_empty. destruct (g !! k); reflexivity.
  - rewrite fmap_cons in Hnd. apply NoDup_cons in Hnd as [Hname Hnd].
    cbn [foldl]. rewrite (IH _ Hnd). rewrite list_to_map_cons.
    assert (Hl : (list_to_map l : gmap string V) !! name = None).
    { apply not_elem_of_list_to_map_1. exact Hname. }
    unfold merge_into. cbn [fst snd].
    destruct (decide (name = k)) as [<- | Hne].
    + rewrite lookup_insert_eq, Hl.
      destruct (g !! name) as [existing|] eqn:Hg; cbn.
      * destruct (TakesPrecedenceOverOrEqual (prio v) (prio existing)).
        -- rewrite lookup_insert_eq. reflexivity.
        -- rewrite Hg. reflexivity.
      * rewrite lookup_insert_eq. reflexivity.
    + rewrite (lookup_insert_ne _ name k) by exact Hne.
      destruct (g !! name) as [existing|] eqn:Hg.
      * destruct (TakesPrecedenceOverOrEqual (prio v) (prio existing));
          [rewrite lookup_insert_ne by exact Hne |]; reflexivity.
      * rewrite lookup_insert_ne by exact Hne. reflexivity.
Qed.

Lemma lookup_foldl_put_into {V W : Type} (f : V -> W)
    (l : list (string * V)) (g : gmap string W) (k : string) :
  NoDup l.*1 ->
  foldl (put_into f) g l !! k
  = match (list_to_map l : gmap string V) !! k with
    | Some v => Some (f v)
    | None => g !! k
    end.
Proof.
  revert g. induction l as [|[name v] l IH]; intros g Hnd.
  - cbn. rewrite lookup_empty. reflexivity.
  - rewrite fmap_cons in Hnd. apply NoDup_cons in Hnd as [Hname Hnd].
    cbn [foldl]. rewrite (IH _ Hnd). rewrite list_to_map_cons.
    assert (Hl : (list_to_map l : gmap string V) !! name = None).
    { apply not_elem_of_list_to_map_1. exact Hname. }
    unfold put_into. cbn [fst snd].
    destruct (decide (name = k)) as [<- | Hne].
    + rewrite lookup_insert_eq, Hl, lookup_insert_eq. reflexivity.
    + rewrite !lookup_insert_ne by exact Hne. reflexivity.
Qed.

(** * Metadata merging *)

Lemma mergeDescription_frame (inc md : Metadata.t) :
  Metadata.Priority (mergeDescription inc md) = Metadata.Priority md
  /\ Metadata.Title (mergeDescription inc md) = Metadata.Title md.
Proof.
  unfold mergeDescription.
  repeat match goal with |- context [if ?b then _ else _] => destruct b end;
    split; reflexivity.
Qed.

Lemma mergeVersion_frame (inc md : Metadata.t) :
  Metadata.Priority (mergeVersion inc md) = Metadata.Priority md
  /\ Metadata.Title (mergeVersion inc md) = Metadata.Title md.
Proof.
  unfold mergeVersion.
  repeat match goal with |- context [if ?b then _ else _] => destruct b end;
    split; reflexivity.
Qed.

Lemma mergeLanguage_frame (inc md : Metadata.t) :
  Metadata.Priority (mergeLanguage inc md) = Metadata.Priority md
  /\ Metadata.Title (mergeLanguage inc md) = Metadata.Title md.
Proof.
  unfold mergeLanguage.
  repeat match goal with |- context [if ?b then _ else _] => destruct b end;
    split; reflexivity.
Qed.

Lemma mergeExtends_frame (inc md : Metadata.t) :
  Metadata.Priority (mergeExtends inc md) = Metadata.Priority md
  /\ Metadata.Title (mergeExtends inc md) = Metadata.Title md.
Proof.
  unfold mergeExtends.
  repeat match goal with |- context [if ?b then _ else _] => destruct b end;
    split; reflexivity.
Qed.

Lemma mergeTitle_cases (inc md : Metadata.t) :
  mergeTitle inc md
  = if titleReplaced inc md
    then Metadata.set_Priority (Metadata.Priority inc)
           (Metadata.set_Title (Metadata.Title inc) md)
    else md.
Proof.
  unfold mergeTitle, titleReplaced.
  destruct (_ || _), (negb _); reflexivity.
Qed.

(** The priority and the title of the accumulator after [mergeMetadata] are
    those left by its title block. *)
Lemma mergeMetadata_title_block (result incoming : Config.t) :
  let acc' := Config.Metadata (mergeMetadata result incoming) in
  let titled := mergeTitle (Config.Metadata incoming) (Config.Metadata result) in
  Metadata.Priority acc' = Metadata.Priority titled
  /\ Metadata.Title acc' = Metadata.Title titled.
Proof.
  cbn zeta. unfold mergeMetadata. cbn [Config.Metadata Config.set_Metadata].
  set (inc := Config.Metadata incoming).
  destruct (mergeExtends_frame inc
              (mergeLanguage inc (mergeVersion inc (mergeDescription inc
                 (mergeTitle inc (Config.Metadata result)))))) as [-> ->].
  destruct (mergeLanguage_frame inc
              (mergeVersion inc (mergeDescription inc
                 (mergeTitle inc (Config.Metadata result))))) as [-> ->].
  destruct (mergeVersion_frame inc
              (mergeDescription inc
                 (mergeTitle inc (Config.Metadata result)))) as [-> ->].
  destruct (mergeDescription_frame inc
              (mergeTitle inc (Config.Metadata result))) as [-> ->].
  split; reflexivity.
Qed.

(** C7 (amended). In one step of the standard metadata merge, the
    accumulator's priority (and title) become the incoming document's exactly
    when the title block assigns the title, and stay as they were otherwise;
    the description, version, language and extends blocks leave the priority
    alone. Hence the priority equals the incoming one after the step exactly
    when the title was replaced or the two priorities were equal before; for
    an incoming document with a non-empty title, exactly when the title was
    replaced. *)
Theorem mergeMetadata_priority (result incoming : Config.t) :
  let inc := Config.Metadata incoming in
  let acc := Config.Metadata result in
  let acc' := Config.Metadata (mergeMetadata result incoming) in
  (titleReplaced inc acc = true ->
   Metadata.Priority acc' = Metadata.Priority inc
   /\ Metadata.Title acc' = Metadata.Title inc)
  /\ (titleReplaced inc acc = false ->
      Metadata.Priority acc' = Metadata.Priority acc
      /\ Metadata.Title acc' = Metadata.Title acc)
  /\ (forall md : Metadata.t,
        Metadata.Priority (mergeDescription inc md) = Metadata.Priority md
        /\ Metadata.Priority (mergeVersion inc md) = Metadata.Priority md
        /\ Metadata.Priority (mergeLanguage inc md) = Metadata.Priority md
        /\ Metadata.Priority (mergeExtends inc md) = Metadata.Priority md)
  /\ (Metadata.Priority acc' = Metadata.Priority inc <->
      titleReplaced inc acc = true
      \/ Metadata.Priority acc = Metadata.Priority inc)
  /\ (Metadata.Title inc <> "" ->
      (Metadata.Priority acc' = Metadata.Priority inc <->
       titleReplaced inc acc = true)).
Proof.
  cbn zeta.
  destruct (mergeMetadata_title_block result incoming) as [HP HT].
  cbn zeta in HP, HT. rewrite HP, HT, mergeTitle_cases.
  split; [| split; [| split; [| split]]].
  - intros ->. split; reflexivity.
  - intros ->. split; reflexivity.
  - intros md. repeat split.
    + apply mergeDescription_frame.
    + apply mergeVersion_frame.
    + apply mergeLanguage_frame.
    + apply mergeExtends_frame.
  - destruct (titleReplaced _ _); cbn.
    + split; [left; reflexivity | reflexivity].
    + split; [right; assumption | intros [? | ?]; [discriminate | assumption]].
  - intros Htitle.
    destruct (titleReplaced _ _) eqn:Hreplaced; cbn; [split; reflexivity |].
    split; [| discriminate]. intros Hsame. exfalso.
    unfold titleReplaced in Hreplaced.
    rewrite <- Hsame, TakesPrecedenceOverOrEqual_refl, orb_true_r in Hreplaced.
    rewrite bool_decide_eq_false_2 in Hreplaced by exact Htitle.
    discriminate.
Qed.

Lemma mergeMetadata_priority_witness :
  (* the override document replaces the title of the base document *)
  (titleReplaced (Config.Metadata (deref run.overrideTitled))
     (Config.Metadata (deref run.baseTitled)) = true
   /\ Metadata.Priority
        (Config.Metadata
           (mergeMetadata (deref run.baseTitled) (deref run.overrideTitled)))
      = NewExplicitPriority 10)
  (* the base document does not replace the title of the override document *)
  /\ (titleReplaced (Config.Metadata (deref run.baseTitled))
        (Config.Metadata (deref run.overrideTitled)) = false
      /\ Metadata.Priority
           (Config.Metadata
              (mergeMetadata (deref run.overrideTitled) (deref run.baseTitled)))
         = NewExplicitPriority 10).
Proof.
  split; (split; [reflexivity |]).
  - apply (proj1 (mergeMetadata_priority
                    (deref run.baseTitled) (deref run.overrideTitled))).
    reflexivity.
  - apply (proj1 (proj2 (mergeMetadata_priority
                           (deref run.overrideTitled) (deref run.baseTitled)))).
    reflexivity.
Defined.

(** C7, as stated, fails when an untitled document with the zero priority
    meets the fresh accumulator: the title is not replaced, and the two
    priorities are equal after the step all the same. *)
Lemma mergeMetadata_priority_coincidence :
  titleReplaced (Config.Metadata (deref run.firstUntitled))
    (Config.Metadata newResult) = false
  /\ Metadata.Priority
       (Config.Metadata (mergeMetadata newResult (deref run.firstUntitled)))
     = Metadata.Priority (Config.Metadata (deref run.firstUntitled)).
Proof. split; reflexivity. Qed.

(** * The merge engine *)

Lemma existsb_perm {A : Type} (f : A -> bool) (l1 l2 : list A) :
  l1 ≡ₚ l2 -> existsb f l1 = existsb f l2.
Proof.
  induction 1 as [| x l1 l2 _ IH | x y l | l1 l2 l3 _ IH1 _ IH2]; cbn.
  - reflexivity.
  - rewrite IH. reflexivity.
  - destruct (f x), (f y); reflexivity.
  - congruence.
Qed.

Lemma is_nil_false {V : Type} (m : gomap.t V) :
  gomap.is_nil m = false <-> exists g, m = Some g.
Proof.
  destruct m as [g|]; cbn; split; try discriminate; eauto.
  intros [g Hg]. discriminate.
Qed.

(** [overrideTitle] writes nothing but the title. *)
Lemma overrideTitle_frame (baseConfig : ConfigPtr) (result : Config.t)
    (cfg : ConfigPtr) :
  exists title,
    overrideTitle baseConfig result cfg
    = Config.set_Metadata
        (Metadata.set_Title title (Config.Metadata result)) result.
Proof.
  unfold overrideTitle.
  repeat match goal with
         | |- context [if ?b then _ else _] => destruct b
         end;
    try (exists (Metadata.Title (Config.Metadata result));
         destruct result as [[] ? ? ? ? ?]; reflexivity).
  eexists. reflexivity.
Qed.

Lemma foldl_overrideTitle_frame (baseConfig : ConfigPtr)
    (configs : list ConfigPtr) (result : Config.t) :
  exists title,
    foldl (overrideTitle baseConfig) result configs
    = Config.set_Metadata
        (Metadata.set_Title title (Config.Metadata result)) result.
Proof.
  revert result. induction configs as [|cfg configs IH]; intros result.
  - exists (Metadata.Title (Config.Metadata result)).
    destruct result as [[] ? ? ? ? ?]; reflexivity.
  - cbn [foldl]. destruct (overrideTitle_frame baseConfig result cfg) as [t ->].
    destruct (IH (Config.set_Metadata
                    (Metadata.set_Title t (Config.Metadata result)) result))
      as [t' ->].
    exists t'. reflexivity.
Qed.

(** In both branches of [applyPlaceholderReplacements] the text put in place
    of a block is the collected one, empty when none was collected. *)
Lemma fillPlaceholders_alt (replacements : gmap string string) (content : string) :
  fillPlaceholders replacements content
  = replacePlaceholderBlock
      (replacePlaceholderBlock content
         "<language-specific-test-commands-here>"
         "</language-specific-test-commands-here>"
         (at_key replacements "test-commands"))
      "<language-specific-documentation-standards>"
      "</language-specific-documentation-standards>"
      (at_key replacements "documentation-standards").
Proof.
  unfold fillPlaceholders.
  destruct (bool_decide_reflect (at_key replacements "test-commands" = ""))
    as [-> | _];
    destruct (bool_decide_reflect
                (at_key replacements "documentation-standards" = ""))
    as [-> | _]; reflexivity.
Qed.

(** Reduce the projections and setters of [Metadata] and the tests of the
    empty string against itself. *)
Ltac metadata_simpl :=
  cbn [negb orb Metadata.Title Metadata.Description Metadata.Version
       Metadata.Language Metadata.Extends Metadata.Priority Metadata.set_Title
       Metadata.set_Description Metadata.set_Version Metadata.set_Language
       Metadata.set_Extends Metadata.set_Priority Metadata.zero
       Config.Metadata Config.set_Metadata];
  rewrite ?(bool_decide_eq_true_2 ("" = "")) by reflexivity;
  cbn [negb orb].

(** Split on whether the field [x] of the incoming document is empty. *)
Ltac field_case x :=
  destruct (bool_decide_reflect (x = "")) as [-> | _]; metadata_simpl.

(** The metadata the fresh accumulator takes from a first document. *)
Lemma mergeMetadata_newResult (d : Config.t) :
  Config.Metadata (mergeMetadata newResult d)
  = if bool_decide (Metadata.Title (Config.Metadata d) = "")
    then Metadata.set_Priority zeroPriority (Config.Metadata d)
    else Config.Metadata d.
Proof.
  destruct d as [[title description version language extends priority] ? ? ? ? ?].
  unfold mergeMetadata, mergeTitle, mergeDescription, mergeVersion,
    mergeLanguage, mergeExtends, newResult.
  metadata_simpl.
  field_case title; field_case description; field_case version;
    field_case language; field_case extends; reflexivity.
Qed.

Section engine_facts.

Variable TrimSpace : string -> string.
Variable range : forall V : Type, gmap string V -> list (string * V).

(** Whatever the order of a [range] loop, it visits every entry of the map
    once. *)
Hypothesis range_perm :
  forall (V : Type) (m : gmap string V), range V m ≡ₚ map_to_list m.

Lemma range_NoDup {V : Type} (m : gmap string V) : NoDup (range V m).*1.
Proof. rewrite range_perm. apply NoDup_fst_map_to_list. Qed.

Lemma range_to_map {V : Type} (m : gmap string V) :
  list_to_map (range V m) = m.
Proof.
  rewrite <- (list_to_map_to_list m) at 2.
  apply list_to_map_proper; [apply range_NoDup | apply range_perm].
Qed.

Lemma merge_range {V : Type} (prio : V -> Priority) (g m : gmap string V) :
  foldl (merge_into prio) g (range V m) = mergeMap prio g m.
Proof.
  apply map_eq. intros k.
  rewrite lookup_foldl_merge_into by apply range_NoDup.
  rewrite range_to_map, mergeMap_lookup. reflexivity.
Qed.

Lemma put_range_lookup {V W : Type} (f : V -> W) (g : gmap string W)
    (m : gmap string V) (k : string) :
  foldl (put_into f) g (range V m) !! k
  = match m !! k with Some v => Some (f v) | None => g !! k end.
Proof.
  rewrite lookup_foldl_put_into by apply range_NoDup.
  rewrite range_to_map. reflexivity.
Qed.

Lemma put_range_empty {V : Type} (m : gmap string V) :
  foldl (put_into id) ∅ (range V m) = m.
Proof.
  apply map_eq. intros k. rewrite put_range_lookup, lookup_empty.
  destruct (m !! k); reflexivity.
Qed.

Lemma put_range_self {V : Type} (f : V -> V) (m : gmap string V) :
  foldl (put_into f) m (range V m) = f <$> m.
Proof.
  apply map_eq. intros k. rewrite put_range_lookup, lookup_fmap.
  destruct (m !! k); reflexivity.
Qed.

(** The three standard merges, run on an accumulator with allocated maps. *)
Lemma mergeSections_spec (result incoming : Config.t) (g : gmap string Section.t) :
  Config.Sections result = Some g ->
  mergeSections range result incoming
  = Returns (Config.set_Sections
               (Some (mergeMap Section.Priority g
                        (gomap.entries (Config.Sections incoming)))) result).
Proof.
  intros Hg. unfold mergeSections. rewrite <- merge_range.
  exact (foldM_merge sectionsField Section.Priority _ result g Hg).
Qed.

Lemma mergeMergePoints_spec (result incoming : Config.t)
    (g : gmap string MergePoint.t) :
  Config.MergePoints result = Some g ->
  mergeMergePoints range result incoming
  = Returns (Config.set_MergePoints
               (Some (mergeMap MergePoint.Priority g
                        (gomap.entries (Config.MergePoints incoming)))) result).
Proof.
  intros Hg. unfold mergeMergePoints. rewrite <- merge_range.
  exact (foldM_merge mergePointsField MergePoint.Priority _ result g Hg).
Qed.

Lemma mergeMergeTargets_spec (result incoming : Config.t)
    (g : gmap string MergeTarget.t) :
  Config.MergeTargets result = Some g ->
  mergeMergeTargets range result incoming
  = Returns (Config.set_MergeTargets
               (Some (mergeMap MergeTarget.Priority g
                        (gomap.entries (Config.MergeTargets incoming)))) result).
Proof.
  intros Hg. unfold mergeMergeTargets. rewrite <- merge_range.
  exact (foldM_merge mergeTargetsField MergeTarget.Priority _ result g Hg).
Qed.

(** One round of the standard loop. *)
Lemma mergeOne_spec (md : Metadata.t) (gs : gmap string Section.t)
    (gp : gmap string MergePoint.t) (gt : gmap string MergeTarget.t)
    (file : string) (format : FileFormat) (cfg : ConfigPtr) :
  let result := Config.mk md (Some gs) (Some gp) (Some gt) file format in
  mergeOne range result cfg
  = Returns
      (Config.mk
         (Config.Metadata (mergeMetadata result (deref cfg)))
         (Some (mergeMap Section.Priority gs
                  (gomap.entries (Config.Sections (deref cfg)))))
         (Some (mergeMap MergePoint.Priority gp
                  (gomap.entries (Config.MergePoints (deref cfg)))))
         (Some (mergeMap MergeTarget.Priority gt
                  (gomap.entries (Config.MergeTargets (deref cfg)))))
         file format).
Proof.
  intros result. unfold mergeOne.
  rewrite (mergeSections_spec _ _ gs) by reflexivity. rewrite bind_Returns.
  rewrite (mergeMergePoints_spec _ _ gp) by reflexivity. rewrite bind_Returns.
  rewrite (mergeMergeTargets_spec _ _ gt) by reflexivity.
  reflexivity.
Qed.

(** The standard loop never panics and keeps the three maps allocated. *)
Lemma foldM_mergeOne_returns (configs : list ConfigPtr) (result : Config.t) :
  maps_non_nil result ->
  exists merged,
    foldM (mergeOne range) result configs = Returns merged
    /\ maps_non_nil merged.
Proof.
  revert result. induction configs as [|cfg configs IH]; intros result Hres.
  - exists result. split; [reflexivity | exact Hres].
  - destruct Hres as (Hs & Hp & Ht).
    apply is_nil_false in Hs as [gs Hs], Hp as [gp Hp], Ht as [gt Ht].
    destruct result as [md s p t file format]. cbn in Hs, Hp, Ht. subst.
    rewrite foldM_cons, mergeOne_spec, bind_Returns.
    apply IH. repeat split.
Qed.

(** Run the copying loop at the head of the goal. *)
Ltac step_put F f :=
  match goal with
  | |- context [foldM _ ?r ?l ≫= _] =>
      etrans;
      [ apply (f_equal (fun x => x ≫= _)); exact (foldM_put F f l r _ eq_refl) |];
      rewrite bind_Returns
  end.

(** Template mode, started from the fresh accumulator. *)
Lemma mergeWithTemplate_newResult (baseConfig : ConfigPtr)
    (configs : list ConfigPtr) :
  mergeWithTemplate TrimSpace range newResult baseConfig configs
  = Returns
      (foldl (overrideTitle baseConfig)
         (Config.mk
            (Config.Metadata (deref baseConfig))
            (Some (filled (collectReplacements TrimSpace range configs)
                     <$> gomap.entries (Config.Sections (deref baseConfig))))
            (Some (gomap.entries (Config.MergePoints (deref baseConfig))))
            (Some (gomap.entries (Config.MergeTargets (deref baseConfig))))
            "" 0)
         configs).
Proof.
  unfold mergeWithTemplate, newResult.
  step_put sectionsField (@id Section.t). rewrite put_range_empty.
  step_put mergePointsField (@id MergePoint.t). rewrite put_range_empty.
  step_put mergeTargetsField (@id MergeTarget.t). rewrite put_range_empty.
  unfold applyPlaceholderReplacements.
  cbn [update view sectionsField mergePointsField mergeTargetsField
       Config.Sections Config.set_Sections Config.set_MergePoints
       Config.set_MergeTargets Config.set_Metadata Config.Metadata
       Config.MergePoints Config.MergeTargets Config.SourceFile
       Config.SourceFormat gomap.make gomap.entries default from_option id].
  match goal with
  | |- context [foldM _ ?r ?l ≫= _] =>
      etrans;
      [ apply (f_equal (fun x => x ≫= _));
        exact (foldM_put sectionsField
                 (filled (collectReplacements TrimSpace range configs))
                 l r _ eq_refl) |]
  end.
  rewrite bind_Returns, put_range_self. reflexivity.
Qed.

(** [findBaseTemplate] returns the first document that has placeholders. *)
Lemma findBaseTemplate_find (configs : list ConfigPtr) :
  findBaseTemplate range configs
  = List.find (fun cfg => hasPlaceholders (deref cfg)) configs.
Proof.
  induction configs as [|cfg configs IH]; [reflexivity |].
  cbn [findBaseTemplate List.find]. unfold hasPlaceholders at 1.
  rewrite (existsb_perm _ _ _ (range_perm _ _)), IH. reflexivity.
Qed.

Lemma MergeAll_standard (configs : list ConfigPtr) :
  configs <> [] ->
  Forall (fun cfg => hasPlaceholders (deref cfg) = false) configs ->
  MergeAll TrimSpace range configs = foldM (mergeOne range) newResult configs.
Proof.
  intros Hne Hall. unfold MergeAll.
  destruct configs as [|cfg configs]; [congruence |]. cbn [length Nat.eqb].
  rewrite findBaseTemplate_find.
  destruct (List.find _ (cfg :: configs)) as [base|] eqn:Hfind; [| reflexivity].
  apply find_some in Hfind as [Hin Hbase].
  rewrite Forall_forall in Hall. apply list_elem_of_In in Hin.
  rewrite (Hall _ Hin) in Hbase. discriminate.
Qed.

Lemma MergeAll_template (configs : list ConfigPtr) (baseConfig : ConfigPtr) :
  List.find (fun cfg => hasPlaceholders (deref cfg)) configs = Some baseConfig ->
  MergeAll TrimSpace range configs
  = mergeWithTemplate TrimSpace range newResult baseConfig configs.
Proof.
  intros Hfind. unfold MergeAll.
  destruct configs as [|cfg configs]; [discriminate |]. cbn [length Nat.eqb].
  rewrite findBaseTemplate_find, Hfind. reflexivity.
Qed.

(** A merge of at least one document returns, with allocated maps. *)
Lemma MergeAll_returns (configs : list ConfigPtr) :
  configs <> [] ->
  exists merged,
    MergeAll TrimSpace range configs = Returns merged /\ maps_non_nil merged.
Proof.
  intros Hne.
  destruct (List.find (fun cfg => hasPlaceholders (deref cfg)) configs)
    as [base|] eqn:Hfind.
  - rewrite (MergeAll_template _ _ Hfind), mergeWithTemplate_newResult.
    eexists. split; [reflexivity |].
    match goal with
    | |- maps_non_nil (foldl _ ?r _) =>
        destruct (foldl_overrideTitle_frame base configs r) as [t ->]
    end.
    repeat split.
  - rewrite MergeAll_standard; [| exact Hne |].
    + apply foldM_mergeOne_returns. repeat split.
    + apply Forall_forall. intros cfg Hin. apply list_elem_of_In in Hin.
      pose proof (find_none _ _ Hfind cfg Hin) as Hcfg. exact Hcfg.
Qed.

(** C6. Merging no document fails with the error of an empty merge set;
    merging at least one document returns a merged document. *)
Theorem MergeAll_empty_or_document (configs : list ConfigPtr) :
  (configs = [] ->
   MergeAll TrimSpace range configs = Fails "no configurations to merge")
  /\ (configs <> [] ->
      exists merged, MergeAll TrimSpace range configs = Returns merged).
Proof.
  split.
  - intros ->. reflexivity.
  - intros Hne. destruct (MergeAll_returns configs Hne) as (merged & Hm & _).
    exists merged. exact Hm.
Qed.

Variable toml_Unmarshal : string -> Config.t -> outcome Config.t.
Variable yaml_Unmarshal : string -> Config.t -> outcome Config.t.
Variable yaml_Unmarshal_map : string -> outcome (list (string * any)).
Variable ToLower : string -> string.

(** C9. A document returned by [ParseConfig], for any of the three syntaxes,
    has its three maps allocated, and so has a document returned by
    [MergeAll]. *)
Theorem maps_allocated :
  (forall (data : string) (format : FileFormat) (cfg : Config.t),
     ParseConfig toml_Unmarshal yaml_Unmarshal yaml_Unmarshal_map
       TrimSpace ToLower data format = Returns cfg ->
     maps_non_nil cfg)
  /\ (forall (configs : list ConfigPtr) (merged : Config.t),
        MergeAll TrimSpace range configs = Returns merged ->
        maps_non_nil merged).
Proof.
  split.
  - intros data format cfg. unfold ParseConfig.
    match goal with
    | |- (?decoded ≫= _) = _ -> _ => destruct decoded as [parsed | err |]
    end; [| discriminate | discriminate].
    rewrite bind_Returns. intros [= <-].
    destruct parsed as [md [gs|] [gp|] [gt|] file fmt]; repeat split.
  - intros configs merged Hmerged.
    destruct configs as [|cfg configs]; [discriminate |].
    destruct (MergeAll_returns (cfg :: configs)) as (merged' & Hm & Hmaps);
      [discriminate |].
    rewrite Hm in Hmerged. injection Hmerged as [= <-]. exact Hmaps.
Qed.

(** C2 (amended). In standard mode, that is when no section of X or of Y
    holds both placeholder prefixes: if X has section "s" at priority
    explicit(5) and Y has section "s" at priority relative(1000), merging
    X then Y and merging Y then X both return a document whose section "s" is
    X's. *)
Theorem explicit_section_wins (X Y : ConfigPtr) (sx sy : Section.t) :
  gomap.get (Config.Sections (deref X)) "s" = Some sx ->
  gomap.get (Config.Sections (deref Y)) "s" = Some sy ->
  Section.Priority sx = NewExplicitPriority 5 ->
  Section.Priority sy = NewRelativePriority 1000 ->
  hasPlaceholders (deref X) = false ->
  hasPlaceholders (deref Y) = false ->
  exists mergedXY mergedYX,
    MergeAll TrimSpace range [X; Y] = Returns mergedXY
    /\ MergeAll TrimSpace range [Y; X] = Returns mergedYX
    /\ gomap.get (Config.Sections mergedXY) "s" = Some sx
    /\ gomap.get (Config.Sections mergedYX) "s" = Some sx
    /\ Section.Content <$> gomap.get (Config.Sections mergedXY) "s"
       = Section.Content <$> gomap.get (Config.Sections (deref X)) "s"
    /\ Section.Content <$> gomap.get (Config.Sections mergedYX) "s"
       = Section.Content <$> gomap.get (Config.Sections (deref X)) "s".
Proof.
  intros HX HY Hsx Hsy HpX HpY. unfold gomap.get in HX, HY.
  rewrite !MergeAll_standard by (discriminate || (repeat constructor; assumption)).
  unfold newResult, gomap.make.
  rewrite !foldM_cons, !mergeOne_spec, !bind_Returns.
  rewrite !foldM_cons, !mergeOne_spec, !bind_Returns.
  do 2 eexists. split; [reflexivity |]. split; [reflexivity |].
  cbn [Config.Sections]. rewrite !gomap_get_Some, !mergeMap_lookup, !lookup_empty.
  unfold gomap.get. rewrite HX, HY. cbn [mergeEntry]. rewrite Hsx, Hsy.
  repeat split.
Qed.

(** C4 (amended). In template mode every section of the result is the base
    document's section of that name, whose content went through two
    substitutions, for the test commands and then for the documentation
    standards. In a substitution, a content that lacks the opening or the
    closing tag is not changed; a content that holds each tag once, the
    opening tag before the closing one, has the block from the opening tag
    through the closing tag, tags included, give way to the collected text
    (the empty text when none was collected). *)
Theorem template_sections_filled (configs : list ConfigPtr) (baseConfig : ConfigPtr) :
  findBaseTemplate range configs = Some baseConfig ->
  let replacements := collectReplacements TrimSpace range configs in
  exists (merged : Config.t) (sections : gmap string Section.t),
    MergeAll TrimSpace range configs = Returns merged
    /\ Config.Sections merged = Some sections
    /\ forall name : string,
         match gomap.get (Config.Sections (deref baseConfig)) name with
         | None => sections !! name = None
         | Some section =>
             exists tested documented : string,
               block_replaced
                 "<language-specific-test-commands-here>"
                 "</language-specific-test-commands-here>"
                 (at_key replacements "test-commands")
                 (Section.Content section) tested
               /\ block_replaced
                    "<language-specific-documentation-standards>"
                    "</language-specific-documentation-standards>"
                    (at_key replacements "documentation-standards")
                    tested documented
               /\ sections !! name = Some (Section.set_Content documented section)
         end.
Proof.
  intros Hfind replacements. rewrite findBaseTemplate_find in Hfind.
  rewrite (MergeAll_template _ _ Hfind), mergeWithTemplate_newResult.
  match goal with
  | |- context [foldl (overrideTitle baseConfig) ?r configs] =>
      destruct (foldl_overrideTitle_frame baseConfig configs r) as [t ->]
  end.
  do 2 eexists. split; [reflexivity |]. split; [reflexivity |].
  intros name. rewrite lookup_fmap. unfold gomap.get.
  destruct (gomap.entries (Config.Sections (deref baseConfig)) !! name)
    as [section|]; [| reflexivity].
  cbn [fmap option_fmap option_map]. unfold filled.
  fold replacements. rewrite fillPlaceholders_alt.
  eexists _, _. split; [apply replacePlaceholderBlock_spec |].
  split; [apply replacePlaceholderBlock_spec | reflexivity].
Qed.

(** C5 (amended). Merging the single document [d] returns a document whose
    merge points and merge targets are those of [d] (a nil map read as empty)
    and whose title, description, version, language and extends are those of
    [d]. When no section of [d] holds both placeholder prefixes, its sections
    are those of [d] and its metadata priority is that of [d] if the title of
    [d] is not empty, the zero priority otherwise. When some section does,
    its metadata priority is that of [d] and its sections are those of [d]
    with the placeholder blocks substituted. *)
Theorem MergeAll_single (d : ConfigPtr) :
  exists merged : Config.t,
    MergeAll TrimSpace range [d] = Returns merged
    /\ Config.MergePoints merged
       = Some (gomap.entries (Config.MergePoints (deref d)))
    /\ Config.MergeTargets merged
       = Some (gomap.entries (Config.MergeTargets (deref d)))
    /\ Metadata.Title (Config.Metadata merged)
       = Metadata.Title (Config.Metadata (deref d))
    /\ Metadata.Description (Config.Metadata merged)
       = Metadata.Description (Config.Metadata (deref d))
    /\ Metadata.Version (Config.Metadata merged)
       = Metadata.Version (Config.Metadata (deref d))
    /\ Metadata.Language (Config.Metadata merged)
       = Metadata.Language (Config.Metadata (deref d))
    /\ Metadata.Extends (Config.Metadata merged)
       = Metadata.Extends (Config.Metadata (deref d))
    /\ (hasPlaceholders (deref d) = false ->
        Config.Sections merged
        = Some (gomap.entries (Config.Sections (deref d)))
        /\ Metadata.Priority (Config.Metadata merged)
           = if bool_decide (Metadata.Title (Config.Metadata (deref d)) = "")
             then zeroPriority
             else Metadata.Priority (Config.Metadata (deref d)))
    /\ (hasPlaceholders (deref d) = true ->
        Config.Sections merged
        = Some (filled (collectReplacements TrimSpace range [d])
                  <$> gomap.entries (Config.Sections (deref d)))
        /\ Metadata.Priority (Config.Metadata merged)
           = Metadata.Priority (Config.Metadata (deref d))).
Proof.
  destruct (hasPlaceholders (deref d)) eqn:Hd.
  - rewrite (MergeAll_template [d] d) by (cbn [List.find]; rewrite Hd; reflexivity).
    rewrite mergeWithTemplate_newResult. cbn [foldl]. unfold overrideTitle.
    rewrite Nat.eqb_refl. cbn [negb].
    eexists. split; [reflexivity |].
    cbn [Config.MergePoints Config.MergeTargets Config.Metadata Config.Sections].
    do 7 (split; [reflexivity |]).
    split; [discriminate |]. intros _. split; reflexivity.
  - rewrite MergeAll_standard by (discriminate || (repeat constructor; assumption)).
    unfold newResult at 1, gomap.make.
    rewrite foldM_cons, mergeOne_spec, bind_Returns. cbn [foldM].
    eexists. split; [reflexivity |].
    cbn [Config.MergePoints Config.MergeTargets Config.Metadata Config.Sections].
    rewrite !mergeMap_empty_l.
    change (Config.mk Metadata.zero (Some ∅) (Some ∅) (Some ∅) "" 0)
      with newResult.
    rewrite mergeMetadata_newResult.
    do 2 (split; [reflexivity |]).
    do 5 (split; [destruct (bool_decide _); reflexivity |]).
    split; [| discriminate]. intros _.
    split; [reflexivity | destruct (bool_decide _); reflexivity].
Qed.

End engine_facts.

(** * The theorems on concrete documents *)

Lemma run_range_perm (V : Type) (m : gmap string V) :
  run.range V m ≡ₚ map_to_list m.
Proof. reflexivity. Qed.

Lemma MergeAll_empty_or_document_witness :
  run.MergeAll [] = Fails "no configurations to merge"
  /\ exists merged, run.MergeAll [run.firstUntitled; run.relativeDoc] = Returns merged.
Proof.
  split.
  - apply (MergeAll_empty_or_document run.TrimSpace run.range run_range_perm []).
    reflexivity.
  - apply (MergeAll_empty_or_document run.TrimSpace run.range run_range_perm
             [run.firstUntitled; run.relativeDoc]).
    discriminate.
Defined.

Lemma maps_allocated_witness :
  (exists cfg,
     run.ParseConfig "# File 1" FormatMarkdown = Returns cfg /\ maps_non_nil cfg)
  /\ (exists merged,
        run.MergeAll [run.baseTitled; run.overrideTitled] = Returns merged
        /\ maps_non_nil merged).
Proof.
  pose proof (maps_allocated run.TrimSpace run.range run_range_perm
                run.no_decoder run.no_decoder run.no_yaml_map (fun s => s))
    as [Hparse Hmerge].
  split.
  - eexists. split; [vm_compute; reflexivity |].
    apply (Hparse "# File 1" FormatMarkdown). vm_compute. reflexivity.
  - eexists. split; [vm_compute; reflexivity |].
    apply (Hmerge [run.baseTitled; run.overrideTitled]). vm_compute. reflexivity.
Defined.

Lemma explicit_section_wins_witness :
  exists mergedXY mergedYX,
    run.MergeAll [run.explicitDoc; run.relativeDoc] = Returns mergedXY
    /\ run.MergeAll [run.relativeDoc; run.explicitDoc] = Returns mergedYX
    /\ Section.Content <$> gomap.get (Config.Sections mergedXY) "s"
       = Some "X content"
    /\ Section.Content <$> gomap.get (Config.Sections mergedYX) "s"
       = Some "X content".
Proof.
  destruct (explicit_section_wins run.TrimSpace run.range run_range_perm
              run.explicitDoc run.relativeDoc
              (run.section "X content" (NewExplicitPriority 5))
              (run.section "Y content" (NewRelativePriority 1000))
              eq_refl eq_refl eq_refl eq_refl eq_refl eq_refl)
    as (mergedXY & mergedYX & HXY & HYX & _ & _ & HcXY & HcYX).
  exists mergedXY, mergedYX. repeat split; assumption.
Defined.

(** C2, as stated, fails when Y is a template: Y becomes the base, and the
    result's section "s" is Y's with its placeholder block emptied. *)
Lemma explicit_section_loses_to_template :
  exists merged,
    run.MergeAll [run.explicitDoc; run.relativeTemplate] = Returns merged
    /\ Section.Priority <$> gomap.get (Config.Sections (deref run.explicitDoc)) "s"
       = Some (NewExplicitPriority 5)
    /\ Section.Priority <$> gomap.get (Config.Sections (deref run.relativeTemplate)) "s"
       = Some (NewRelativePriority 1000)
    /\ Section.Content <$> gomap.get (Config.Sections (deref run.explicitDoc)) "s"
       = Some "X content"
    /\ Section.Content <$> gomap.get (Config.Sections merged) "s" = Some "Run: "
    /\ "Run: " <> "X content".
Proof.
  eexists. split; [vm_compute; reflexivity |].
  repeat split; try (vm_compute; reflexivity). discriminate.
Qed.

Lemma template_sections_filled_witness :
  findBaseTemplate run.range [run.nestedBase; run.nestedLang] = Some run.nestedBase
  /\ exists (merged : Config.t) (sections : gmap string Section.t),
       run.MergeAll [run.nestedBase; run.nestedLang] = Returns merged
       /\ Config.Sections merged = Some sections
       /\ Section.Content <$> sections !! "content"
          = Some ("# Base" +:+ gostrings.nl +:+ "## Section" +:+ gostrings.nl
                  +:+ "- nested test").
Proof.
  split; [reflexivity |].
  destruct (template_sections_filled run.TrimSpace run.range run_range_perm
              [run.nestedBase; run.nestedLang] run.nestedBase eq_refl)
    as (merged & sections & Hmerged & Hsections & Hfilled).
  exists merged, sections. split; [exact Hmerged |]. split; [exact Hsections |].
  specialize (Hfilled "content").
  change (gomap.get (Config.Sections (deref run.nestedBase)) "content")
    with (Some (run.section
                  ("# Base" +:+ gostrings.nl +:+ "## Section" +:+ gostrings.nl
                   +:+ "<language-specific-test-commands-here>" +:+ gostrings.nl
                   +:+ "Nested content" +:+ gostrings.nl
                   +:+ "</language-specific-test-commands-here>")
                  zeroPriority)) in Hfilled.
  destruct Hfilled as (tested & documented & [_ Htested] & [Hdocumented _] & ->).
  replace (at_key (collectReplacements run.TrimSpace run.range
                     [run.nestedBase; run.nestedLang]) "test-commands")
    with "- nested test" in Htested by (vm_compute; reflexivity).
  rewrite (Htested ("# Base" +:+ gostrings.nl +:+ "## Section" +:+ gostrings.nl)
             (gostrings.nl +:+ "Nested content" +:+ gostrings.nl) ""
             eq_refl
             ltac:(apply offsets_only_at; vm_compute; reflexivity)
             ltac:(apply offsets_only_at; vm_compute; reflexivity))
    in Hdocumented.
  rewrite Hdocumented; [reflexivity |].
  left. apply index_nat_None. vm_compute. reflexivity.
Defined.

(** The end-to-end test with a nested placeholder: the block and what it
    encloses give way to the test commands of the language document. *)
Example nested_placeholder_merged :
  exists merged,
    run.MergeAll [run.nestedBase; run.nestedLang] = Returns merged
    /\ Section.Content <$> gomap.get (Config.Sections merged) "content"
       = Some ("# Base" +:+ gostrings.nl +:+ "## Section" +:+ gostrings.nl
               +:+ "- nested test").
Proof. eexists. split; vm_compute; reflexivity. Qed.

(** C4, as stated, fails in three ways. An opening tag whose closing tag is
    missing stays in the output: the substitution returns at once when a tag
    is absent. On a section that holds the same placeholder twice only the
    first block is substituted, and the tags of the second remain. With the
    closing tag before the opening one both tags remain. *)
Lemma marker_tags_remain :
  (exists merged,
     run.MergeAll [run.loneTag] = Returns merged
     /\ Section.Content <$> gomap.get (Config.Sections merged) "content"
        = Some ("<language-specific-test-commands-here>" +:+ " kept "
                +:+ "</language-specific-documentation-standards>")
     /\ gostrings.Contains
          ("<language-specific-test-commands-here>" +:+ " kept "
           +:+ "</language-specific-documentation-standards>")
          "<language-specific-test-commands-here>" = true)
  /\ (exists merged,
        run.MergeAll [run.twoBlocks] = Returns merged
        /\ Section.Content <$> gomap.get (Config.Sections merged) "content"
           = Some (" and " +:+ "<language-specific-test-commands-here>"
                   +:+ "</language-specific-test-commands-here>")
        /\ gostrings.Contains
             (" and " +:+ "<language-specific-test-commands-here>"
              +:+ "</language-specific-test-commands-here>")
             "<language-specific-test-commands-here>" = true)
  /\ (exists merged,
        run.MergeAll [run.invertedTags] = Returns merged
        /\ Section.Content <$> gomap.get (Config.Sections merged) "content"
           = Some ("</language-specific-test-commands-here>" +:+ " mid "
                   +:+ " mid " +:+ "<language-specific-test-commands-here>")
        /\ gostrings.Contains
             ("</language-specific-test-commands-here>" +:+ " mid "
              +:+ " mid " +:+ "<language-specific-test-commands-here>")
             "<language-specific-test-commands-here>" = true).
Proof.
  split; [| split]; eexists; repeat split; vm_compute; reflexivity.
Qed.

Lemma MergeAll_single_witness :
  exists merged : Config.t,
    run.MergeAll [run.baseTitled] = Returns merged
    /\ Config.Metadata merged = Config.Metadata (deref run.baseTitled)
    /\ Config.Sections merged = Some ∅
    /\ Config.MergePoints merged = Some ∅
    /\ Config.MergeTargets merged = Some ∅.
Proof.
  destruct (MergeAll_single run.TrimSpace run.range run_range_perm run.baseTitled)
    as (merged & Hmerged & Hpoints & Htargets & Htitle & Hdescription
        & Hversion & Hlanguage & Hextends & Hstandard & _).
  destruct (Hstandard eq_refl) as [Hsections Hpriority].
  exists merged. split; [exact Hmerged |]. split.
  - destruct (Config.Metadata merged) as [? ? ? ? ? p].
    cbn in Hpriority, Htitle, Hdescription, Hversion, Hlanguage, Hextends.
    subst. reflexivity.
  - split; [exact Hsections |]. split; assumption.
Defined.

(** C5, as stated, fails on an untitled document that has a priority (the
    merged priority is the zero one) and on a one-document template (the
    placeholder block is emptied). *)
Lemma MergeAll_single_differs :
  (exists merged,
     run.MergeAll [run.untitledExplicit] = Returns merged
     /\ Metadata.Priority (Config.Metadata merged) = zeroPriority
     /\ Metadata.Priority (Config.Metadata (deref run.untitledExplicit))
        = NewExplicitPriority 5)
  /\ (exists merged,
        run.MergeAll [run.relativeTemplate] = Returns merged
        /\ Section.Content <$> gomap.get (Config.Sections merged) "s" = Some "Run: "
        /\ Section.Content
             <$> gomap.get (Config.Sections (deref run.relativeTemplate)) "s"
           = Some ("Run: <language-specific-test-commands-here>"
                   +:+ "</language-specific-test-commands-here>")).
Proof. split; eexists; repeat split; vm_compute; reflexivity. Qed.

(** * The repository's tests, run on the model *)

Example test_ExplicitBeatsRelative :
  exists merged,
    run.MergeAll
      [run.document 1 "" zeroPriority
         [("section1", run.section "Relative high value" (NewRelativePriority 100))];
       run.document 2 "" zeroPriority
         [("section1", run.section "Explicit low value" (NewExplicitPriority 1))]]
    = Returns merged
    /\ Section.Content <$> gomap.get (Config.Sections merged) "section1"
       = Some "Explicit low value".
Proof. eexists. split; vm_compute; reflexivity. Qed.

Example test_RelativePriority :
  exists merged,
    run.MergeAll
      [run.document 1 "" zeroPriority
         [("section1", run.section "Relative content" (NewRelativePriority 10))];
       run.document 2 "" zeroPriority
         [("section1", run.section "Should not override" (NewRelativePriority 5))]]
    = Returns merged
    /\ Section.Content <$> gomap.get (Config.Sections merged) "section1"
       = Some "Relative content".
Proof. eexists. split; vm_compute; reflexivity. Qed.

Example test_FileOrder :
  exists merged,
    run.MergeAll
      [run.firstUntitled;
       run.document 2 "" zeroPriority
         [("section1", run.section "Second content" zeroPriority)]]
    = Returns merged
    /\ Section.Content <$> gomap.get (Config.Sections merged) "section1"
       = Some "Second content".
Proof. eexists. split; vm_compute; reflexivity. Qed.

Example test_MetadataFields :
  exists merged,
    run.MergeAll [run.baseTitled; run.overrideTitled] = Returns merged
    /\ Config.Metadata merged
       = Metadata.mk "Override Title" "Base Description" "1.0.0" "golang" ""
           (NewExplicitPriority 10).
Proof. eexists. split; vm_compute; reflexivity. Qed.

Example test_ApplyStrategy :
  ApplyStrategy StrategyAppend "old content" "new content"
  = "old content" +:+ gostrings.nl +:+ "new content"
  /\ ApplyStrategy StrategyPrepend "old content" "new content"
     = "new content" +:+ gostrings.nl +:+ "old content"
  /\ ApplyStrategy StrategyReplace "old content" "" = ""
  /\ ApplyStrategy "invalid" "old" "new" = "new".
Proof. repeat split. Qed.

(** * Further properties of the comparator *)

(** [TakesPrecedenceOver] is the strict lexicographic order on the rank of
    the kind and the magnitude. *)
Lemma TakesPrecedenceOver_lex (p q : Priority) :
  TakesPrecedenceOver p q = true <->
  kindRank (Type_ p) > kindRank (Type_ q)
  \/ (kindRank (Type_ p) = kindRank (Type_ q) /\ Value p > Value q).
Proof.
  destruct p as [[] a], q as [[] b]; unfold TakesPrecedenceOver;
    cbn [Type_ Value kindRank];
    repeat (case_bool_decide; try congruence); cbn [andb negb];
    rewrite ?Z.gtb_ltb, ?Z.ltb_lt; split; intros; try lia; try discriminate;
    reflexivity.
Qed.

Lemma TakesPrecedenceOverOrEqual_negb (p q : Priority) :
  TakesPrecedenceOverOrEqual p q = negb (TakesPrecedenceOver q p).
Proof.
  destruct p as [[] a], q as [[] b];
    unfold TakesPrecedenceOverOrEqual, TakesPrecedenceOver; cbn [Type_ Value];
    repeat (case_bool_decide; try congruence); cbn [andb negb];
    try reflexivity;
    rewrite Z.geb_leb, Z.gtb_ltb;
    destruct (Z.leb_spec b a), (Z.ltb_spec a b); cbn; try reflexivity; lia.
Qed.

(** X1. The tie-inclusive comparison of [p] with [q] is true exactly when
    [q] does not strictly outrank [p]: with the arguments exchanged, the two
    comparisons are each other's complement. *)
Theorem TakesPrecedenceOverOrEqual_dual (p q : Priority) :
  TakesPrecedenceOverOrEqual p q = negb (TakesPrecedenceOver q p).
Proof. apply TakesPrecedenceOverOrEqual_negb. Qed.

Lemma TakesPrecedenceOverOrEqual_lex (p q : Priority) :
  TakesPrecedenceOverOrEqual p q = true <->
  kindRank (Type_ p) > kindRank (Type_ q)
  \/ (kindRank (Type_ p) = kindRank (Type_ q) /\ Value p >= Value q).
Proof.
  rewrite TakesPrecedenceOverOrEqual_negb, negb_true_iff.
  rewrite <- not_true_iff_false, TakesPrecedenceOver_lex. lia.
Qed.

(** X2. Strict precedence is a strict order: it is transitive, and two
    priorities never strictly outrank each other. *)
Theorem TakesPrecedenceOver_strict_order (a b c : Priority) :
  (TakesPrecedenceOver a b = true -> TakesPrecedenceOver b c = true ->
   TakesPrecedenceOver a c = true)
  /\ (TakesPrecedenceOver a b = true -> TakesPrecedenceOver b a = false).
Proof.
  split.
  - rewrite !TakesPrecedenceOver_lex. lia.
  - intros Hab. apply not_true_iff_false. revert Hab.
    rewrite !TakesPrecedenceOver_lex. lia.
Qed.

Lemma TakesPrecedenceOver_strict_order_witness :
  TakesPrecedenceOver (NewExplicitPriority 1) (mkPriority PriorityNone 7) = true
  /\ TakesPrecedenceOver (NewRelativePriority 1000) (NewExplicitPriority 1) = false.
Proof.
  split.
  - apply (proj1 (TakesPrecedenceOver_strict_order (NewExplicitPriority 1)
                    (NewRelativePriority 1000) (mkPriority PriorityNone 7)));
      reflexivity.
  - apply (proj2 (TakesPrecedenceOver_strict_order (NewExplicitPriority 1)
                    (NewRelativePriority 1000) (mkPriority PriorityNone 7))).
    reflexivity.
Defined.

(** X3. The tie-inclusive comparison is a total preorder: any two priorities
    are comparable, and the comparison is transitive. *)
Theorem TakesPrecedenceOverOrEqual_total_preorder (a b c : Priority) :
  (TakesPrecedenceOverOrEqual a b = true \/ TakesPrecedenceOverOrEqual b a = true)
  /\ (TakesPrecedenceOverOrEqual a b = true ->
      TakesPrecedenceOverOrEqual b c = true ->
      TakesPrecedenceOverOrEqual a c = true).
Proof.
  rewrite !TakesPrecedenceOverOrEqual_lex. lia.
Qed.

Lemma TakesPrecedenceOverOrEqual_total_preorder_witness :
  TakesPrecedenceOverOrEqual (NewRelativePriority 7) (mkPriority PriorityNone 9) = true.
Proof.
  apply (proj2 (TakesPrecedenceOverOrEqual_total_preorder (NewRelativePriority 7)
                  (NewRelativePriority 3) (mkPriority PriorityNone 9)));
    reflexivity.
Defined.

Lemma TakesPrecedenceOverOrEqual_trans (a b c : Priority) :
  TakesPrecedenceOverOrEqual a b = true ->
  TakesPrecedenceOverOrEqual b c = true ->
  TakesPrecedenceOverOrEqual a c = true.
Proof. rewrite !TakesPrecedenceOverOrEqual_lex. lia. Qed.

Lemma TakesPrecedenceOver_OrEqual (a b : Priority) :
  TakesPrecedenceOver a b = true -> TakesPrecedenceOverOrEqual a b = true.
Proof. rewrite TakesPrecedenceOver_lex, TakesPrecedenceOverOrEqual_lex. lia. Qed.

Lemma not_TakesPrecedenceOverOrEqual (a b : Priority) :
  TakesPrecedenceOverOrEqual a b = false -> TakesPrecedenceOver b a = true.
Proof.
  rewrite TakesPrecedenceOverOrEqual_negb, negb_false_iff. trivial.
Qed.

(** * Further properties of the standard merge *)

Section entries.

Context {V : Type} (prio : V -> Priority).

Lemma mergeEntries_cons (old : option V) (n : option V) (news : list (option V)) :
  mergeEntries prio old (n :: news)
  = mergeEntries prio (mergeEntry prio old n) news.
Proof. reflexivity. Qed.

Lemma mergeEntry_is_Some (old n : option V) :
  is_Some (mergeEntry prio old n) <-> is_Some old \/ is_Some n.
Proof.
  destruct n as [x|], old as [o|]; cbn;
    try destruct (TakesPrecedenceOverOrEqual _ _);
    split; eauto; intros [[? ?] | [? ?]]; discriminate.
Qed.

(** A key is held after the merges when it was held before or came in. *)
Lemma mergeEntries_is_Some (old : option V) (news : list (option V)) :
  is_Some (mergeEntries prio old news)
  <-> is_Some old \/ exists n, Some n ∈ news.
Proof.
  revert old. induction news as [|n news IH]; intros old.
  - cbn. split; [auto | intros [H | [n Hn]]; [exact H | inversion Hn]].
  - rewrite mergeEntries_cons, IH, mergeEntry_is_Some. split.
    + intros [[Hold | [x ->]] | [x Hx]].
      * left. exact Hold.
      * right. exists x. left.
      * right. exists x. right. exact Hx.
    + intros [Hold | [x Hx]].
      * left. left. exact Hold.
      * apply elem_of_cons in Hx as [<- | Hx]; [left; right; eauto |].
        right. exists x. exact Hx.
Qed.

(** What is held comes from the start or from one of the merges. *)
Lemma mergeEntries_from (old : option V) (news : list (option V)) (e : V) :
  mergeEntries prio old news = Some e -> old = Some e \/ Some e ∈ news.
Proof.
  revert old. induction news as [|n news IH]; intros old.
  - cbn. auto.
  - rewrite mergeEntries_cons. intros Hres.
    destruct (IH _ Hres) as [Hstep | Hin]; [| right; right; exact Hin].
    rewrite elem_of_cons.
    destruct n as [x|], old as [o|]; cbn in Hstep; auto.
    destruct (TakesPrecedenceOverOrEqual _ _); auto.
Qed.

(** What is held outranks or ties the start and everything that came in. *)
Lemma mergeEntries_max (old : option V) (news : list (option V)) (e : V) :
  mergeEntries prio old news = Some e ->
  (forall o, old = Some o -> TakesPrecedenceOverOrEqual (prio e) (prio o) = true)
  /\ (forall n, Some n ∈ news ->
        TakesPrecedenceOverOrEqual (prio e) (prio n) = true).
Proof.
  revert old. induction news as [|n news IH]; intros old.
  - cbn. intros ->. split.
    + intros o [= <-]. apply TakesPrecedenceOverOrEqual_refl.
    + intros n Hn. inversion Hn.
  - rewrite mergeEntries_cons. intros Hres.
    destruct (IH _ Hres) as [Hstep Hnews]. split.
    + intros o ->. destruct n as [x|]; cbn in Hstep; [| apply Hstep; reflexivity].
      destruct (TakesPrecedenceOverOrEqual (prio x) (prio o)) eqn:Hxo.
      * eapply TakesPrecedenceOverOrEqual_trans; [apply Hstep; reflexivity | exact Hxo].
      * apply Hstep. reflexivity.
    + intros x Hx. apply elem_of_cons in Hx as [<- | Hx]; [| apply Hnews, Hx].
      destruct old as [o|]; cbn in Hstep; [| apply Hstep; reflexivity].
      destruct (TakesPrecedenceOverOrEqual (prio x) (prio o)) eqn:Hxo.
      * apply Hstep. reflexivity.
      * eapply TakesPrecedenceOverOrEqual_trans; [apply Hstep; reflexivity |].
        apply TakesPrecedenceOver_OrEqual, not_TakesPrecedenceOverOrEqual, Hxo.
Qed.

(** What is held stays when everything that comes in is strictly outranked. *)
Lemma mergeEntries_keep (e : V) (news : list (option V)) :
  (forall n, Some n ∈ news -> TakesPrecedenceOver (prio e) (prio n) = true) ->
  mergeEntries prio (Some e) news = Some e.
Proof.
  induction news as [|n news IH]; intros Hlow; [reflexivity |].
  rewrite mergeEntries_cons.
  assert (mergeEntry prio (Some e) n = Some e) as ->.
  { destruct n as [x|]; [| reflexivity]. cbn.
    rewrite TakesPrecedenceOverOrEqual_negb, (Hlow x) by left. reflexivity. }
  apply IH. intros x Hx. apply Hlow. right. exact Hx.
Qed.

(** An incoming value that outranks or ties what precedes it and strictly
    outranks what follows it is the one held at the end. *)
Lemma mergeEntries_last (old : option V) (before after : list (option V)) (e : V) :
  (forall o, old = Some o -> TakesPrecedenceOverOrEqual (prio e) (prio o) = true) ->
  (forall n, Some n ∈ before ->
     TakesPrecedenceOverOrEqual (prio e) (prio n) = true) ->
  (forall n, Some n ∈ after -> TakesPrecedenceOver (prio e) (prio n) = true) ->
  mergeEntries prio old (before ++ Some e :: after) = Some e.
Proof.
  revert old. induction before as [|b before IH]; intros old Hold Hbefore Hafter.
  - cbn [app]. rewrite mergeEntries_cons.
    assert (mergeEntry prio old (Some e) = Some e) as ->.
    { destruct old as [o|]; [| reflexivity]. cbn. rewrite (Hold o eq_refl). reflexivity. }
    apply mergeEntries_keep, Hafter.
  - cbn [app]. rewrite mergeEntries_cons. apply IH.
    + intros o Ho. destruct b as [x|], old as [y|]; cbn in Ho.
      * destruct (TakesPrecedenceOverOrEqual (prio x) (prio y));
          injection Ho as [= <-]; [apply Hbefore; left | apply Hold; reflexivity].
      * injection Ho as [= <-]. apply Hbefore. left.
      * apply Hold. exact Ho.
      * discriminate.
    + intros x Hx. apply Hbefore. right. exact Hx.
    + exact Hafter.
Qed.

(** The accumulated map, key by key. *)
Lemma foldl_mergeMap_lookup (g : gmap string V) (maps : list (gmap string V))
    (k : string) :
  foldl (mergeMap prio) g maps !! k
  = mergeEntries prio (g !! k) ((fun m => m !! k) <$> maps).
Proof.
  revert g. induction maps as [|m maps IH]; intros g; [reflexivity |].
  cbn [foldl fmap list_fmap]. rewrite IH, mergeMap_lookup. reflexivity.
Qed.

End entries.

Section standard_facts.

Variable TrimSpace : string -> string.
Variable range : forall V : Type, gmap string V -> list (string * V).
Hypothesis range_perm :
  forall (V : Type) (m : gmap string V), range V m ≡ₚ map_to_list m.

(** The standard loop in closed form: the metadata go through the field
    blocks of every document in turn, and each map through the per-key merge
    with the map of every document in turn. *)
Lemma foldM_mergeOne_closed (configs : list ConfigPtr) (md : Metadata.t)
    (gs : gmap string Section.t) (gp : gmap string MergePoint.t)
    (gt : gmap string MergeTarget.t) (file : string) (format : FileFormat) :
  foldM (mergeOne range) (Config.mk md (Some gs) (Some gp) (Some gt) file format)
    configs
  = Returns
      (Config.mk
         (foldl (fun md cfg => mergeFields (Config.Metadata (deref cfg)) md)
            md configs)
         (Some (foldl (mergeMap Section.Priority) gs (sectionsOf <$> configs)))
         (Some (foldl (mergeMap MergePoint.Priority) gp (pointsOf <$> configs)))
         (Some (foldl (mergeMap MergeTarget.Priority) gt (targetsOf <$> configs)))
         file format).
Proof.
  revert md gs gp gt. induction configs as [|cfg configs IH]; intros md gs gp gt.
  - reflexivity.
  - rewrite foldM_cons, (mergeOne_spec range range_perm), bind_Returns, IH.
    reflexivity.
Qed.

Lemma MergeAll_standard_closed (configs : list ConfigPtr) :
  standardMode configs ->
  MergeAll TrimSpace range configs
  = Returns
      (Config.mk
         (foldl (fun md cfg => mergeFields (Config.Metadata (deref cfg)) md)
            Metadata.zero configs)
         (Some (foldl (mergeMap Section.Priority) ∅ (sectionsOf <$> configs)))
         (Some (foldl (mergeMap MergePoint.Priority) ∅ (pointsOf <$> configs)))
         (Some (foldl (mergeMap MergeTarget.Priority) ∅ (targetsOf <$> configs)))
         "" 0).
Proof.
  intros [Hne Hall].
  rewrite (MergeAll_standard TrimSpace range range_perm configs Hne Hall).
  apply foldM_mergeOne_closed.
Qed.

(** The values a key has in the maps of the documents that hold it. *)
Lemma elem_of_lookups {V : Type} (proj : ConfigPtr -> gmap string V)
    (configs : list ConfigPtr) (k : string) (e : V) :
  Some e ∈ (fun m : gmap string V => m !! k) <$> (proj <$> configs)
  <-> exists cfg, cfg ∈ configs /\ proj cfg !! k = Some e.
Proof.
  rewrite <- list_fmap_compose, list_elem_of_fmap. cbn. split.
  - intros (cfg & Heq & Hin). eauto.
  - intros (cfg & Hin & Heq). eauto.
Qed.

(** X4. In standard mode the merged document has a section under a key
    exactly when some input document has one under that key. *)
Theorem standard_sections_keys (configs : list ConfigPtr) :
  standardMode configs ->
  exists merged,
    MergeAll TrimSpace range configs = Returns merged
    /\ forall k : string,
         is_Some (gomap.get (Config.Sections merged) k)
         <-> exists cfg, cfg ∈ configs /\ is_Some (sectionsOf cfg !! k).
Proof.
  intros Hstd. rewrite (MergeAll_standard_closed configs Hstd).
  eexists. split; [reflexivity |]. intros k.
  cbn [Config.Sections]. rewrite gomap_get_Some, foldl_mergeMap_lookup.
  rewrite mergeEntries_is_Some, lookup_empty. split.
  - intros [[? Hnone] | [e He]]; [discriminate |].
    apply elem_of_lookups in He as (cfg & Hin & Hk).
    exists cfg. rewrite Hk. eauto.
  - intros (cfg & Hin & [e Hk]). right. exists e.
    apply elem_of_lookups. eauto.
Qed.

(** X5. In standard mode a merged section is, whole, the section that some
    input document has under the same key, and its priority outranks or ties
    the priority of every input section under that key. *)
Theorem standard_section_is_best_input (configs : list ConfigPtr) :
  standardMode configs ->
  exists merged,
    MergeAll TrimSpace range configs = Returns merged
    /\ forall (k : string) (e : Section.t),
         gomap.get (Config.Sections merged) k = Some e ->
         (exists cfg, cfg ∈ configs /\ sectionsOf cfg !! k = Some e)
         /\ forall cfg e', cfg ∈ configs -> sectionsOf cfg !! k = Some e' ->
              TakesPrecedenceOverOrEqual (Section.Priority e) (Section.Priority e')
              = true.
Proof.
  intros Hstd. rewrite (MergeAll_standard_closed configs Hstd).
  eexists. split; [reflexivity |]. intros k e.
  cbn [Config.Sections]. rewrite gomap_get_Some, foldl_mergeMap_lookup, lookup_empty.
  intros Hres. split.
  - destruct (mergeEntries_from _ _ _ _ Hres) as [? | Hin]; [discriminate |].
    apply elem_of_lookups in Hin. exact Hin.
  - intros cfg e' Hin Hk.
    apply (proj2 (mergeEntries_max _ _ _ _ Hres)).
    apply elem_of_lookups. eauto.
Qed.

(** X6. In standard mode, a section that outranks or ties the sections under
    its key in the documents before it, and strictly outranks those in the
    documents after it, is the merged section: among sections tied at the
    top, the one of the later document wins. *)
Theorem standard_section_later_wins (before after : list ConfigPtr)
    (d : ConfigPtr) (k : string) (e : Section.t) :
  standardMode (before ++ d :: after) ->
  sectionsOf d !! k = Some e ->
  (forall cfg e', cfg ∈ before -> sectionsOf cfg !! k = Some e' ->
     TakesPrecedenceOverOrEqual (Section.Priority e) (Section.Priority e') = true) ->
  (forall cfg e', cfg ∈ after -> sectionsOf cfg !! k = Some e' ->
     TakesPrecedenceOver (Section.Priority e) (Section.Priority e') = true) ->
  exists merged,
    MergeAll TrimSpace range (before ++ d :: after) = Returns merged
    /\ gomap.get (Config.Sections merged) k = Some e.
Proof.
  intros Hstd Hd Hbefore Hafter. rewrite (MergeAll_standard_closed _ Hstd).
  eexists. split; [reflexivity |].
  cbn [Config.Sections]. rewrite gomap_get_Some, foldl_mergeMap_lookup, lookup_empty.
  rewrite !fmap_app, !fmap_cons, Hd.
  apply mergeEntries_last.
  - discriminate.
  - intros e' He'. apply elem_of_lookups in He' as (cfg & Hin & Hk). eauto.
  - intros e' He'. apply elem_of_lookups in He' as (cfg & Hin & Hk). eauto.
Qed.

(** X7. In standard mode a merged merge point, and a merged merge target, is
    the whole entry of some input document under the same key, of a priority
    that outranks or ties every input entry under that key: the contents of
    two targets are never combined. *)
Theorem standard_points_and_targets (configs : list ConfigPtr) :
  standardMode configs ->
  exists merged,
    MergeAll TrimSpace range configs = Returns merged
    /\ (forall (k : string) (e : MergePoint.t),
          gomap.get (Config.MergePoints merged) k = Some e ->
          (exists cfg, cfg ∈ configs /\ pointsOf cfg !! k = Some e)
          /\ forall cfg e', cfg ∈ configs -> pointsOf cfg !! k = Some e' ->
               TakesPrecedenceOverOrEqual
                 (MergePoint.Priority e) (MergePoint.Priority e') = true)
    /\ (forall (k : string) (e : MergeTarget.t),
          gomap.get (Config.MergeTargets merged) k = Some e ->
          (exists cfg, cfg ∈ configs /\ targetsOf cfg !! k = Some e)
          /\ forall cfg e', cfg ∈ configs -> targetsOf cfg !! k = Some e' ->
               TakesPrecedenceOverOrEqual
                 (MergeTarget.Priority e) (MergeTarget.Priority e') = true).
Proof.
  intros Hstd. rewrite (MergeAll_standard_closed configs Hstd).
  eexists. split; [reflexivity |].
  cbn [Config.MergePoints Config.MergeTargets].
  split; intros k e; rewrite gomap_get_Some, foldl_mergeMap_lookup, lookup_empty;
    intros Hres; (split;
      [ destruct (mergeEntries_from _ _ _ _ Hres) as [? | Hin]; [discriminate |];
        apply elem_of_lookups in Hin; exact Hin
      | intros cfg e' Hin Hk; apply (proj2 (mergeEntries_max _ _ _ _ Hres));
        apply elem_of_lookups; eauto ]).
Qed.

End standard_facts.

(** * Further properties of the metadata merge *)

(** Reduce the projections of [Metadata] and the Boolean connectives. *)
Ltac fields_simpl :=
  cbn [negb orb andb Metadata.Title Metadata.Description Metadata.Version
       Metadata.Language Metadata.Extends Metadata.Priority
       Metadata.set_Title Metadata.set_Priority Metadata.set_Description
       Metadata.set_Version Metadata.set_Language Metadata.set_Extends].

(** Each of the four blocks after the title sets its field to the picked
    value. *)
Ltac block_pick :=
  intros inc md; destruct md, inc; unfold pick; fields_simpl;
  repeat match goal with
         | |- context [bool_decide ?P] => destruct (bool_decide P)
         | |- context [TakesPrecedenceOverOrEqual ?a ?b] =>
             destruct (TakesPrecedenceOverOrEqual a b)
         end; reflexivity.

Lemma mergeDescription_pick : forall inc md : Metadata.t,
  mergeDescription inc md
  = Metadata.set_Description
      (pick (TakesPrecedenceOverOrEqual (Metadata.Priority inc) (Metadata.Priority md))
         (Metadata.Description md) (Metadata.Description inc)) md.
Proof. unfold mergeDescription. block_pick. Qed.

Lemma mergeVersion_pick : forall inc md : Metadata.t,
  mergeVersion inc md
  = Metadata.set_Version
      (pick (TakesPrecedenceOverOrEqual (Metadata.Priority inc) (Metadata.Priority md))
         (Metadata.Version md) (Metadata.Version inc)) md.
Proof. unfold mergeVersion. block_pick. Qed.

Lemma mergeLanguage_pick : forall inc md : Metadata.t,
  mergeLanguage inc md
  = Metadata.set_Language
      (pick (TakesPrecedenceOverOrEqual (Metadata.Priority inc) (Metadata.Priority md))
         (Metadata.Language md) (Metadata.Language inc)) md.
Proof. unfold mergeLanguage. block_pick. Qed.

Lemma mergeExtends_pick : forall inc md : Metadata.t,
  mergeExtends inc md
  = Metadata.set_Extends
      (pick (TakesPrecedenceOverOrEqual (Metadata.Priority inc) (Metadata.Priority md))
         (Metadata.Extends md) (Metadata.Extends inc)) md.
Proof. unfold mergeExtends. block_pick. Qed.

(** The five blocks in closed form: the title block decides the priority,
    and the four other fields are picked against that priority. *)
Lemma mergeFields_closed (inc md : Metadata.t) :
  mergeFields inc md
  = let replaced := titleReplaced inc md in
    let priority :=
      if replaced then Metadata.Priority inc else Metadata.Priority md in
    let outranks := TakesPrecedenceOverOrEqual (Metadata.Priority inc) priority in
    Metadata.mk
      (if replaced then Metadata.Title inc else Metadata.Title md)
      (pick outranks (Metadata.Description md) (Metadata.Description inc))
      (pick outranks (Metadata.Version md) (Metadata.Version inc))
      (pick outranks (Metadata.Language md) (Metadata.Language inc))
      (pick outranks (Metadata.Extends md) (Metadata.Extends inc))
      priority.
Proof.
  unfold mergeFields.
  rewrite mergeExtends_pick, mergeLanguage_pick, mergeVersion_pick,
    mergeDescription_pick, mergeTitle_cases.
  cbn zeta. destruct (titleReplaced inc md); fields_simpl;
    destruct md; reflexivity.
Qed.

Lemma mergeMetadata_fields (result incoming : Config.t) :
  Config.Metadata (mergeMetadata result incoming)
  = mergeFields (Config.Metadata incoming) (Config.Metadata result).
Proof. reflexivity. Qed.

Lemma pick_true (acc inc : string) :
  pick true acc inc = if bool_decide (inc = "") then acc else inc.
Proof. unfold pick. rewrite orb_true_r. destruct (bool_decide _); reflexivity. Qed.

Lemma pick_false (acc inc : string) :
  pick false acc inc = if bool_decide (acc = "") then inc else acc.
Proof.
  unfold pick. rewrite orb_false_r.
  destruct (bool_decide_reflect (acc = "")) as [-> | _],
    (bool_decide_reflect (inc = "")) as [-> | _]; reflexivity.
Qed.

Lemma pick_choice (outranks : bool) (acc inc : string) :
  pick outranks acc inc = acc \/ (pick outranks acc inc = inc /\ inc <> "").
Proof.
  unfold pick. destruct (bool_decide_reflect (inc = "")) as [-> | Hinc].
  - left. rewrite andb_false_r. reflexivity.
  - destruct (_ || _); cbn; auto.
Qed.

(** X8. One step of the metadata merge leaves each of the five fields as it
    was or gives it the incoming document's value, and the latter only if
    that value is not empty: a field that is set is never emptied. *)
Theorem mergeMetadata_field_choice (result incoming : Config.t) :
  let inc := Config.Metadata incoming in
  let acc := Config.Metadata result in
  let acc' := Config.Metadata (mergeMetadata result incoming) in
  (Metadata.Title acc' = Metadata.Title acc
   \/ (Metadata.Title acc' = Metadata.Title inc /\ Metadata.Title inc <> ""))
  /\ (Metadata.Description acc' = Metadata.Description acc
      \/ (Metadata.Description acc' = Metadata.Description inc
          /\ Metadata.Description inc <> ""))
  /\ (Metadata.Version acc' = Metadata.Version acc
      \/ (Metadata.Version acc' = Metadata.Version inc
          /\ Metadata.Version inc <> ""))
  /\ (Metadata.Language acc' = Metadata.Language acc
      \/ (Metadata.Language acc' = Metadata.Language inc
          /\ Metadata.Language inc <> ""))
  /\ (Metadata.Extends acc' = Metadata.Extends acc
      \/ (Metadata.Extends acc' = Metadata.Extends inc
          /\ Metadata.Extends inc <> "")).
Proof.
  cbn zeta. rewrite mergeMetadata_fields, mergeFields_closed. cbn zeta.
  fields_simpl. split; [| repeat split; apply pick_choice].
  unfold titleReplaced.
  destruct (bool_decide_reflect
              (Metadata.Title (Config.Metadata incoming) = "")) as [Hinc | Hinc].
  - left. rewrite andb_false_r. reflexivity.
  - destruct (_ || _); cbn; auto.
Qed.

(** X9. When the title block assigns the title (the accumulator is untitled
    or the incoming priority outranks or ties it, and the incoming title is
    not empty), the step takes the incoming priority and every non-empty
    incoming field, and keeps the accumulator's value only for the fields the
    incoming document leaves empty, even when the accumulator's priority was
    the higher one. *)
Theorem mergeMetadata_titled_overrides (result incoming : Config.t) :
  let inc := Config.Metadata incoming in
  let acc := Config.Metadata result in
  let acc' := Config.Metadata (mergeMetadata result incoming) in
  titleReplaced inc acc = true ->
  Metadata.Priority acc' = Metadata.Priority inc
  /\ Metadata.Title acc' = Metadata.Title inc
  /\ Metadata.Description acc'
     = (if bool_decide (Metadata.Description inc = "")
        then Metadata.Description acc else Metadata.Description inc)
  /\ Metadata.Version acc'
     = (if bool_decide (Metadata.Version inc = "")
        then Metadata.Version acc else Metadata.Version inc)
  /\ Metadata.Language acc'
     = (if bool_decide (Metadata.Language inc = "")
        then Metadata.Language acc else Metadata.Language inc)
  /\ Metadata.Extends acc'
     = (if bool_decide (Metadata.Extends inc = "")
        then Metadata.Extends acc else Metadata.Extends inc).
Proof.
  cbn zeta. intros Hreplaced.
  rewrite mergeMetadata_fields, mergeFields_closed. cbn zeta.
  rewrite Hreplaced, TakesPrecedenceOverOrEqual_refl. fields_simpl.
  rewrite !pick_true. repeat split.
Qed.

(** X10. When the accumulator has a title and the incoming priority neither
    outranks nor ties the accumulator's, the step keeps the priority, the
    title and every non-empty field of the accumulator; the incoming document
    only fills the fields that were empty. *)
Theorem mergeMetadata_lower_fills_gaps (result incoming : Config.t) :
  let inc := Config.Metadata incoming in
  let acc := Config.Metadata result in
  let acc' := Config.Metadata (mergeMetadata result incoming) in
  Metadata.Title acc <> "" ->
  TakesPrecedenceOverOrEqual (Metadata.Priority inc) (Metadata.Priority acc) = false ->
  Metadata.Priority acc' = Metadata.Priority acc
  /\ Metadata.Title acc' = Metadata.Title acc
  /\ Metadata.Description acc'
     = (if bool_decide (Metadata.Description acc = "")
        then Metadata.Description inc else Metadata.Description acc)
  /\ Metadata.Version acc'
     = (if bool_decide (Metadata.Version acc = "")
        then Metadata.Version inc else Metadata.Version acc)
  /\ Metadata.Language acc'
     = (if bool_decide (Metadata.Language acc = "")
        then Metadata.Language inc else Metadata.Language acc)
  /\ Metadata.Extends acc'
     = (if bool_decide (Metadata.Extends acc = "")
        then Metadata.Extends inc else Metadata.Extends acc).
Proof.
  cbn zeta. intros Htitle Hlower.
  rewrite mergeMetadata_fields, mergeFields_closed. cbn zeta.
  assert (titleReplaced (Config.Metadata incoming) (Config.Metadata result) = false)
    as ->.
  { unfold titleReplaced. rewrite Hlower, bool_decide_eq_false_2 by exact Htitle.
    reflexivity. }
  rewrite Hlower. fields_simpl. rewrite !pick_false. repeat split.
Qed.

Lemma pick_idemp (outranks : bool) (acc inc : string) :
  pick outranks (pick outranks acc inc) inc = pick outranks acc inc.
Proof.
  unfold pick.
  destruct (bool_decide_reflect (inc = "")) as [-> | Hinc];
    [rewrite !andb_false_r; reflexivity |].
  rewrite !andb_true_r.
  destruct (bool_decide_reflect (acc = "")) as [-> | Hacc]; cbn.
  - rewrite (bool_decide_eq_false_2 (inc = "")) by exact Hinc.
    destruct outranks; reflexivity.
  - destruct outranks; cbn.
    + rewrite orb_true_r. reflexivity.
    + rewrite (bool_decide_eq_false_2 (acc = "")) by exact Hacc. reflexivity.
Qed.

(** Merging the same metadata a second time changes nothing. *)
Lemma mergeFields_idemp (inc md : Metadata.t) :
  mergeFields inc (mergeFields inc md) = mergeFields inc md.
Proof.
  rewrite (mergeFields_closed inc md). cbn zeta.
  destruct (titleReplaced inc md) eqn:Hreplaced.
  - rewrite TakesPrecedenceOverOrEqual_refl, mergeFields_closed. cbn zeta.
    match goal with
    | |- context [titleReplaced inc ?m] =>
        assert (titleReplaced inc m = true) as ->
    end.
    { unfold titleReplaced in *. fields_simpl.
      apply andb_true_iff in Hreplaced as [_ ->].
      rewrite TakesPrecedenceOverOrEqual_refl, orb_true_r. reflexivity. }
    fields_simpl. rewrite TakesPrecedenceOverOrEqual_refl, !pick_idemp.
    reflexivity.
  - rewrite mergeFields_closed. cbn zeta.
    match goal with
    | |- context [titleReplaced inc ?m] =>
        assert (titleReplaced inc m = false) as -> by exact Hreplaced
    end.
    fields_simpl. rewrite !pick_idemp. reflexivity.
Qed.

Lemma mergeEntry_idemp {V : Type} (prio : V -> Priority) (old new : option V) :
  mergeEntry prio (mergeEntry prio old new) new = mergeEntry prio old new.
Proof.
  destruct new as [n|], old as [o|]; cbn; try reflexivity.
  - destruct (TakesPrecedenceOverOrEqual (prio n) (prio o)) eqn:Hno; cbn.
    + rewrite TakesPrecedenceOverOrEqual_refl. reflexivity.
    + rewrite Hno. reflexivity.
  - rewrite TakesPrecedenceOverOrEqual_refl. reflexivity.
Qed.

Lemma mergeMap_idemp {V : Type} (prio : V -> Priority) (g m : gmap string V) :
  mergeMap prio (mergeMap prio g m) m = mergeMap prio g m.
Proof.
  apply map_eq. intros k. rewrite !mergeMap_lookup. apply mergeEntry_idemp.
Qed.

Lemma standardMode_app (l1 l2 : list ConfigPtr) :
  standardMode (l1 ++ l2) <->
  (l1 ++ l2 <> [])
  /\ Forall (fun cfg => hasPlaceholders (deref cfg) = false) l1
  /\ Forall (fun cfg => hasPlaceholders (deref cfg) = false) l2.
Proof. unfold standardMode. rewrite Forall_app. tauto. Qed.

(** * Further properties of the template mode *)

(** One round of the title loop, by whether the document takes the title. *)
Lemma overrideTitle_cases (baseConfig : ConfigPtr) (result : Config.t)
    (cfg : ConfigPtr) :
  overrideTitle baseConfig result cfg
  = if overridesTitle (Metadata.Priority (Config.Metadata result)) baseConfig cfg
    then Config.set_Metadata
           (Metadata.set_Title (titleOf cfg) (Config.Metadata result)) result
    else result.
Proof.
  unfold overrideTitle, overridesTitle, titleOf.
  destruct (negb (addr cfg =? addr baseConfig)%nat); [| reflexivity].
  destruct (bool_decide_reflect
              (Metadata.Title (Config.Metadata (deref cfg)) = "")) as [Hempty | _];
    cbn [negb andb].
  { destruct (TakesPrecedenceOverOrEqual _ _); reflexivity. }
  destruct (TakesPrecedenceOver _ _) eqn:Hover.
  - rewrite (TakesPrecedenceOver_OrEqual _ _ Hover).
    destruct (bool_decide_reflect
                (Metadata.Title (Config.Metadata (deref cfg))
                 = Metadata.Title (Config.Metadata result))) as [Hsame | _];
      [| reflexivity].
    cbn [negb]. rewrite Hsame. destruct result as [[] ? ? ? ? ?]. reflexivity.
  - destruct (TakesPrecedenceOverOrEqual _ _); [destruct (negb _) |]; reflexivity.
Qed.

(** The title loop in closed form: the title of the last document that takes
    it over, the starting title when there is none. *)
Lemma foldl_overrideTitle_closed (baseConfig : ConfigPtr)
    (configs : list ConfigPtr) (result : Config.t) :
  foldl (overrideTitle baseConfig) result configs
  = Config.set_Metadata
      (Metadata.set_Title
         (default (Metadata.Title (Config.Metadata result))
            (last (titleOf
                     <$> filter (fun cfg =>
                                   overridesTitle
                                     (Metadata.Priority (Config.Metadata result))
                                     baseConfig cfg = true) configs)))
         (Config.Metadata result))
      result.
Proof.
  revert result. induction configs as [|cfg configs IH]; intros result.
  - destruct result as [[] ? ? ? ? ?]. reflexivity.
  - cbn [foldl]. rewrite IH, overrideTitle_cases, filter_cons.
    destruct (decide (overridesTitle _ baseConfig cfg = true)) as [Hwin | Hno].
    + rewrite Hwin. cbn [Config.Metadata Config.set_Metadata Metadata.Priority
        Metadata.set_Title Metadata.Title].
      rewrite fmap_cons, last_cons.
      destruct (last _); destruct result as [[] ? ? ? ? ?]; reflexivity.
    + apply not_true_is_false in Hno. rewrite Hno. reflexivity.
Qed.

Lemma find_first {A : Type} (f : A -> bool) (l : list A) :
  match List.find f l with
  | Some x =>
      exists before after,
        l = before ++ x :: after
        /\ Forall (fun y => f y = false) before /\ f x = true
  | None => Forall (fun y => f y = false) l
  end.
Proof.
  induction l as [|y l IH]; cbn [List.find]; [constructor |].
  destruct (f y) eqn:Hy.
  - exists [], l. repeat split; [constructor | exact Hy].
  - destruct (List.find f l) as [x|].
    + destruct IH as (before & after & -> & Hbefore & Hx).
      exists (y :: before), after. repeat split; [constructor; assumption | exact Hx].
    + constructor; assumption.
Qed.

Section mode_facts.

Variable TrimSpace : string -> string.
Variable range : forall V : Type, gmap string V -> list (string * V).
Hypothesis range_perm :
  forall (V : Type) (m : gmap string V), range V m ≡ₚ map_to_list m.

(** X11. In standard mode, a document listed twice in a row merges like the
    document listed once. *)
Theorem standard_repeat_idempotent (before after : list ConfigPtr) (d : ConfigPtr) :
  standardMode (before ++ d :: after) ->
  MergeAll TrimSpace range (before ++ d :: d :: after)
  = MergeAll TrimSpace range (before ++ d :: after).
Proof.
  intros Hstd.
  assert (Hstd2 : standardMode (before ++ d :: d :: after)).
  { apply standardMode_app in Hstd as (_ & Hbefore & Hafter).
    apply standardMode_app. split; [destruct before; discriminate |].
    split; [exact Hbefore |]. constructor; [| exact Hafter].
    apply Forall_cons in Hafter as [Hd _]. exact Hd. }
  rewrite (MergeAll_standard_closed TrimSpace range range_perm _ Hstd),
    (MergeAll_standard_closed TrimSpace range range_perm _ Hstd2).
  rewrite !fmap_app, !foldl_app, !fmap_cons. cbn [foldl].
  rewrite mergeFields_idemp, !mergeMap_idemp. reflexivity.
Qed.

(** X12. [findBaseTemplate] returns the first document of the sequence that
    has a section with both placeholder prefixes, whatever the priorities,
    and no document when none has such a section. *)
Theorem findBaseTemplate_first (configs : list ConfigPtr) :
  match findBaseTemplate range configs with
  | Some baseConfig =>
      exists before after,
        configs = before ++ baseConfig :: after
        /\ Forall (fun cfg => hasPlaceholders (deref cfg) = false) before
        /\ hasPlaceholders (deref baseConfig) = true
  | None => Forall (fun cfg => hasPlaceholders (deref cfg) = false) configs
  end.
Proof.
  rewrite (findBaseTemplate_find range range_perm).
  apply (find_first (fun cfg => hasPlaceholders (deref cfg))).
Qed.

(** Template mode in closed form. *)
Lemma MergeAll_template_closed (configs : list ConfigPtr) (baseConfig : ConfigPtr) :
  findBaseTemplate range configs = Some baseConfig ->
  MergeAll TrimSpace range configs
  = Returns
      (Config.mk
         (Metadata.set_Title
            (default (titleOf baseConfig)
               (last (titleOf
                        <$> filter (fun cfg =>
                                      overridesTitle
                                        (Metadata.Priority
                                           (Config.Metadata (deref baseConfig)))
                                        baseConfig cfg = true) configs)))
            (Config.Metadata (deref baseConfig)))
         (Some (filled (collectReplacements TrimSpace range configs)
                  <$> sectionsOf baseConfig))
         (Some (pointsOf baseConfig))
         (Some (targetsOf baseConfig))
         "" 0).
Proof.
  intros Hfind. rewrite (findBaseTemplate_find range range_perm) in Hfind.
  rewrite (MergeAll_template TrimSpace range range_perm _ _ Hfind),
    (mergeWithTemplate_newResult TrimSpace range range_perm).
  rewrite foldl_overrideTitle_closed. reflexivity.
Qed.

(** X13. In template mode the merge points, the merge targets and the
    metadata other than the title are those of the base document: the other
    documents bring no entry and no metadata field but, possibly, the title. *)
Theorem template_keeps_base (configs : list ConfigPtr) (baseConfig : ConfigPtr) :
  findBaseTemplate range configs = Some baseConfig ->
  exists merged,
    MergeAll TrimSpace range configs = Returns merged
    /\ Config.MergePoints merged = Some (pointsOf baseConfig)
    /\ Config.MergeTargets merged = Some (targetsOf baseConfig)
    /\ Metadata.Description (Config.Metadata merged)
       = Metadata.Description (Config.Metadata (deref baseConfig))
    /\ Metadata.Version (Config.Metadata merged)
       = Metadata.Version (Config.Metadata (deref baseConfig))
    /\ Metadata.Language (Config.Metadata merged)
       = Metadata.Language (Config.Metadata (deref baseConfig))
    /\ Metadata.Extends (Config.Metadata merged)
       = Metadata.Extends (Config.Metadata (deref baseConfig))
    /\ Metadata.Priority (Config.Metadata merged)
       = Metadata.Priority (Config.Metadata (deref baseConfig)).
Proof.
  intros Hfind. rewrite (MergeAll_template_closed _ _ Hfind).
  eexists. split; [reflexivity |]. repeat split.
Qed.

(** X14. In template mode the merged title is the title of the last document
    of the sequence that is not the base, has a non-empty title and strictly
    outranks the base's metadata priority; it is the base's title when there
    is no such document, so that a tie keeps the base's title. *)
Theorem template_title (configs : list ConfigPtr) (baseConfig : ConfigPtr) :
  findBaseTemplate range configs = Some baseConfig ->
  exists merged,
    MergeAll TrimSpace range configs = Returns merged
    /\ Metadata.Title (Config.Metadata merged)
       = default (titleOf baseConfig)
           (last (titleOf
                    <$> filter (fun cfg =>
                                  overridesTitle
                                    (Metadata.Priority
                                       (Config.Metadata (deref baseConfig)))
                                    baseConfig cfg = true) configs))
    /\ (Forall (fun cfg =>
                  TakesPrecedenceOver
                    (Metadata.Priority (Config.Metadata (deref cfg)))
                    (Metadata.Priority (Config.Metadata (deref baseConfig)))
                  = false) configs ->
        Metadata.Title (Config.Metadata merged) = titleOf baseConfig).
Proof.
  intros Hfind. rewrite (MergeAll_template_closed _ _ Hfind).
  eexists. split; [reflexivity |]. split; [reflexivity |].
  intros Hties. cbn [Config.Metadata Metadata.set_Title Metadata.Title].
  clear Hfind.
  assert (filter (fun cfg =>
                    overridesTitle
                      (Metadata.Priority (Config.Metadata (deref baseConfig)))
                      baseConfig cfg = true) configs = []) as ->;
    [| reflexivity].
  induction Hties as [|cfg configs' Hcfg _ IH]; [reflexivity |].
  rewrite filter_cons, IH.
  destruct (decide _) as [Hwin | _]; [| reflexivity].
  unfold overridesTitle in Hwin. rewrite Hcfg, andb_false_r in Hwin. discriminate.
Qed.

End mode_facts.

(** * The command line *)

Lemma filter_agree {A : Type} (P Q : A -> Prop)
    `{!forall x, Decision (P x)} `{!forall x, Decision (Q x)} (l : list A) :
  (forall x, x ∈ l -> P x <-> Q x) -> filter P l = filter Q l.
Proof.
  induction l as [|x l IH]; intros Hagree; [reflexivity |].
  rewrite !filter_cons.
  rewrite IH by (intros y Hy; apply Hagree; rewrite elem_of_cons; auto).
  assert (Hx : P x <-> Q x) by (apply Hagree; rewrite elem_of_cons; auto).
  destruct (decide (P x)), (decide (Q x)); tauto || reflexivity.
Qed.

(** The first loop of [parseFileOrder], from any state in which [used] holds
    the names of [result]. *)
Lemma foldl_takeOrdered (fileSet : gset string) (l result : list string) :
  NoDup result ->
  exists ordered,
    foldl (main.takeOrdered fileSet) (result, list_to_set result) l
    = (result ++ ordered, list_to_set (result ++ ordered))
    /\ sublist ordered l
    /\ NoDup (result ++ ordered)
    /\ (forall f, f ∈ ordered <-> f ∈ l /\ f ∈ fileSet /\ f ∉ result)
    /\ (NoDup l ->
        ordered = filter (fun f => f ∈ fileSet /\ f ∉ result) l).
Proof.
  revert result. induction l as [|x l IH]; intros result Hnd.
  - exists []. rewrite app_nil_r. cbn [foldl].
    split; [reflexivity |]. split; [constructor |]. split; [exact Hnd |].
    split; [| reflexivity].
    intros f. rewrite elem_of_nil. tauto.
  - cbn [foldl]. unfold main.takeOrdered at 2.
    destruct (bool_decide (x ∈ fileSet)) eqn:Hin;
      [destruct (bool_decide (x ∈ (list_to_set result : gset string))) eqn:Hused |];
      cbn [andb negb].
    + apply bool_decide_eq_true in Hin, Hused. rewrite elem_of_list_to_set in Hused.
      destruct (IH result Hnd) as (ordered & Hfold & Hsub & Hnd' & Hmem & Hfilter).
      exists ordered. split; [exact Hfold |].
      split; [apply sublist_cons, Hsub |]. split; [exact Hnd' |]. split.
      * intros f. rewrite Hmem, elem_of_cons. split; [tauto |].
        intros ([-> | Hf] & Hset & Hres); tauto.
      * intros Hl. apply NoDup_cons in Hl as [_ Hl].
        rewrite filter_cons, (Hfilter Hl).
        destruct (decide _) as [[_ Hno] | _]; [contradiction | reflexivity].
    + apply bool_decide_eq_true in Hin. apply bool_decide_eq_false in Hused.
      rewrite elem_of_list_to_set in Hused.
      assert (Hnd1 : NoDup (result ++ [x])).
      { apply NoDup_app. split; [exact Hnd |]. split; [| apply NoDup_singleton].
        intros y Hy ->%list_elem_of_singleton. contradiction. }
      destruct (IH (result ++ [x]) Hnd1)
        as (ordered & Hfold & Hsub & Hnd' & Hmem & Hfilter).
      exists (x :: ordered).
      replace ({[x]} ∪ list_to_set result : gset string)
        with (list_to_set (result ++ [x]) : gset string)
        by (apply set_eq; intros y;
            rewrite elem_of_union, !elem_of_list_to_set, elem_of_app,
              list_elem_of_singleton, elem_of_singleton; tauto).
      rewrite <- (List.app_assoc result [x] ordered) in Hfold, Hnd'.
      cbn [app] in Hfold, Hnd'.
      split; [exact Hfold |]. split; [apply sublist_skip, Hsub |].
      split; [exact Hnd' |]. split.
      * intros f. rewrite !elem_of_cons, Hmem, elem_of_app, list_elem_of_singleton.
        split.
        -- intros [-> | (Hf & Hset & Hres)]; [tauto |]. tauto.
        -- intros ([-> | Hf] & Hset & Hres); [tauto |].
           destruct (decide (f = x)); tauto.
      * intros Hl. apply NoDup_cons in Hl as [Hx Hl].
        rewrite filter_cons, (Hfilter Hl).
        destruct (decide _) as [_ | Hno]; [| tauto]. f_equal.
        apply filter_agree. intros y Hy.
        rewrite elem_of_app, list_elem_of_singleton.
        split; [tauto |]. intros [Hset Hres]. split; [exact Hset |].
        intros [? | ->]; tauto.
    + apply bool_decide_eq_false in Hin.
      destruct (IH result Hnd) as (ordered & Hfold & Hsub & Hnd' & Hmem & Hfilter).
      exists ordered. split; [exact Hfold |].
      split; [apply sublist_cons, Hsub |]. split; [exact Hnd' |]. split.
      * intros f. rewrite Hmem, elem_of_cons. split; [tauto |].
        intros ([-> | Hf] & Hset & Hres); tauto.
      * intros Hl. apply NoDup_cons in Hl as [_ Hl].
        rewrite filter_cons, (Hfilter Hl).
        destruct (decide _) as [[Hyes _] | _]; [contradiction | reflexivity].
Qed.

(** The second loop of [parseFileOrder]. *)
Lemma foldl_remaining (used : gset string) (files result : list string) :
  foldl (fun result file =>
           if negb (bool_decide (file ∈ used)) then result ++ [file] else result)
        result files
  = result ++ filter (fun file => file ∉ used) files.
Proof.
  revert result. induction files as [|file files IH]; intros result; cbn [foldl].
  - rewrite app_nil_r. reflexivity.
  - rewrite IH, filter_cons.
    destruct (decide (file ∉ used)) as [Hfree | Hused].
    + rewrite bool_decide_eq_false_2 by exact Hfree. cbn [negb].
      rewrite <- List.app_assoc. reflexivity.
    + rewrite bool_decide_eq_true_2 by (destruct (decide (file ∈ used)); tauto).
      reflexivity.
Qed.

Section order.

Variable TrimSpace : string -> string.

(** [parseFileOrder] with an order, in closed form. *)
Lemma parseFileOrder_closed (files : list string) (orderSpec : string) :
  orderSpec <> "" ->
  let customOrder := TrimSpace <$> gostrings.Split orderSpec "," in
  exists ordered,
    main.parseFileOrder TrimSpace files orderSpec
    = ordered ++ filter (fun file => file ∉ customOrder) files
    /\ sublist ordered customOrder
    /\ NoDup ordered
    /\ (forall f, f ∈ ordered <-> f ∈ customOrder /\ f ∈ files)
    /\ (NoDup customOrder ->
        ordered = filter (fun f => f ∈ files) customOrder).
Proof.
  intros Hspec customOrder. unfold main.parseFileOrder.
  rewrite bool_decide_eq_false_2 by exact Hspec. fold customOrder.
  destruct (foldl_takeOrdered (list_to_set files) customOrder [] (NoDup_nil_2))
    as (ordered & Hfold & Hsub & Hnd & Hmem & Hfilter).
  change (list_to_set [] : gset string) with (∅ : gset string) in Hfold.
  rewrite Hfold. cbn [app] in *. rewrite foldl_remaining.
  exists ordered. split.
  { f_equal. apply filter_agree. intros f Hf.
    rewrite elem_of_list_to_set, Hmem, elem_of_list_to_set.
    pose proof (not_elem_of_nil f). tauto. }
  split; [exact Hsub |]. split; [exact Hnd |]. split.
  - intros f. rewrite Hmem, elem_of_list_to_set, elem_of_nil. tauto.
  - intros Hc. rewrite (Hfilter Hc). apply filter_agree. intros f _.
    rewrite elem_of_list_to_set, elem_of_nil. tauto.
Qed.

Lemma parseFileOrder_elem (files : list string) (orderSpec f : string) :
  f ∈ main.parseFileOrder TrimSpace files orderSpec <-> f ∈ files.
Proof.
  destruct (decide (orderSpec = "")) as [-> | Hspec]; [reflexivity |].
  destruct (parseFileOrder_closed files orderSpec Hspec)
    as (ordered & -> & _ & _ & Hmem & _).
  rewrite elem_of_app, Hmem, list_elem_of_filter.
  destruct (decide (f ∈ TrimSpace <$> gostrings.Split orderSpec ",")); tauto.
Qed.

(** X15. The names returned by [parseFileOrder] are the input files: a name
    of the order that is not an input file is dropped, and an input file the
    order does not name is kept. *)
Theorem parseFileOrder_members (files : list string) (orderSpec f : string) :
  f ∈ main.parseFileOrder TrimSpace files orderSpec <-> f ∈ files.
Proof. apply parseFileOrder_elem. Qed.

(** X16. When no input file is listed twice, [parseFileOrder] returns a
    rearrangement of the input files: none is lost and none is repeated,
    whatever the order says. *)
Theorem parseFileOrder_permutation (files : list string) (orderSpec : string) :
  NoDup files ->
  main.parseFileOrder TrimSpace files orderSpec ≡ₚ files.
Proof.
  intros Hfiles.
  apply NoDup_Permutation; [| exact Hfiles | intros f; apply parseFileOrder_elem].
  destruct (decide (orderSpec = "")) as [-> | Hspec]; [exact Hfiles |].
  destruct (parseFileOrder_closed files orderSpec Hspec)
    as (ordered & -> & _ & Hnd & Hmem & _).
  apply NoDup_app. split; [exact Hnd |]. split; [| apply NoDup_filter, Hfiles].
  intros f Hf. rewrite list_elem_of_filter. apply Hmem in Hf. tauto.
Qed.

(** X17. With a non-empty order, [parseFileOrder] returns first the names of
    the order (split at commas, each trimmed) that are input files, in the
    order's sequence and each once, then the input files the order does not
    name, in their input sequence. When the order names nothing twice, the
    first part is the order restricted to the input files. *)
Theorem parseFileOrder_order (files : list string) (orderSpec : string) :
  orderSpec <> "" ->
  let customOrder := TrimSpace <$> gostrings.Split orderSpec "," in
  exists ordered,
    main.parseFileOrder TrimSpace files orderSpec
    = ordered ++ filter (fun file => file ∉ customOrder) files
    /\ sublist ordered customOrder
    /\ NoDup ordered
    /\ (forall f, f ∈ ordered <-> f ∈ customOrder /\ f ∈ files)
    /\ (NoDup customOrder ->
        ordered = filter (fun f => f ∈ files) customOrder).
Proof. apply parseFileOrder_closed. Qed.

End order.

Section arguments.

Variable notExist : string -> bool.
Variable TrimSpace : string -> string.

Lemma validateArgs_iff (files : list string) (output : string) :
  main.validateArgs notExist files output = Returns tt
  <-> files <> [] /\ files <> [""] /\ output <> ""
      /\ Forall (fun file => file <> "" -> notExist file = false) files.
Proof.
  assert (Hloop : forall l,
    foldM (fun (_ : unit) file =>
             if bool_decide (file = "") then Returns tt
             else if notExist file then Fails ("file not found: " +:+ file)
             else Returns tt) tt l = Returns tt
    <-> Forall (fun file => file <> "" -> notExist file = false) l).
  { induction l as [|f l IH]; [split; [constructor | reflexivity] |].
    rewrite Forall_cons, <- IH, foldM_cons.
    destruct (decide (f = "")) as [Hf | Hf].
    - rewrite bool_decide_eq_true_2 by exact Hf. cbn. tauto.
    - rewrite bool_decide_eq_false_2 by exact Hf.
      destruct (notExist f); cbn; [| tauto].
      split; [discriminate | intros [Hf' _]; specialize (Hf' Hf); discriminate]. }
  unfold main.validateArgs.
  destruct (decide (output = "")) as [Hout | Hout].
  - rewrite (bool_decide_eq_true_2 _ Hout).
    destruct (_ || _); (split; [discriminate | tauto]).
  - rewrite (bool_decide_eq_false_2 _ Hout).
    destruct files as [|file [|file' files]].
    + cbn. split; [discriminate | tauto].
    + change (default "" ([file] !! 0%nat)) with file.
      cbn [length Nat.eqb orb andb].
      destruct (decide (file = "")) as [Hfile | Hfile].
      * rewrite (bool_decide_eq_true_2 _ Hfile). subst file.
        split; [discriminate | tauto].
      * rewrite (bool_decide_eq_false_2 _ Hfile). cbn [orb andb].
        rewrite Hloop. split; [| tauto]. intros Hall.
        repeat split; try assumption; congruence.
    + cbn [length Nat.eqb orb andb]. rewrite Hloop.
      split; [| tauto]. intros Hall.
      repeat split; try assumption; discriminate.
Qed.

(** X18. [validateArgs] accepts its arguments exactly when there is an input
    file, the input is not the single empty name, the output name is not
    empty, and for no input file with a non-empty name [os.Stat] fails with
    a not-exist error: empty names among several are skipped, and so is a
    file on which [os.Stat] fails in another way. *)
Theorem validateArgs_accepts (files : list string) (output : string) :
  main.validateArgs notExist files output = Returns tt
  <-> files <> [] /\ files <> [""] /\ output <> ""
      /\ Forall (fun file => file <> "" -> notExist file = false) files.
Proof. apply validateArgs_iff. Qed.

(** X19. Once [validateArgs] has accepted the input files, the sequence
    [parseFileOrder] hands to the loader is not empty and for none of its
    non-empty names [os.Stat] fails with a not-exist error, whatever the
    order says. *)
Theorem validated_order_exists (files : list string) (output orderSpec : string) :
  main.validateArgs notExist files output = Returns tt ->
  main.parseFileOrder TrimSpace files orderSpec <> []
  /\ Forall (fun file => file <> "" -> notExist file = false)
       (main.parseFileOrder TrimSpace files orderSpec).
Proof.
  intros (Hne & _ & _ & Hall)%validateArgs_iff. split.
  - destruct files as [|file files]; [contradiction |].
    intros Hnil. assert (Hin : file ∈ file :: files) by (rewrite elem_of_cons; auto).
    apply (parseFileOrder_elem TrimSpace (file :: files) orderSpec) in Hin.
    rewrite Hnil in Hin. apply elem_of_nil in Hin. exact Hin.
  - apply Forall_forall. intros f Hf%parseFileOrder_elem.
    rewrite Forall_forall in Hall. apply Hall, Hf.
Qed.

End arguments.

(** * Loading and validating *)

Lemma foldM_unit_Forall {A : Type} (body : A -> outcome unit) (l : list A) :
  foldM (fun _ a => body a) tt l = Returns tt
  <-> Forall (fun a => body a = Returns tt) l.
Proof.
  induction l as [|a l IH]; [split; [constructor | reflexivity] |].
  rewrite Forall_cons, <- IH, foldM_cons.
  destruct (body a) as [[] | err |]; cbn; [tauto | |];
    (split; [discriminate | intros [? _]; discriminate]).
Qed.

Lemma validSection_accepts (name : string) (section : Section.t) :
  validSection name section = Returns tt
  <-> Type_ (Section.Priority section) = PriorityNone
      \/ 0 <= Value (Section.Priority section).
Proof.
  unfold validSection. case_bool_decide as Hkind; cbn [negb andb].
  - split; [tauto | reflexivity].
  - destruct (Z.ltb_spec (Value (Section.Priority section)) 0).
    + split; [discriminate | intros [? | ?]; [contradiction | lia]].
    + split; [tauto | reflexivity].
Qed.

Section validate.

Variable range : forall V : Type, gmap string V -> list (string * V).
Hypothesis range_perm :
  forall (V : Type) (m : gmap string V), range V m ≡ₚ map_to_list m.

Lemma ValidateConfig_iff (cfg : Config.t) :
  ValidateConfig range cfg = Returns tt
  <-> Metadata.Title (Config.Metadata cfg) <> ""
      /\ gomap.entries (Config.Sections cfg) <> ∅
      /\ map_Forall (fun _ section =>
                       Type_ (Section.Priority section) = PriorityNone
                       \/ 0 <= Value (Section.Priority section))
           (gomap.entries (Config.Sections cfg)).
Proof.
  unfold ValidateConfig. case_bool_decide as Htitle; [split; [discriminate | tauto] |].
  destruct (Nat.eqb_spec (size (gomap.entries (Config.Sections cfg))) 0) as [Hsize | Hsize].
  { apply map_size_empty_iff in Hsize. split; [discriminate | tauto]. }
  rewrite map_size_empty_iff in Hsize.
  rewrite (foldM_unit_Forall (fun '(name, section) => validSection name section)).
  rewrite range_perm, map_Forall_to_list.
  split.
  - intros Hall. split; [exact Htitle |]. split; [exact Hsize |].
    eapply Forall_impl; [exact Hall |]. intros [name section] Hvalid.
    apply validSection_accepts in Hvalid. exact Hvalid.
  - intros (_ & _ & Hall).
    eapply Forall_impl; [exact Hall |]. intros [name section] Hvalid.
    apply validSection_accepts. exact Hvalid.
Qed.

(** X20. For every order in which the sections are visited, [ValidateConfig]
    accepts a document exactly when its title is not empty, it has a section,
    and every section has the kind none or a magnitude that is not negative:
    a negative magnitude is accepted under the kind none. *)
Theorem ValidateConfig_accepts (cfg : Config.t) :
  ValidateConfig range cfg = Returns tt
  <-> Metadata.Title (Config.Metadata cfg) <> ""
      /\ gomap.entries (Config.Sections cfg) <> ∅
      /\ map_Forall (fun _ section =>
                       Type_ (Section.Priority section) = PriorityNone
                       \/ 0 <= Value (Section.Priority section))
           (gomap.entries (Config.Sections cfg)).
Proof. apply ValidateConfig_iff. Qed.

End validate.

Lemma genSplit_unterminated (rest : string) :
  ~ occurs "---" rest ->
  gostrings.SplitN ("---" +:+ rest) "---" 3 = [""; rest].
Proof.
  intros Hno. unfold gostrings.SplitN. cbn [gostrings.genSplit].
  assert (Hfirst : gostrings.index_nat ("---" +:+ rest) "---" = Some 0%nat).
  { apply index_nat_Some. split; [| intros j Hj; lia].
    apply occurs_at_0, prefix_app. exists rest. reflexivity. }
  rewrite Hfirst. cbn [gostrings.take Nat.add].
  change (String.length "---") with 3%nat.
  change (gostrings.drop 3 ("---" +:+ rest)) with rest.
  apply index_nat_None in Hno. rewrite Hno. reflexivity.
Qed.

Section parse_facts.

Variable ReadFile : string -> outcome string.
Variable toml_Unmarshal : string -> Config.t -> outcome Config.t.
Variable yaml_Unmarshal : string -> Config.t -> outcome Config.t.
Variable yaml_Unmarshal_map : string -> outcome (list (string * any)).
Variable TrimSpace : string -> string.
Variable ToLower : string -> string.
Variable range : forall V : Type, gmap string V -> list (string * V).
Hypothesis range_perm :
  forall (V : Type) (m : gmap string V), range V m ≡ₚ map_to_list m.

Lemma parseMarkdown_plain (data : string) :
  gostrings.HasPrefix data "---" = false ->
  parseMarkdown yaml_Unmarshal_map TrimSpace ToLower data
  = Returns
      (Config.mk (Metadata.set_Title "Untitled Document" Metadata.zero)
         (Some {["content" := contentSection (TrimSpace data)]})
         None None "" 0).
Proof.
  intros Hplain. unfold parseMarkdown. rewrite Hplain.
  unfold setContentSection. cbn.
  rewrite insert_empty. reflexivity.
Qed.

(** X21. A Markdown text that does not begin with [---] always parses, to a
    document titled "Untitled Document" whose only section is "content",
    holding the trimmed text at the zero priority; this document passes
    [ValidateConfig], even when the text is empty. *)
Theorem plain_markdown_validates (data : string) :
  gostrings.HasPrefix data "---" = false ->
  exists cfg,
    ParseConfig toml_Unmarshal yaml_Unmarshal yaml_Unmarshal_map TrimSpace ToLower
      data FormatMarkdown = Returns cfg
    /\ Config.Metadata cfg = Metadata.set_Title "Untitled Document" Metadata.zero
    /\ Config.Sections cfg
       = Some {["content" := contentSection (TrimSpace data)]}
    /\ ValidateConfig range cfg = Returns tt.
Proof.
  intros Hplain. unfold ParseConfig.
  rewrite bool_decide_eq_false_2 by discriminate.
  rewrite bool_decide_eq_false_2 by discriminate.
  rewrite bool_decide_eq_true_2 by reflexivity.
  rewrite (parseMarkdown_plain _ Hplain). cbn [wrap]. rewrite bind_Returns.
  eexists. split; [reflexivity |]. split; [reflexivity |]. split; [reflexivity |].
  apply (ValidateConfig_iff range range_perm). cbn.
  split; [discriminate |]. split.
  - apply insert_non_empty.
  - apply map_Forall_singleton. left. reflexivity.
Qed.

(** X22. A Markdown text that begins with [---] and has no second [---]
    parses without error to a document with no title, no metadata and no
    section: the text is dropped, whatever the front-matter decoder would
    answer. *)
Theorem unterminated_frontmatter_dropped (rest : string) :
  ~ occurs "---" rest ->
  ParseConfig toml_Unmarshal yaml_Unmarshal yaml_Unmarshal_map TrimSpace ToLower
    ("---" +:+ rest) FormatMarkdown
  = Returns (Config.mk Metadata.zero (Some ∅) (Some ∅) (Some ∅) "" FormatMarkdown).
Proof.
  intros Hno. unfold ParseConfig.
  rewrite bool_decide_eq_false_2 by discriminate.
  rewrite bool_decide_eq_false_2 by discriminate.
  rewrite bool_decide_eq_true_2 by reflexivity.
  unfold parseMarkdown.
  assert (gostrings.HasPrefix ("---" +:+ rest) "---" = true) as ->
    by (apply prefix_app; exists rest; reflexivity).
  rewrite (genSplit_unterminated _ Hno). reflexivity.
Qed.

Lemma ParseConfig_returns (data : string) (format : FileFormat) (cfg : Config.t) :
  ParseConfig toml_Unmarshal yaml_Unmarshal yaml_Unmarshal_map TrimSpace ToLower
    data format = Returns cfg ->
  maps_non_nil cfg
  /\ Config.SourceFormat cfg = format
  /\ (format = FormatTOML \/ format = FormatYAML \/ format = FormatMarkdown).
Proof.
  unfold ParseConfig.
  destruct (decide (format = FormatTOML)) as [Ht | Ht];
    [| destruct (decide (format = FormatYAML)) as [Hy | Hy];
       [| destruct (decide (format = FormatMarkdown)) as [Hm | Hm]]].
  4: { rewrite !bool_decide_eq_false_2 by assumption. discriminate. }
  all: match goal with
       | |- (?decoded ≫= _) = _ -> _ => destruct decoded as [parsed | err |]
       end; [| discriminate | discriminate];
    rewrite bind_Returns; intros [= <-];
    (split; [destruct parsed as [md [gs|] [gp|] [gt|] file fmt]; repeat split |]);
    (split; [destruct (gomap.is_nil _), (gomap.is_nil _), (gomap.is_nil _); reflexivity |]);
    tauto.
Qed.

(** X23. A document returned by [LoadConfig] carries the file name it was
    loaded from and the syntax [DetectFormat] found for that name, which is
    one of the three supported ones, and its three maps are allocated. *)
Theorem LoadConfig_loaded (filename : string) (cfg : Config.t) :
  LoadConfig ReadFile toml_Unmarshal yaml_Unmarshal yaml_Unmarshal_map
    TrimSpace ToLower filename = Returns cfg ->
  Config.SourceFile cfg = filename
  /\ DetectFormat ToLower filename = Returns (Config.SourceFormat cfg)
  /\ (Config.SourceFormat cfg = FormatTOML
      \/ Config.SourceFormat cfg = FormatYAML
      \/ Config.SourceFormat cfg = FormatMarkdown)
  /\ maps_non_nil cfg.
Proof.
  unfold LoadConfig.
  destruct (ReadFile filename) as [data | err |]; [| discriminate | discriminate].
  destruct (DetectFormat ToLower filename) as [format | err |];
    [| discriminate | discriminate].
  rewrite bind_Returns.
  destruct (ParseConfig toml_Unmarshal yaml_Unmarshal yaml_Unmarshal_map TrimSpace ToLower data format) as [parsed | err |] eqn:Hparsed;
    [| discriminate | discriminate].
  intros [= <-]. apply ParseConfig_returns in Hparsed as (Hmaps & _ & Hformat).
  split; [reflexivity |]. split; [reflexivity |]. split; [exact Hformat |].
  exact Hmaps.
Qed.

(** X24. [LoadConfig] fails in three ways only, tried in this order: the
    file cannot be read (also when its extension is not supported), the
    extension is not supported (the error of [DetectFormat], unwrapped), or
    the text does not parse. *)
Theorem LoadConfig_fails (filename msg : string) :
  LoadConfig ReadFile toml_Unmarshal yaml_Unmarshal yaml_Unmarshal_map
    TrimSpace ToLower filename = Fails msg
  <-> (exists err,
         ReadFile filename = Fails err
         /\ msg = "failed to read file " +:+ filename +:+ ": " +:+ err)
      \/ (exists data,
            ReadFile filename = Returns data
            /\ DetectFormat ToLower filename = Fails msg
            /\ msg = "unsupported file format for " +:+ filename)
      \/ (exists data format err,
            ReadFile filename = Returns data
            /\ DetectFormat ToLower filename = Returns format
            /\ ParseConfig toml_Unmarshal yaml_Unmarshal yaml_Unmarshal_map
                 TrimSpace ToLower data format = Fails err
            /\ msg = "failed to parse " +:+ filename +:+ ": " +:+ err).
Proof.
  unfold LoadConfig.
  destruct (ReadFile filename) as [data | err |].
  - destruct (DetectFormat ToLower filename) as [format | err |] eqn:Hformat.
    + rewrite bind_Returns.
      destruct (ParseConfig _ _ _ _ _ data format) as [parsed | err |] eqn:Hparse.
      * split; [discriminate |].
        intros [(err & [=] & _)
               | [(d & _ & [=] & _) | (d & f & err & [= <-] & [= <-] & Hp & _)]].
        congruence.
      * split.
        -- intros [= <-]. right. right. exists data, format, err. auto.
        -- intros [(e & [=] & _)
                  | [(d & _ & [=] & _) | (d & f & e & [= <-] & [= <-] & Hp & ->)]].
           congruence.
      * split; [discriminate |].
        intros [(err & [=] & _)
               | [(d & _ & [=] & _) | (d & f & err & [= <-] & [= <-] & Hp & _)]].
        congruence.
    + cbn. split.
      * intros [= <-]. right. left. exists data. split; [reflexivity |].
        split; [reflexivity |]. unfold DetectFormat in Hformat.
        destruct (gostrings.HasSuffix _ ".toml"); [discriminate |].
        destruct (_ || _); [discriminate |].
        destruct (_ || _); [discriminate |]. congruence.
      * intros [(e & [=] & _) | [(d & _ & [= <-] & _) | (d & f & e & _ & [=] & _)]].
        reflexivity.
    + cbn. split; [discriminate |].
      intros [(e & [=] & _) | [(d & _ & [=] & _) | (d & f & e & _ & [=] & _)]].
  - split.
    + intros [= <-]. left. exists err. auto.
    + intros [(e & [= <-] & ->) | [(d & [=] & _) | (d & f & e & [=] & _)]].
      reflexivity.
  - split; [discriminate |].
    intros [(e & [=] & _) | [(d & [=] & _) | (d & f & e & [=] & _)]].
Qed.

End parse_facts.

(** * The replacement texts of the template mode *)

Lemma foldl_snd {A B C : Type} (f : A -> C -> A) (a : A) (l : list (B * C)) :
  foldl (fun a '(_, c) => f a c) a l = foldl f a (snd <$> l).
Proof.
  revert a. induction l as [|[b c] l IH]; intros a; [reflexivity |].
  cbn. apply IH.
Qed.

Lemma last_filter_cons {A : Type} (P : A -> Prop) `{!forall x, Decision (P x)}
    (x : A) (l : list A) :
  last (filter P (x :: l))
  = match last (filter P l) with
    | Some y => Some y
    | None => if decide (P x) then Some x else None
    end.
Proof.
  rewrite filter_cons. destruct (decide (P x)); [| destruct (last _); reflexivity].
  destruct (filter P l) as [|y k]; [reflexivity |].
  rewrite last_cons. destruct (last (y :: k)) eqn:Hlast; [reflexivity |].
  apply last_None in Hlast. discriminate.
Qed.

Section replacements.

Variable TrimSpace : string -> string.
Variable range : forall V : Type, gmap string V -> list (string * V).

Lemma collectReplacements_visited (configs : list ConfigPtr) :
  collectReplacements TrimSpace range configs
  = foldl (collectFrom TrimSpace) ∅ (visited range configs).
Proof.
  unfold collectReplacements, visited. generalize (∅ : gmap string string).
  induction configs as [|cfg configs IH]; intros r; [reflexivity |].
  cbn [foldl fmap list_fmap concat]. rewrite foldl_app, IH, foldl_snd. reflexivity.
Qed.

Lemma collectFrom_test (r : gmap string string) (s : Section.t) :
  collectFrom TrimSpace r s !! "test-commands"
  = if containsTestCommands (Section.Content s)
    then Some (extractTestCommands (Section.Content s))
    else r !! "test-commands".
Proof.
  unfold collectFrom.
  destruct (containsDocumentationStandards _);
    [rewrite lookup_insert_ne by discriminate |];
    (destruct (containsTestCommands _); [apply lookup_insert_eq | reflexivity]).
Qed.

Lemma collectFrom_doc (r : gmap string string) (s : Section.t) :
  collectFrom TrimSpace r s !! "documentation-standards"
  = if containsDocumentationStandards (Section.Content s)
    then Some (extractDocumentationStandards TrimSpace (Section.Content s))
    else r !! "documentation-standards".
Proof.
  unfold collectFrom.
  destruct (containsDocumentationStandards _); [apply lookup_insert_eq |].
  destruct (containsTestCommands _);
    [rewrite lookup_insert_ne by discriminate |]; reflexivity.
Qed.

Lemma foldl_collectFrom_last (key : string) (has : string -> bool)
    (extract : string -> string) (l : list Section.t) :
  (forall r s,
     collectFrom TrimSpace r s !! key
     = if has (Section.Content s) then Some (extract (Section.Content s))
       else r !! key) ->
  forall r,
    foldl (collectFrom TrimSpace) r l !! key
    = match last (filter (fun s => has (Section.Content s) = true) l) with
      | Some s => Some (extract (Section.Content s))
      | None => r !! key
      end.
Proof.
  intros Hstep. induction l as [|s l IH]; intros r; [reflexivity |].
  cbn [foldl]. rewrite IH, last_filter_cons, Hstep.
  destruct (last (filter _ l)); [reflexivity |].
  destruct (decide _) as [-> | Hno]; [reflexivity |].
  destruct (has _); [contradiction | reflexivity].
Qed.

(** X25. The text put in place of a placeholder block is extracted from the
    last section visited, over all documents in sequence, whose content
    holds the marker words; the priorities play no part, and neither does
    the language of the document. It is empty when no section holds them. *)
Theorem collected_text_last (configs : list ConfigPtr) :
  at_key (collectReplacements TrimSpace range configs) "test-commands"
  = default ""
      (extractTestCommands ∘ Section.Content
         <$> last (filter (fun s => containsTestCommands (Section.Content s) = true)
                     (visited range configs)))
  /\ at_key (collectReplacements TrimSpace range configs) "documentation-standards"
     = default ""
         (extractDocumentationStandards TrimSpace ∘ Section.Content
            <$> last (filter (fun s =>
                                containsDocumentationStandards (Section.Content s)
                                = true)
                        (visited range configs))).
Proof.
  unfold at_key. rewrite collectReplacements_visited. split.
  - rewrite (foldl_collectFrom_last "test-commands" containsTestCommands
               extractTestCommands _ collectFrom_test).
    destruct (last _); reflexivity.
  - rewrite (foldl_collectFrom_last "documentation-standards"
               containsDocumentationStandards
               (extractDocumentationStandards TrimSpace) _ collectFrom_doc).
    destruct (last _); reflexivity.
Qed.

End replacements.

(** X26. In standard mode the merged document does not depend on the order
    in which Go visits the entries of a map, nor on [strings.TrimSpace]. *)
Theorem standard_order_independent
    (TrimSpace1 TrimSpace2 : string -> string)
    (range1 range2 : forall V : Type, gmap string V -> list (string * V))
    (configs : list ConfigPtr) :
  (forall (V : Type) (m : gmap string V), range1 V m ≡ₚ map_to_list m) ->
  (forall (V : Type) (m : gmap string V), range2 V m ≡ₚ map_to_list m) ->
  standardMode configs ->
  MergeAll TrimSpace1 range1 configs = MergeAll TrimSpace2 range2 configs.
Proof.
  intros Hperm1 Hperm2 Hstd.
  rewrite (MergeAll_standard_closed TrimSpace1 range1 Hperm1 _ Hstd),
    (MergeAll_standard_closed TrimSpace2 range2 Hperm2 _ Hstd).
  reflexivity.
Qed.

(** * Extraction of the test commands *)

Lemma Contains_occurs (s t : string) :
  gostrings.Contains s t = true <-> occurs t s.
Proof.
  unfold gostrings.Contains.
  destruct (Index_cases s t) as [[Hno ->] | (i & [Hi _] & ->)].
  - split; [discriminate | contradiction].
  - split; [intros _; exists i; exact Hi | intros _; apply Z.leb_le; lia].
Qed.

Lemma occurs_app (t pre s post : string) :
  occurs t s -> occurs t (pre +:+ s +:+ post).
Proof.
  intros (i & a & b & -> & _). exists (String.length (pre +:+ a)), (pre +:+ a), (b +:+ post).
  split; [| reflexivity]. rewrite !app_assoc. reflexivity.
Qed.

Lemma take_drop (n : nat) (s : string) :
  s = gostrings.take n s +:+ gostrings.drop n s.
Proof.
  revert s. induction n as [|n IH]; intros [|c s]; try reflexivity.
  cbn [gostrings.take gostrings.drop]. rewrite app_cons, <- IH. reflexivity.
Qed.

Lemma app_nil_r (s : string) : s +:+ "" = s.
Proof. induction s as [|c s IH]; [reflexivity |]. rewrite app_cons, IH. reflexivity. Qed.

Lemma occurs_take (t : string) (n : nat) (s : string) :
  occurs t (gostrings.take n s) -> occurs t s.
Proof.
  intros Hocc. rewrite (take_drop n s).
  apply (occurs_app t "" _ (gostrings.drop n s)) in Hocc. exact Hocc.
Qed.

Lemma occurs_drop (t : string) (n : nat) (s : string) :
  occurs t (gostrings.drop n s) -> occurs t s.
Proof.
  intros Hocc. rewrite (take_drop n s).
  apply (occurs_app t (gostrings.take n s) _ "") in Hocc.
  rewrite app_nil_r in Hocc. exact Hocc.
Qed.

(** Every piece of a split is a part of the text. *)
Lemma genSplit_occurs (t sep : string) (cuts : nat) (s piece : string) :
  piece ∈ gostrings.genSplit s sep cuts -> occurs t piece -> occurs t s.
Proof.
  revert s. induction cuts as [|cuts IH]; intros s; cbn [gostrings.genSplit].
  - intros ->%list_elem_of_singleton. tauto.
  - destruct (gostrings.index_nat s sep) as [m|].
    + rewrite elem_of_cons. intros [-> | Hin] Hocc.
      * eapply occurs_take, Hocc.
      * eapply occurs_drop, IH; eassumption.
    + intros ->%list_elem_of_singleton. tauto.
Qed.

Lemma heading_occurs (line : string) :
  gostrings.Contains line "Testing commands"
  || gostrings.Contains line "### Testing commands" = true
  <-> occurs "Testing commands" line.
Proof.
  rewrite orb_true_iff, !Contains_occurs. split; [| tauto].
  intros [Hocc | (i & a & b & -> & _)]; [exact Hocc |].
  exists (String.length (a +:+ "### ")), (a +:+ "### "), b.
  split; [rewrite app_assoc; reflexivity | reflexivity].
Qed.

Lemma extractTestCommands_loop_kept (lines : list string) :
  forall (inTestSection : bool) (result : list string),
  exists kept,
    extractTestCommands_loop lines inTestSection result = result ++ kept
    /\ sublist kept lines
    /\ Forall (fun line => line <> "" /\ ~ occurs "Testing commands" line) kept
    /\ (inTestSection = false ->
        Forall (fun line => ~ occurs "Testing commands" line) lines ->
        kept = []).
Proof.
  induction lines as [|line lines IH]; intros inTestSection result.
  { exists []. rewrite List.app_nil_r. split; [reflexivity |].
    split; [constructor |]. split; [constructor | reflexivity]. }
  cbn [extractTestCommands_loop].
  destruct (_ || _) eqn:Hheading.
  - destruct (IH true result) as (kept & -> & Hsub & Hall & _).
    exists kept. split; [reflexivity |]. split; [apply sublist_cons, Hsub |].
    split; [exact Hall |]. intros _ Hnone. apply Forall_cons in Hnone as [Hline _].
    apply heading_occurs in Hheading. contradiction.
  - assert (Hline : ~ occurs "Testing commands" line).
    { intros Hocc%heading_occurs. congruence. }
    assert (Hdone : exists kept : list string,
              result = result ++ kept /\ sublist kept (line :: lines)
              /\ Forall (fun line => line <> "" /\ ~ occurs "Testing commands" line) kept
              /\ (inTestSection = false ->
                  Forall (fun line => ~ occurs "Testing commands" line) (line :: lines) ->
                  kept = [])).
    { exists []. rewrite List.app_nil_r. split; [reflexivity |].
      split; [apply sublist_nil_l |]. split; [constructor | reflexivity]. }
    assert (Hskip : forall b, (inTestSection = false -> b = false) ->
              exists kept : list string,
                extractTestCommands_loop lines b result = result ++ kept
                /\ sublist kept (line :: lines)
                /\ Forall (fun line => line <> "" /\ ~ occurs "Testing commands" line) kept
                /\ (inTestSection = false ->
                    Forall (fun line => ~ occurs "Testing commands" line) (line :: lines) ->
                    kept = [])).
    { intros b Hb. destruct (IH b result) as (kept & -> & Hsub & Hall & Hnone).
      exists kept. split; [reflexivity |]. split; [apply sublist_cons, Hsub |].
      split; [exact Hall |]. intros Hout Hlines.
      apply Forall_cons in Hlines as [_ Hlines].
      apply Hnone; auto. }
    destruct inTestSection.
    + destruct (_ && _); [exact Hdone |].
      destruct (_ && _); [exact Hdone |].
      case_bool_decide as Hempty; cbn [negb]; [apply (Hskip true); discriminate |].
      destruct (IH true (result ++ [line])) as (kept & -> & Hsub & Hall & _).
      exists (line :: kept). rewrite <- List.app_assoc. split; [reflexivity |].
      split; [apply sublist_skip, Hsub |].
      split; [constructor; [split; assumption | exact Hall] |].
      discriminate.
    + apply (Hskip false). reflexivity.
Qed.

(** X27. [extractTestCommands] returns lines of the content, in their order,
    joined by line feeds: none of them is empty and none holds the words
    "Testing commands"; when these words do not occur in the content, it
    returns the empty string. *)
Theorem extractTestCommands_lines (content : string) :
  exists kept,
    extractTestCommands content = gostrings.Join kept gostrings.nl
    /\ sublist kept (gostrings.Split content gostrings.nl)
    /\ Forall (fun line => line <> "" /\ ~ occurs "Testing commands" line) kept
    /\ (~ occurs "Testing commands" content -> extractTestCommands content = "").
Proof.
  unfold extractTestCommands.
  destruct (extractTestCommands_loop_kept
              (gostrings.Split content gostrings.nl) false [])
    as (kept & Hloop & Hsub & Hall & Hnone).
  rewrite Hloop. cbn [app]. exists kept. split; [reflexivity |].
  split; [exact Hsub |]. split; [exact Hall |].
  intros Hno. rewrite Hnone; [reflexivity | reflexivity |].
  apply Forall_forall. intros line Hline Hocc. apply Hno.
  eapply genSplit_occurs; eassumption.
Qed.

(** * The priority kinds as text *)

Lemma UnmarshalText_iff (ToLower : string -> string) (text : string)
    (pt : PriorityType) :
  UnmarshalText ToLower text = Returns pt
  <-> ToLower text = MarshalText pt
      \/ (ToLower text = "" /\ pt = PriorityNone).
Proof.
  unfold UnmarshalText. generalize (ToLower text). intros lowered.
  repeat case_bool_decide; cbn [orb]; subst;
    (split;
     [ intros [= <-]; cbn; auto
     | intros [Heq | [Heq Hpt]]; destruct pt; cbn in *; congruence ]).
Qed.

(** X28. [UnmarshalText] returns a kind for a text exactly when the text put
    in lower case is what [MarshalText] writes for that kind, or is empty
    and the kind is none. When [strings.ToLower] leaves the three words
    that [MarshalText] writes as they are, the text [MarshalText] writes for
    a kind is read back as that kind. *)
Theorem UnmarshalText_accepts (ToLower : string -> string) :
  (forall (text : string) (pt : PriorityType),
     UnmarshalText ToLower text = Returns pt
     <-> ToLower text = MarshalText pt
         \/ (ToLower text = "" /\ pt = PriorityNone))
  /\ ((forall pt : PriorityType, ToLower (MarshalText pt) = MarshalText pt) ->
      forall pt : PriorityType,
        UnmarshalText ToLower (MarshalText pt) = Returns pt).
Proof.
  split; [intros text pt; apply UnmarshalText_iff |].
  intros Hfixed pt. apply UnmarshalText_iff. left. apply Hfixed.
Qed.

(** * Section names *)

Lemma occurs_cons (t : string) (c : ascii) (s : string) :
  occurs t (String c s) <-> String.prefix t (String c s) = true \/ occurs t s.
Proof.
  split.
  - intros [[|i] Hi]; [left; apply occurs_at_0, Hi | right].
    exists i. apply occurs_at_S in Hi. exact Hi.
  - intros [Hp | [i Hi]]; [exists 0%nat; apply occurs_at_0, Hp |].
    exists (S i). apply occurs_at_S, Hi.
Qed.

Lemma prefix_cons (a b : ascii) (t s : string) :
  String.prefix (String a t) (String b s) = true
  <-> a = b /\ String.prefix t s = true.
Proof.
  rewrite !prefix_app. split.
  - intros [post Hpost]. rewrite app_cons in Hpost. injection Hpost as -> ->.
    split; [reflexivity | exists post; reflexivity].
  - intros [-> [post ->]]. exists post. reflexivity.
Qed.

Lemma not_prefix_nil (a : ascii) (t : string) : String.prefix (String a t) "" = false.
Proof. reflexivity. Qed.

Lemma HasSuffix_app (s suffix : string) :
  gostrings.HasSuffix s suffix = true <-> exists pre, s = pre +:+ suffix.
Proof.
  unfold gostrings.HasSuffix. rewrite andb_true_iff, bool_decide_eq_true. split.
  - intros [_ Hdrop].
    exists (gostrings.take (String.length s - String.length suffix) s).
    etrans; [apply (take_drop (String.length s - String.length suffix)) |].
    rewrite Hdrop. reflexivity.
  - intros [pre ->]. rewrite length_app. split; [apply Nat.leb_le; lia |].
    replace (String.length pre + String.length suffix - String.length suffix)%nat
      with (String.length pre) by lia.
    apply drop_app.
Qed.

Lemma TrimLeft_suffix (s cutset : string) :
  exists pre, s = pre +:+ gostrings.TrimLeft s cutset.
Proof.
  induction s as [|c s [pre IH]]; [exists ""; reflexivity |].
  cbn [gostrings.TrimLeft]. destruct (gostrings.in_cutset c cutset).
  - exists (String c pre). rewrite app_cons, <- IH. reflexivity.
  - exists "". reflexivity.
Qed.

Lemma TrimRight_prefix (s cutset : string) :
  exists post, s = gostrings.TrimRight s cutset +:+ post.
Proof.
  induction s as [|c s [post IH]]; [exists ""; reflexivity |].
  cbn [gostrings.TrimRight]. destruct (gostrings.TrimRight s cutset) as [|x t].
  - destruct (gostrings.in_cutset c cutset).
    + exists (String c s). reflexivity.
    + exists s. reflexivity.
  - exists post. rewrite app_cons, <- IH. reflexivity.
Qed.

Lemma Trim_inside (s cutset : string) :
  exists pre post, s = pre +:+ gostrings.Trim s cutset +:+ post.
Proof.
  unfold gostrings.Trim.
  destruct (TrimLeft_suffix s cutset) as [pre Hpre].
  destruct (TrimRight_prefix (gostrings.TrimLeft s cutset) cutset) as [post Hpost].
  exists pre, post. rewrite <- Hpost. exact Hpre.
Qed.

Lemma list_ascii_app (a b : string) :
  list_ascii_of_string (a +:+ b) = list_ascii_of_string a ++ list_ascii_of_string b.
Proof.
  induction a as [|c a IH]; [reflexivity |].
  rewrite app_cons. cbn. rewrite IH. reflexivity.
Qed.

Lemma in_cutset_underscore (c : ascii) :
  gostrings.in_cutset c "_" = bool_decide ("_"%char = c).
Proof. cbn. apply orb_false_r. Qed.

Lemma TrimLeft_head (s : string) :
  String.prefix "_" (gostrings.TrimLeft s "_") = false.
Proof.
  induction s as [|c s IH]; [reflexivity |].
  cbn [gostrings.TrimLeft]. rewrite in_cutset_underscore.
  case_bool_decide as Hc; [exact IH |].
  destruct (String.prefix "_" (String c s)) eqn:Hp; [| reflexivity].
  apply prefix_cons in Hp as [Heq _]. contradiction.
Qed.

Lemma TrimRight_head (t s cutset : string) :
  String.prefix t s = false ->
  t <> "" ->
  String.prefix t (gostrings.TrimRight s cutset) = false.
Proof.
  intros Hno Ht.
  destruct (String.prefix t (gostrings.TrimRight s cutset)) eqn:Hp; [| reflexivity].
  apply prefix_app in Hp as [post Hpost].
  destruct (TrimRight_prefix s cutset) as [post' Hs].
  rewrite Hpost, app_assoc in Hs.
  assert (String.prefix t s = true) by (apply prefix_app; eauto).
  congruence.
Qed.

Lemma TrimRight_last (s pre : string) :
  gostrings.TrimRight s "_" <> pre +:+ "_".
Proof.
  revert pre. induction s as [|c s IH]; intros pre; cbn [gostrings.TrimRight].
  - destruct pre; discriminate.
  - destruct (gostrings.TrimRight s "_") as [|x t] eqn:Ht.
    + rewrite in_cutset_underscore. case_bool_decide as Hc.
      * destruct pre; discriminate.
      * destruct pre as [|p [|q pre]]; [| discriminate | discriminate].
        intros [= ->]. contradiction.
    + destruct pre as [|p pre]; [discriminate |].
      rewrite app_cons. intros [= -> Heq]. exact (IH pre Heq).
Qed.

Lemma replaceRuns_bytes (name : string) (skipping : bool) :
  Forall (fun c => alnum_lower c = true \/ c = "_"%char)
    (list_ascii_of_string (replaceRuns name skipping)).
Proof.
  revert skipping. induction name as [|c name IH]; intros skipping;
    cbn [replaceRuns]; [constructor |].
  destruct (alnum_lower c) eqn:Hc; [constructor; auto |].
  destruct skipping; [apply IH |]. constructor; auto.
Qed.

Lemma replaceRuns_runs (name : string) (skipping : bool) :
  ~ occurs "__" (replaceRuns name skipping)
  /\ (skipping = true -> String.prefix "_" (replaceRuns name skipping) = false).
Proof.
  revert skipping. induction name as [|c name IH]; intros skipping;
    cbn [replaceRuns].
  - split; [| reflexivity]. intros [[|i] Hi]; [| exact (occurs_at_nil _ _ Hi)].
    apply occurs_at_0 in Hi. discriminate.
  - destruct (alnum_lower c) eqn:Hc.
    + split.
      * intros [[<- _]%prefix_cons | Hocc]%occurs_cons;
          [vm_compute in Hc; discriminate |].
        exact (proj1 (IH false) Hocc).
      * intros _.
        destruct (String.prefix "_" (String c (replaceRuns name false))) eqn:Hp;
          [| reflexivity].
        apply prefix_cons in Hp as [<- _]. vm_compute in Hc. discriminate.
    + destruct skipping; [apply IH |]. split; [| discriminate].
      intros [[_ Hp]%prefix_cons | Hocc]%occurs_cons.
      * rewrite (proj2 (IH true) eq_refl) in Hp. discriminate.
      * exact (proj1 (IH true) Hocc).
Qed.

(** X29. Whatever the title, [sanitizeName] returns a name made of the bytes
    [a-z], [0-9] and [_] only, which neither begins nor ends with an
    underscore and has no two underscores in a row. *)
Theorem sanitizeName_shape (ToLower : string -> string) (title : string) :
  Forall (fun c => alnum_lower c = true \/ c = "_"%char)
    (list_ascii_of_string (sanitizeName ToLower title))
  /\ gostrings.HasPrefix (sanitizeName ToLower title) "_" = false
  /\ gostrings.HasSuffix (sanitizeName ToLower title) "_" = false
  /\ ~ occurs "__" (sanitizeName ToLower title).
Proof.
  unfold sanitizeName. set (name := replaceRuns (ToLower title) false).
  destruct (Trim_inside name "_") as (pre & post & Hname).
  split; [| split; [| split]].
  - pose proof (replaceRuns_bytes (ToLower title) false) as Hbytes.
    fold name in Hbytes. rewrite Hname, !list_ascii_app, !Forall_app in Hbytes.
    tauto.
  - unfold gostrings.HasPrefix, gostrings.Trim.
    apply TrimRight_head; [apply TrimLeft_head | discriminate].
  - destruct (gostrings.HasSuffix _ "_") eqn:Hs; [| reflexivity].
    apply HasSuffix_app in Hs as [pre' Hs].
    apply TrimRight_last in Hs. contradiction.
  - intros Hocc. apply (proj1 (replaceRuns_runs (ToLower title) false)).
    fold name. rewrite Hname. apply occurs_app, Hocc.
Qed.

(** * The merged title *)

Lemma mergeFields_title (inc md : Metadata.t) :
  Metadata.Title (mergeFields inc md)
  = if titleReplaced inc md then Metadata.Title inc else Metadata.Title md.
Proof. rewrite mergeFields_closed. reflexivity. Qed.

Lemma mergeFields_title_present (inc md : Metadata.t) :
  (Metadata.Title (mergeFields inc md) <> ""
   <-> Metadata.Title md <> "" \/ Metadata.Title inc <> "")
  /\ (Metadata.Title (mergeFields inc md) = Metadata.Title md
      \/ Metadata.Title (mergeFields inc md) = Metadata.Title inc).
Proof.
  rewrite mergeFields_title. unfold titleReplaced.
  destruct (decide (Metadata.Title inc = "")) as [Hinc | Hinc].
  - rewrite (bool_decide_eq_true_2 _ Hinc), andb_false_r. split; [tauto | auto].
  - rewrite (bool_decide_eq_false_2 _ Hinc), andb_true_r.
    destruct (decide (Metadata.Title md = "")) as [Hmd | Hmd].
    + rewrite (bool_decide_eq_true_2 _ Hmd). cbn [orb]. split; [tauto | auto].
    + rewrite (bool_decide_eq_false_2 _ Hmd). cbn [orb].
      destruct (TakesPrecedenceOverOrEqual _ _); (split; [tauto | auto]).
Qed.

Lemma foldl_mergeFields_title (configs : list ConfigPtr) (md : Metadata.t) :
  let merged :=
    foldl (fun md cfg => mergeFields (Config.Metadata (deref cfg)) md) md configs in
  (Metadata.Title merged <> ""
   <-> Metadata.Title md <> "" \/ exists cfg, cfg ∈ configs /\ titleOf cfg <> "")
  /\ (Metadata.Title merged = Metadata.Title md
      \/ exists cfg, cfg ∈ configs /\ Metadata.Title merged = titleOf cfg).
Proof.
  cbn zeta. revert md. induction configs as [|cfg configs IH]; intros md; cbn [foldl].
  - split; [| auto]. split; [auto |].
    intros [H | (cfg & Hin & _)]; [exact H |]. apply elem_of_nil in Hin. destruct Hin.
  - destruct (IH (mergeFields (Config.Metadata (deref cfg)) md)) as [Hpresent Hfrom].
    destruct (mergeFields_title_present (Config.Metadata (deref cfg)) md)
      as [Hstep Hchoice].
    split.
    + rewrite Hpresent, Hstep. unfold titleOf. split.
      * intros [[Hmd | Hcfg] | (c & Hin & Hc)]; [auto | right | right].
        -- exists cfg. rewrite elem_of_cons. auto.
        -- exists c. rewrite elem_of_cons. auto.
      * intros [Hmd | (c & [-> | Hin]%elem_of_cons & Hc)]; [auto | auto |].
        right. exists c. auto.
    + destruct Hfrom as [-> | (c & Hin & Hc)].
      * destruct Hchoice as [-> | ->]; [auto |].
        right. exists cfg. rewrite elem_of_cons. auto.
      * right. exists c. rewrite elem_of_cons. auto.
Qed.

Section title_facts.

Variable TrimSpace : string -> string.
Variable range : forall V : Type, gmap string V -> list (string * V).
Hypothesis range_perm :
  forall (V : Type) (m : gmap string V), range V m ≡ₚ map_to_list m.

(** X30. In standard mode the merged document has a title exactly when some
    input document has one, and its title is then the title of an input
    document. *)
Theorem standard_title_present (configs : list ConfigPtr) :
  standardMode configs ->
  exists merged,
    MergeAll TrimSpace range configs = Returns merged
    /\ (Metadata.Title (Config.Metadata merged) <> ""
        <-> exists cfg, cfg ∈ configs /\ titleOf cfg <> "")
    /\ (Metadata.Title (Config.Metadata merged) = ""
        \/ exists cfg,
             cfg ∈ configs /\ Metadata.Title (Config.Metadata merged) = titleOf cfg).
Proof.
  intros Hstd.
  rewrite (MergeAll_standard_closed TrimSpace range range_perm configs Hstd).
  eexists. split; [reflexivity |]. cbn [Config.Metadata].
  destruct (foldl_mergeFields_title configs Metadata.zero) as [Hpresent Hfrom].
  split; [| exact Hfrom].
  rewrite Hpresent. cbn. split; [| auto]. intros [H | H]; [contradiction | exact H].
Qed.

End title_facts.

(** * The further properties on concrete documents *)

Lemma run_standard : standardMode [run.relativeDoc; run.explicitDoc].
Proof. split; [discriminate | repeat constructor]. Qed.

Lemma run_wired_standard : standardMode [run.wiredLow; run.wiredHigh].
Proof. split; [discriminate | repeat constructor]. Qed.

Lemma rangeReversed_perm (V : Type) (m : gmap string V) :
  rangeReversed V m ≡ₚ map_to_list m.
Proof. apply reverse_Permutation. Qed.

Lemma standard_sections_keys_witness :
  exists merged,
    MergeAll run.TrimSpace run.range [run.relativeDoc; run.explicitDoc]
    = Returns merged
    /\ forall k : string,
         is_Some (gomap.get (Config.Sections merged) k)
         <-> exists cfg,
               cfg ∈ [run.relativeDoc; run.explicitDoc]
               /\ is_Some (sectionsOf cfg !! k).
Proof.
  exact (standard_sections_keys run.TrimSpace run.range run_range_perm
           [run.relativeDoc; run.explicitDoc] run_standard).
Defined.

Lemma standard_section_is_best_input_witness :
  exists merged,
    MergeAll run.TrimSpace run.range [run.relativeDoc; run.explicitDoc]
    = Returns merged
    /\ forall (k : string) (e : Section.t),
         gomap.get (Config.Sections merged) k = Some e ->
         (exists cfg,
            cfg ∈ [run.relativeDoc; run.explicitDoc]
            /\ sectionsOf cfg !! k = Some e)
         /\ forall cfg e',
              cfg ∈ [run.relativeDoc; run.explicitDoc] ->
              sectionsOf cfg !! k = Some e' ->
              TakesPrecedenceOverOrEqual (Section.Priority e) (Section.Priority e')
              = true.
Proof.
  exact (standard_section_is_best_input run.TrimSpace run.range run_range_perm
           [run.relativeDoc; run.explicitDoc] run_standard).
Defined.

Lemma standard_section_later_wins_witness :
  exists merged,
    MergeAll run.TrimSpace run.range ([run.relativeDoc] ++ run.explicitDoc :: [])
    = Returns merged
    /\ gomap.get (Config.Sections merged) "s"
       = Some (run.section "X content" (NewExplicitPriority 5)).
Proof.
  apply (standard_section_later_wins run.TrimSpace run.range run_range_perm
           [run.relativeDoc] [] run.explicitDoc "s"
           (run.section "X content" (NewExplicitPriority 5))).
  - exact run_standard.
  - reflexivity.
  - intros cfg e' ->%list_elem_of_singleton. vm_compute. intros [= <-]. reflexivity.
  - intros cfg e' Hin. apply elem_of_nil in Hin. destruct Hin.
Defined.

Lemma standard_points_and_targets_witness :
  exists merged,
    MergeAll run.TrimSpace run.range [run.wiredLow; run.wiredHigh]
    = Returns merged
    /\ gomap.get (Config.MergePoints merged) "test"
       = Some (MergePoint.mk "<!-- MERGE:test -->" "high default"
                 (NewExplicitPriority 2))
    /\ gomap.get (Config.MergeTargets merged) "test"
       = Some (MergeTarget.mk "append" "high content" (NewExplicitPriority 2))
    /\ (forall (k : string) (e : MergePoint.t),
          gomap.get (Config.MergePoints merged) k = Some e ->
          (exists cfg,
             cfg ∈ [run.wiredLow; run.wiredHigh] /\ pointsOf cfg !! k = Some e)
          /\ forall cfg e',
               cfg ∈ [run.wiredLow; run.wiredHigh] ->
               pointsOf cfg !! k = Some e' ->
               TakesPrecedenceOverOrEqual
                 (MergePoint.Priority e) (MergePoint.Priority e') = true)
    /\ (forall (k : string) (e : MergeTarget.t),
          gomap.get (Config.MergeTargets merged) k = Some e ->
          (exists cfg,
             cfg ∈ [run.wiredLow; run.wiredHigh] /\ targetsOf cfg !! k = Some e)
          /\ forall cfg e',
               cfg ∈ [run.wiredLow; run.wiredHigh] ->
               targetsOf cfg !! k = Some e' ->
               TakesPrecedenceOverOrEqual
                 (MergeTarget.Priority e) (MergeTarget.Priority e') = true).
Proof.
  destruct (standard_points_and_targets run.TrimSpace run.range run_range_perm
              [run.wiredLow; run.wiredHigh] run_wired_standard)
    as (merged & Hmerged & Hpoints & Htargets).
  exists merged. split; [exact Hmerged |].
  assert (Hlookups :
    gomap.get (Config.MergePoints merged) "test"
    = Some (MergePoint.mk "<!-- MERGE:test -->" "high default"
              (NewExplicitPriority 2))
    /\ gomap.get (Config.MergeTargets merged) "test"
       = Some (MergeTarget.mk "append" "high content" (NewExplicitPriority 2))).
  { vm_compute in Hmerged. injection Hmerged as <-.
    split; vm_compute; reflexivity. }
  destruct Hlookups as [Hpoint Htarget].
  split; [exact Hpoint |]. split; [exact Htarget |].
  split; [exact Hpoints | exact Htargets].
Defined.

Lemma mergeMetadata_titled_overrides_witness :
  Metadata.Priority
    (Config.Metadata (mergeMetadata (deref run.baseTitled) (deref run.overrideTitled)))
  = NewExplicitPriority 10
  /\ Metadata.Title
       (Config.Metadata (mergeMetadata (deref run.baseTitled) (deref run.overrideTitled)))
     = "Override Title"
  /\ Metadata.Description
       (Config.Metadata (mergeMetadata (deref run.baseTitled) (deref run.overrideTitled)))
     = "Base Description".
Proof.
  destruct (mergeMetadata_titled_overrides
              (deref run.baseTitled) (deref run.overrideTitled) eq_refl)
    as (Hpriority & Htitle & Hdescription & _).
  split; [exact Hpriority |]. split; [exact Htitle | exact Hdescription].
Defined.

Lemma mergeMetadata_lower_fills_gaps_witness :
  Metadata.Priority
    (Config.Metadata (mergeMetadata (deref run.overrideTitled) (deref run.baseTitled)))
  = NewExplicitPriority 10
  /\ Metadata.Title
       (Config.Metadata (mergeMetadata (deref run.overrideTitled) (deref run.baseTitled)))
     = "Override Title"
  /\ Metadata.Description
       (Config.Metadata (mergeMetadata (deref run.overrideTitled) (deref run.baseTitled)))
     = "Base Description".
Proof.
  destruct (mergeMetadata_lower_fills_gaps
              (deref run.overrideTitled) (deref run.baseTitled)
              ltac:(discriminate) eq_refl)
    as (Hpriority & Htitle & Hdescription & _).
  split; [exact Hpriority |]. split; [exact Htitle | exact Hdescription].
Defined.

Lemma standard_repeat_idempotent_witness :
  MergeAll run.TrimSpace run.range
    ([run.relativeDoc] ++ run.explicitDoc :: run.explicitDoc :: [])
  = MergeAll run.TrimSpace run.range ([run.relativeDoc] ++ run.explicitDoc :: []).
Proof.
  exact (standard_repeat_idempotent run.TrimSpace run.range run_range_perm
           [run.relativeDoc] [] run.explicitDoc run_standard).
Defined.

Lemma findBaseTemplate_first_witness :
  match findBaseTemplate run.range [run.explicitDoc; run.relativeTemplate] with
  | Some baseConfig =>
      exists before after,
        [run.explicitDoc; run.relativeTemplate] = before ++ baseConfig :: after
        /\ Forall (fun cfg => hasPlaceholders (deref cfg) = false) before
        /\ hasPlaceholders (deref baseConfig) = true
  | None =>
      Forall (fun cfg => hasPlaceholders (deref cfg) = false)
        [run.explicitDoc; run.relativeTemplate]
  end.
Proof.
  exact (findBaseTemplate_first run.range run_range_perm
           [run.explicitDoc; run.relativeTemplate]).
Defined.

Lemma template_keeps_base_witness :
  exists merged,
    MergeAll run.TrimSpace run.range [run.richOther; run.richTemplate]
    = Returns merged
    /\ gomap.get (Config.MergePoints merged) "test"
       = Some (MergePoint.mk "<!-- MERGE:test -->" "base default"
                 (NewRelativePriority 2))
    /\ gomap.get (Config.MergePoints merged) "lint" = None
    /\ gomap.get (Config.MergeTargets merged) "test"
       = Some (MergeTarget.mk "replace" "base content" (NewRelativePriority 2))
    /\ gomap.get (Config.MergeTargets merged) "deploy" = None
    /\ Metadata.Description (Config.Metadata merged) = "Base description"
    /\ Metadata.Version (Config.Metadata merged) = "1.2.0"
    /\ Metadata.Language (Config.Metadata merged) = "go"
    /\ Metadata.Extends (Config.Metadata merged) = "parent.md"
    /\ Metadata.Priority (Config.Metadata merged) = NewRelativePriority 2.
Proof.
  destruct (template_keeps_base run.TrimSpace run.range run_range_perm
              [run.richOther; run.richTemplate] run.richTemplate eq_refl)
    as (merged & Hmerged & Hpoints & Htargets & Hdescription & Hversion
        & Hlanguage & Hextends & Hpriority).
  exists merged. split; [exact Hmerged |].
  rewrite Hpoints, Htargets, Hdescription, Hversion, Hlanguage, Hextends, Hpriority.
  repeat split; vm_compute; reflexivity.
Defined.

Lemma template_title_witness :
  exists merged,
    MergeAll run.TrimSpace run.range [run.explicitDoc; run.relativeTemplate]
    = Returns merged
    /\ Metadata.Title (Config.Metadata merged) = "Y".
Proof.
  destruct (template_title run.TrimSpace run.range run_range_perm
              [run.explicitDoc; run.relativeTemplate] run.relativeTemplate eq_refl)
    as (merged & Hmerged & _ & Hties).
  exists merged. split; [exact Hmerged |].
  apply Hties. repeat constructor.
Defined.

Lemma parseFileOrder_permutation_witness :
  main.parseFileOrder run.TrimSpace ["a.md"; "b.md"; "c.md"] "c.md, a.md"
  ≡ₚ ["a.md"; "b.md"; "c.md"].
Proof.
  apply (parseFileOrder_permutation run.TrimSpace).
  apply (bool_decide_unpack _). vm_compute. exact I.
Defined.

Lemma parseFileOrder_order_witness :
  exists ordered,
    main.parseFileOrder run.TrimSpace ["a.md"; "b.md"; "c.md"] "c.md, x.md, a.md"
    = ordered
        ++ filter (fun file =>
                     file ∉ run.TrimSpace <$> gostrings.Split "c.md, x.md, a.md" ",")
             ["a.md"; "b.md"; "c.md"]
    /\ ordered = ["c.md"; "a.md"].
Proof.
  destruct (parseFileOrder_order run.TrimSpace ["a.md"; "b.md"; "c.md"]
              "c.md, x.md, a.md" ltac:(discriminate))
    as (ordered & Horder & _ & _ & _ & Hfilter).
  exists ordered. split; [exact Horder |].
  rewrite Hfilter; [reflexivity |].
  apply (bool_decide_unpack _). vm_compute. exact I.
Defined.

Lemma validated_order_exists_witness :
  main.parseFileOrder run.TrimSpace ["a.md"; ""; "b.md"] "b.md" <> []
  /\ Forall (fun file =>
               file <> "" -> bool_decide (file = "missing.md") = false)
       (main.parseFileOrder run.TrimSpace ["a.md"; ""; "b.md"] "b.md").
Proof.
  exact (validated_order_exists (fun file => bool_decide (file = "missing.md"))
           run.TrimSpace ["a.md"; ""; "b.md"] "out.md" "b.md" eq_refl).
Defined.

Lemma ValidateConfig_accepts_witness :
  ValidateConfig run.range (deref run.explicitDoc) = Returns tt
  <-> Metadata.Title (Config.Metadata (deref run.explicitDoc)) <> ""
      /\ gomap.entries (Config.Sections (deref run.explicitDoc)) <> ∅
      /\ map_Forall (fun _ section =>
                       Type_ (Section.Priority section) = PriorityNone
                       \/ 0 <= Value (Section.Priority section))
           (gomap.entries (Config.Sections (deref run.explicitDoc))).
Proof.
  exact (ValidateConfig_accepts run.range run_range_perm (deref run.explicitDoc)).
Defined.

Lemma plain_markdown_validates_witness :
  exists cfg,
    run.ParseConfig "# File 1" FormatMarkdown = Returns cfg
    /\ Config.Metadata cfg = Metadata.set_Title "Untitled Document" Metadata.zero
    /\ Config.Sections cfg
       = Some {["content" := contentSection (run.TrimSpace "# File 1")]}
    /\ ValidateConfig run.range cfg = Returns tt.
Proof.
  exact (plain_markdown_validates run.no_decoder run.no_decoder run.no_yaml_map
           run.TrimSpace (fun s => s) run.range run_range_perm "# File 1" eq_refl).
Defined.

Lemma unterminated_frontmatter_dropped_witness :
  run.ParseConfig ("---" +:+ " title: Lost") FormatMarkdown
  = Returns (Config.mk Metadata.zero (Some ∅) (Some ∅) (Some ∅) "" FormatMarkdown).
Proof.
  apply (unterminated_frontmatter_dropped run.no_decoder run.no_decoder
           run.no_yaml_map run.TrimSpace (fun s => s) " title: Lost").
  apply index_nat_None. reflexivity.
Defined.

Lemma LoadConfig_loaded_witness :
  exists cfg,
    LoadConfig (fun _ => Returns "# File 1") run.no_decoder run.no_decoder
      run.no_yaml_map run.TrimSpace (fun s => s) "CLAUDE.md" = Returns cfg
    /\ Config.SourceFile cfg = "CLAUDE.md"
    /\ DetectFormat (fun s => s) "CLAUDE.md" = Returns (Config.SourceFormat cfg)
    /\ (Config.SourceFormat cfg = FormatTOML
        \/ Config.SourceFormat cfg = FormatYAML
        \/ Config.SourceFormat cfg = FormatMarkdown)
    /\ maps_non_nil cfg.
Proof.
  eexists. split; [vm_compute; reflexivity |].
  apply (LoadConfig_loaded (fun _ => Returns "# File 1") run.no_decoder
           run.no_decoder run.no_yaml_map run.TrimSpace (fun s => s) "CLAUDE.md").
  vm_compute. reflexivity.
Defined.

Lemma standard_order_independent_witness :
  MergeAll run.TrimSpace run.range [run.wiredLow; run.wiredHigh]
  = MergeAll (fun s => s) rangeReversed [run.wiredLow; run.wiredHigh]
  /\ run.range _ (sectionsOf run.wiredHigh)
     <> rangeReversed _ (sectionsOf run.wiredHigh)
  /\ run.range _ (pointsOf run.wiredLow)
     <> rangeReversed _ (pointsOf run.wiredLow).
Proof.
  split.
  - exact (standard_order_independent run.TrimSpace (fun s => s) run.range
             rangeReversed [run.wiredLow; run.wiredHigh]
             run_range_perm rangeReversed_perm run_wired_standard).
  - split; intros Hsame; vm_compute in Hsame; discriminate Hsame.
Defined.

Lemma standard_title_present_witness :
  exists merged,
    MergeAll run.TrimSpace run.range [run.relativeDoc; run.explicitDoc]
    = Returns merged
    /\ (Metadata.Title (Config.Metadata merged) <> ""
        <-> exists cfg,
              cfg ∈ [run.relativeDoc; run.explicitDoc] /\ titleOf cfg <> "")
    /\ (Metadata.Title (Config.Metadata merged) = ""
        \/ exists cfg,
             cfg ∈ [run.relativeDoc; run.explicitDoc]
             /\ Metadata.Title (Config.Metadata merged) = titleOf cfg).
Proof.
  exact (standard_title_present run.TrimSpace run.range run_range_perm
           [run.relativeDoc; run.explicitDoc] run_standard).
Defined.

Lemma UnmarshalText_accepts_witness :
  UnmarshalText run.ToLower "Explicit" = Returns PriorityExplicit
  /\ UnmarshalText run.ToLower (MarshalText PriorityExplicit)
     = Returns PriorityExplicit
  /\ UnmarshalText run.ToLower (MarshalText PriorityRelative)
     = Returns PriorityRelative
  /\ UnmarshalText run.ToLower (MarshalText PriorityNone) = Returns PriorityNone.
Proof.
  destruct (UnmarshalText_accepts run.ToLower) as [Haccepts Hback].
  split; [apply Haccepts; left; reflexivity |].
  assert (Hfixed : forall pt, run.ToLower (MarshalText pt) = MarshalText pt)
    by (intros []; reflexivity).
  split; [apply Hback, Hfixed |]. split; apply Hback, Hfixed.
Defined.
